(** * smart-mock-interview: the real-time session engine of
      [frontend/src/pages/InterviewInProgress.tsx]

    A shallow embedding of the interview page's session logic: the textual
    scoring effect, [evaluateCommunication], the face-detection callback
    [detectFace], the metric histories, [nextQuestion] and [endInterview].

    Modelling conventions.
    - The component's [useState] cells are the fields of one record, [State].
      A handler is a function of the state its closure captured ([snap]) and
      of the state its updates are applied to; a setter called with a value
      overwrites the cell, a setter called with a function ([prev => ...])
      is applied to the cell's current content.
    - An [async] function is cut at its [await]s into the pieces that run
      without interruption.
    - JavaScript numbers: integer-valued cells are [Z], fractional values
      are the rationals [Q] that doubles denote, and [Math.round] is
      [floor (x + 1/2)].  The products and sums of the weighted scores and
      of the expression score are rounded to double precision as the
      code's are ([JS.mul], [JS.add], [JS.to_double] for a literal), so
      that [0.7 * 63 + 0.3 * 58] is a little under 61.5 and rounds to 61.
      The quotients of integers ([calculateAverage], the ratio of the
      relevance score and its percentage) are kept exact: such a quotient
      is a half-integer, which the doubles give exactly, or lies further
      from every half-integer than the doubles' error, so that
      [Math.round] gives the same integer.  The product of
      [Math.random()] by a length is kept exact too: every index that the
      code can draw is drawn here by some number of the stream.  A
      division whose result is [NaN] is an explicit [None].
    - Strings are ASCII strings; [toLowerCase] folds [A-Z] only. *)

From Stdlib Require Import ZArith QArith Qround Qabs Qpower List Bool Ascii.
From Stdlib Require Import String Lia.
From Stdlib Require Import DecimalString DecimalPos Permutation Lqa.
Import ListNotations.

Open Scope Z_scope.

(** ** JavaScript numeric primitives *)

Module JS.

(** [Math.round]: nearest integer, a tie goes up. *)
Definition Math_round (x : Q) : Z := Qfloor (x + 0.5)%Q.

Definition Math_min (a b : Z) : Z := Z.min a b.
Definition Math_max (a b : Z) : Z := Z.max a b.

(** [a / b] on integer-valued numbers; [0 / 0] is [NaN]. *)
Definition div (a b : Z) : option Q :=
  if b =? 0 then None else Some (inject_Z a / inject_Z b)%Q.

(** *** Double precision

    A finite double is a rational [m * 2^e] with [|m| < 2^53] and
    [e >= -1074]; an operation returns the double nearest to its exact
    result, a tie going to the even [m].  Overflow is left out: no number
    of the page comes near [2^1024]. *)

(** The [e] with [2^e <= q < 2^(e+1)], for a positive [q]. *)
Definition floor_log2 (q : Q) : Z :=
  let k := Z.log2 (Qnum q) - Z.log2 (Zpos (Qden q)) in
  if Qle_bool (2 ^ k) q then k else k - 1.

(** The nearest integer, a tie going to the even one. *)
Definition nearest_even (x : Q) : Z :=
  let f := Qfloor x in
  match (x - inject_Z f ?= 1 # 2)%Q with
  | Lt => f
  | Gt => f + 1
  | Eq => if Z.even f then f else f + 1
  end.

(** The unit in the last place of the doubles around a positive [q]. *)
Definition ulp (q : Q) : Q := (2 ^ Z.max (floor_log2 q - 52) (-1074))%Q.

(** The double nearest to [q]; this is also what a decimal literal
    denotes. *)
Definition to_double (q : Q) : Q :=
  match Qnum q with
  | 0 => 0%Q
  | Zpos _ => Qred (inject_Z (nearest_even (q / ulp q)) * ulp q)
  | Zneg _ =>
      Qred (- (inject_Z (nearest_even (- q / ulp (- q))) * ulp (- q)))
  end.

(** [a * b] and [a + b] on doubles. *)
Definition mul (a b : Q) : Q := to_double (a * b).
Definition add (a b : Q) : Q := to_double (a + b).

End JS.

Import JS.

(** ** JavaScript string primitives (ASCII) *)

Module Str.

Definition is_upper (c : ascii) : bool :=
  let n := nat_of_ascii c in (65 <=? n)%nat && (n <=? 90)%nat.

Definition lower_char (c : ascii) : ascii :=
  if is_upper c then ascii_of_nat (nat_of_ascii c + 32) else c.

(** [s.toLowerCase()] *)
Fixpoint toLowerCase (s : string) : string :=
  match s with
  | EmptyString => EmptyString
  | String c s' => String (lower_char c) (toLowerCase s')
  end.

(** [s.startsWith(t)] *)
Fixpoint startsWith (s t : string) {struct t} : bool :=
  match t, s with
  | EmptyString, _ => true
  | String _ _, EmptyString => false
  | String b t', String a s' => Ascii.eqb a b && startsWith s' t'
  end.

(** [s.includes(t)]: [t] occurs in [s] at some position. *)
Fixpoint includes (s t : string) : bool :=
  startsWith s t ||
  match s with
  | EmptyString => false
  | String _ s' => includes s' t
  end.

(** [s.endsWith(" ")] *)
Fixpoint endsWithSpace (s : string) : bool :=
  match s with
  | EmptyString => false
  | String c EmptyString => Ascii.eqb c " "
  | String _ s' => endsWithSpace s'
  end.

(** A string is falsy exactly when it is empty. *)
Definition truthy (s : string) : bool :=
  match s with EmptyString => false | _ => true end.

End Str.

(** ** Regular expressions, as [String.prototype.match] runs them

    A backtracking matcher in continuation-passing style for the fragment of
    JavaScript's [RegExp] that [evaluateCommunication] uses: character
    classes, sequence, ordered alternation, greedy [r{n,}] (so [r*] and
    [r+]), capturing groups with back-references, and [\b].  Every iterated
    sub-pattern of the source consumes at least one character, which is what
    the fuel of the repetition loop relies on. *)

Module RegExp.

Definition chars := list ascii.

Inductive regex : Type :=
| Empty
| Class (p : ascii -> bool)
| Seq (r1 r2 : regex)
| Alt (r1 r2 : regex)
| AtLeast (n : nat) (r : regex)
| Group (i : nat) (r : regex)
| Backref (i : nat)
| WordBoundary.

(** A pattern with its [i] flag; all patterns of the source carry [g]. *)
Record RegExp : Type := mkRegExp { source : regex; ignoreCase : bool }.

(** [\w], [\s], [[A-Z]], [[.!?]] *)
Definition is_word (c : ascii) : bool :=
  let n := nat_of_ascii c in
  ((48 <=? n) && (n <=? 57) || (65 <=? n) && (n <=? 90) ||
   (97 <=? n) && (n <=? 122) || (n =? 95))%nat.

Definition is_space (c : ascii) : bool :=
  let n := nat_of_ascii c in ((9 <=? n) && (n <=? 13) || (n =? 32))%nat.

Definition is_terminator (c : ascii) : bool :=
  Ascii.eqb c "." || Ascii.eqb c "!" || Ascii.eqb c "?".

Definition char_eq (ci : bool) (a b : ascii) : bool :=
  if ci then Ascii.eqb (Str.lower_char a) (Str.lower_char b)
  else Ascii.eqb a b.

(** Smart constructors for the concrete syntax. *)
Definition plus (r : regex) : regex := AtLeast 1 r.
Definition star (r : regex) : regex := AtLeast 0 r.

Fixpoint lit (ci : bool) (s : string) : regex :=
  match s with
  | EmptyString => Empty
  | String c s' => Seq (Class (char_eq ci c)) (lit ci s')
  end.

(** [w1|w2|...|wn], tried from left to right. *)
Fixpoint words (ci : bool) (ws : list string) : regex :=
  match ws with
  | [] => Class (fun _ => false)
  | [w] => lit ci w
  | w :: ws' => Alt (lit ci w) (words ci ws')
  end.

Definition captures := list (nat * chars).

Fixpoint capture (i : nat) (cs : captures) : option chars :=
  match cs with
  | [] => None
  | (j, w) :: cs' => if Nat.eqb i j then Some w else capture i cs'
  end.

(** [w] is a prefix of [s]; the result is what follows it and the last
    character read. *)
Fixpoint strip (ci : bool) (w s : chars) (prev : option ascii)
  : option (option ascii * chars) :=
  match w, s with
  | [], _ => Some (prev, s)
  | _ :: _, [] => None
  | a :: w', b :: s' =>
      if char_eq ci a b then strip ci w' s' (Some b) else None
  end.

Definition is_word_at (c : option ascii) : bool :=
  match c with Some a => is_word a | None => false end.

(** A position in the text: the character before it and what follows. *)
Definition Cont : Type :=
  option ascii -> chars -> captures -> option (option ascii * chars).

Fixpoint run (ci : bool) (r : regex) (prev : option ascii) (rest : chars)
    (cs : captures) (k : Cont) {struct r} : option (option ascii * chars) :=
  match r with
  | Empty => k prev rest cs
  | Class p =>
      match rest with
      | c :: tl => if p c then k (Some c) tl cs else None
      | [] => None
      end
  | Seq r1 r2 =>
      run ci r1 prev rest cs (fun p' s' cs' => run ci r2 p' s' cs' k)
  | Alt r1 r2 =>
      match run ci r1 prev rest cs k with
      | Some e => Some e
      | None => run ci r2 prev rest cs k
      end
  | AtLeast n r' =>
      (fix loop (fuel n : nat) (prev : option ascii) (rest : chars)
           (cs : captures) {struct fuel} : option (option ascii * chars) :=
         match fuel with
         | O => None
         | S fuel' =>
             match
               run ci r' prev rest cs
                 (fun p' s' cs' =>
                    if (List.length s' <? List.length rest)%nat
                    then loop fuel' (Nat.pred n) p' s' cs'
                    else None)
             with
             | Some e => Some e
             | None => match n with O => k prev rest cs | S _ => None end
             end
         end) (S (List.length rest)) n prev rest cs
  | Group i r' =>
      run ci r' prev rest cs
        (fun p' s' cs' =>
           k p' s'
             ((i, firstn (List.length rest - List.length s') rest) :: cs'))
  | Backref i =>
      match capture i cs with
      | None => k prev rest cs
      | Some w =>
          match strip ci w rest prev with
          | Some (p', s') => k p' s' cs
          | None => None
          end
      end
  | WordBoundary =>
      if xorb (is_word_at prev) (is_word_at (hd_error rest))
      then k prev rest cs else None
  end.

(** The leftmost match at or after the current position: where it starts,
    and the position after it. *)
Fixpoint exec (ci : bool) (r : regex) (prev : option ascii) (rest : chars)
  : option (chars * (option ascii * chars)) :=
  match run ci r prev rest [] (fun p s _ => Some (p, s)) with
  | Some e => Some (rest, e)
  | None =>
      match rest with
      | [] => None
      | c :: tl => exec ci r (Some c) tl
      end
  end.

(** The matches a global pattern finds, one after the other; after an
    empty match the search resumes one character further. *)
Fixpoint count_from (fuel : nat) (ci : bool) (r : regex)
    (prev : option ascii) (rest : chars) : nat :=
  match fuel with
  | O => 0
  | S fuel' =>
      match exec ci r prev rest with
      | None => 0
      | Some (start, (p', s')) =>
          if (List.length s' <? List.length start)%nat
          then S (count_from fuel' ci r p' s')
          else match start with
               | [] => 1
               | c :: tl => S (count_from fuel' ci r (Some c) tl)
               end
      end
  end.

(** [(text.match(pattern) || []).length] *)
Definition match_count (re : RegExp) (text : string) : nat :=
  let cs := list_ascii_of_string text in
  count_from (S (List.length cs)) (ignoreCase re) (source re) None cs.

End RegExp.

(** ** Communication score: [evaluateCommunication] *)

Module Communication.

Import RegExp.

Record Indicator : Type := mkIndicator { pattern : RegExp; weight : Z }.

(** [/\b(\w+)\s+\1\b/gi] *)
Definition repeated_word : RegExp :=
  mkRegExp
    (Seq WordBoundary
       (Seq (Group 1 (plus (Class is_word)))
          (Seq (plus (Class is_space)) (Seq (Backref 1) WordBoundary))))
    true.

(** [/\w+\s+[A-Z]/g] *)
Definition missing_period : RegExp :=
  mkRegExp
    (Seq (plus (Class is_word))
       (Seq (plus (Class is_space)) (Class Str.is_upper)))
    false.

(** [/\b(\w+\s+){40,}\w+[.!?]/g] *)
Definition run_on_sentence : RegExp :=
  mkRegExp
    (Seq WordBoundary
       (Seq (AtLeast 40
               (Group 1 (Seq (plus (Class is_word)) (plus (Class is_space)))))
          (Seq (plus (Class is_word)) (Class is_terminator))))
    false.

(** [/\b(w1|...|wn)\b/gi] *)
Definition word_list (ws : list string) : RegExp :=
  mkRegExp (Seq WordBoundary (Seq (Group 1 (words true ws)) WordBoundary))
    true.

Definition filler_words : RegExp :=
  word_list
    ["um"; "uh"; "like"; "you know"; "basically"; "actually"; "literally"]%string.

(** [/\b(s1|...)\s+(v1|...)\b/gi] *)
Definition agreement (subjects verbs : list string) : RegExp :=
  mkRegExp
    (Seq WordBoundary
       (Seq (Group 1 (words true subjects))
          (Seq (plus (Class is_space))
             (Seq (Group 2 (words true verbs)) WordBoundary))))
    true.

Definition singular_plural : RegExp :=
  agreement ["he"; "she"; "it"]%string ["are"; "were"; "have been"]%string.

Definition plural_singular : RegExp :=
  agreement ["they"; "we"; "you"]%string ["is"; "was"; "has been"]%string.

Definition transition_words : RegExp :=
  word_list
    ["first"; "second"; "third"; "finally"; "in conclusion"; "therefore";
     "consequently"; "however"; "moreover"; "furthermore"]%string.

(** [/[A-Z][^.!?]*[.!?]/g] *)
Definition complete_sentence : RegExp :=
  mkRegExp
    (Seq (Class Str.is_upper)
       (Seq (star (Class (fun c => negb (is_terminator c))))
          (Class is_terminator)))
    false.

Definition technical_terms : RegExp :=
  word_list
    ["algorithm"; "function"; "component"; "state"; "props"; "hook"; "api";
     "interface"; "dependency"; "framework"; "library"]%string.

Definition grammarIssues : list Indicator :=
  [ mkIndicator repeated_word 5;
    mkIndicator missing_period 3;
    mkIndicator run_on_sentence 10;
    mkIndicator filler_words 2;
    mkIndicator singular_plural 5;
    mkIndicator plural_singular 5 ].

Definition positiveIndicators : list Indicator :=
  [ mkIndicator transition_words 5;
    mkIndicator complete_sentence 3;
    mkIndicator technical_terms 2 ].

(** The [forEach] loops: [acc += matches.length * weight]. *)
Definition tally (text : string) (inds : list Indicator) : Z :=
  fold_left
    (fun acc ind =>
       acc + Z.of_nat (match_count (pattern ind) text) * weight ind)
    inds 0.

Definition evaluateCommunication (text : string) : Z :=
  if negb (Str.truthy text) then 0
  else
    let penalties := tally text grammarIssues in
    let bonuses := tally text positiveIndicators in
    let score := 70 - penalties + bonuses in
    let score :=
      if Z.of_nat (String.length text) <? 50 then Math_min score 40
      else score in
    Math_max 0 (Math_min 100 score).

End Communication.

(** ** Component state

    One field per [useState] cell of [InterviewInProgress], under the
    cell's name.  The cells that only feed the page ([interviewSettings],
    [cameraError], [openCVAnalyzer]) are left out. *)

Inductive Expression : Type :=
| neutral | happy | sad | angry | fearful | disgusted | surprised | unknown.

Definition Expression_eqb (a b : Expression) : bool :=
  match a, b with
  | neutral, neutral | happy, happy | sad, sad | angry, angry
  | fearful, fearful | disgusted, disgusted | surprised, surprised
  | unknown, unknown => true
  | _, _ => false
  end.

Record Question : Type := mkQuestion {
  id : Z;
  question : string;
  expectedTopics : list string;
  keyPhrases : list string
}.

Record State : Type := mkState {
  currentQuestion : nat;
  remainingTime : Z;
  isRecording : bool;
  userAnswer : string;
  isThinking : bool;
  answers : list (option string);
  loading : bool;
  questionsLoading : bool;
  error : string;
  facialExpression : Expression;
  confidenceScore : Z;
  faceDetectionSuccess : Z;
  relevanceScore : Z;
  communicationScore : Z;
  confidenceHistory : list Z;
  relevanceHistory : list Z;
  communicationHistory : list Z;
  modelsLoaded : bool;
  cameraActive : bool;
  cameraInitialized : bool;
  speechToText : string;
  isListening : bool;
  isShuttingDown : bool;
  expressionCounts : Expression -> Z;
  questions : list Question
}.

(** The setters returned by [useState]. *)

Definition setCurrentQuestion (v : nat) (s : State) : State :=
  {| currentQuestion := v; remainingTime := remainingTime s; isRecording
     := isRecording s; userAnswer := userAnswer s; isThinking :=
     isThinking s; answers := answers s; loading := loading s;
     questionsLoading := questionsLoading s; error := error s;
     facialExpression := facialExpression s; confidenceScore :=
     confidenceScore s; faceDetectionSuccess := faceDetectionSuccess s;
     relevanceScore := relevanceScore s; communicationScore :=
     communicationScore s; confidenceHistory := confidenceHistory s;
     relevanceHistory := relevanceHistory s; communicationHistory :=
     communicationHistory s; modelsLoaded := modelsLoaded s; cameraActive
     := cameraActive s; cameraInitialized := cameraInitialized s;
     speechToText := speechToText s; isListening := isListening s;
     isShuttingDown := isShuttingDown s; expressionCounts :=
     expressionCounts s; questions := questions s |}.

Definition setRemainingTime (v : Z) (s : State) : State :=
  {| currentQuestion := currentQuestion s; remainingTime := v; isRecording
     := isRecording s; userAnswer := userAnswer s; isThinking :=
     isThinking s; answers := answers s; loading := loading s;
     questionsLoading := questionsLoading s; error := error s;
     facialExpression := facialExpression s; confidenceScore :=
     confidenceScore s; faceDetectionSuccess := faceDetectionSuccess s;
     relevanceScore := relevanceScore s; communicationScore :=
     communicationScore s; confidenceHistory := confidenceHistory s;
     relevanceHistory := relevanceHistory s; communicationHistory :=
     communicationHistory s; modelsLoaded := modelsLoaded s; cameraActive
     := cameraActive s; cameraInitialized := cameraInitialized s;
     speechToText := speechToText s; isListening := isListening s;
     isShuttingDown := isShuttingDown s; expressionCounts :=
     expressionCounts s; questions := questions s |}.

Definition setIsRecording (v : bool) (s : State) : State :=
  {| currentQuestion := currentQuestion s; remainingTime := remainingTime
     s; isRecording := v; userAnswer := userAnswer s; isThinking :=
     isThinking s; answers := answers s; loading := loading s;
     questionsLoading := questionsLoading s; error := error s;
     facialExpression := facialExpression s; confidenceScore :=
     confidenceScore s; faceDetectionSuccess := faceDetectionSuccess s;
     relevanceScore := relevanceScore s; communicationScore :=
     communicationScore s; confidenceHistory := confidenceHistory s;
     relevanceHistory := relevanceHistory s; communicationHistory :=
     communicationHistory s; modelsLoaded := modelsLoaded s; cameraActive
     := cameraActive s; cameraInitialized := cameraInitialized s;
     speechToText := speechToText s; isListening := isListening s;
     isShuttingDown := isShuttingDown s; expressionCounts :=
     expressionCounts s; questions := questions s |}.

Definition setUserAnswer (v : string) (s : State) : State :=
  {| currentQuestion := currentQuestion s; remainingTime := remainingTime
     s; isRecording := isRecording s; userAnswer := v; isThinking :=
     isThinking s; answers := answers s; loading := loading s;
     questionsLoading := questionsLoading s; error := error s;
     facialExpression := facialExpression s; confidenceScore :=
     confidenceScore s; faceDetectionSuccess := faceDetectionSuccess s;
     relevanceScore := relevanceScore s; communicationScore :=
     communicationScore s; confidenceHistory := confidenceHistory s;
     relevanceHistory := relevanceHistory s; communicationHistory :=
     communicationHistory s; modelsLoaded := modelsLoaded s; cameraActive
     := cameraActive s; cameraInitialized := cameraInitialized s;
     speechToText := speechToText s; isListening := isListening s;
     isShuttingDown := isShuttingDown s; expressionCounts :=
     expressionCounts s; questions := questions s |}.

Definition setIsThinking (v : bool) (s : State) : State :=
  {| currentQuestion := currentQuestion s; remainingTime := remainingTime
     s; isRecording := isRecording s; userAnswer := userAnswer s;
     isThinking := v; answers := answers s; loading := loading s;
     questionsLoading := questionsLoading s; error := error s;
     facialExpression := facialExpression s; confidenceScore :=
     confidenceScore s; faceDetectionSuccess := faceDetectionSuccess s;
     relevanceScore := relevanceScore s; communicationScore :=
     communicationScore s; confidenceHistory := confidenceHistory s;
     relevanceHistory := relevanceHistory s; communicationHistory :=
     communicationHistory s; modelsLoaded := modelsLoaded s; cameraActive
     := cameraActive s; cameraInitialized := cameraInitialized s;
     speechToText := speechToText s; isListening := isListening s;
     isShuttingDown := isShuttingDown s; expressionCounts :=
     expressionCounts s; questions := questions s |}.

Definition setAnswers (v : list (option string)) (s : State) : State :=
  {| currentQuestion := currentQuestion s; remainingTime := remainingTime
     s; isRecording := isRecording s; userAnswer := userAnswer s;
     isThinking := isThinking s; answers := v; loading := loading s;
     questionsLoading := questionsLoading s; error := error s;
     facialExpression := facialExpression s; confidenceScore :=
     confidenceScore s; faceDetectionSuccess := faceDetectionSuccess s;
     relevanceScore := relevanceScore s; communicationScore :=
     communicationScore s; confidenceHistory := confidenceHistory s;
     relevanceHistory := relevanceHistory s; communicationHistory :=
     communicationHistory s; modelsLoaded := modelsLoaded s; cameraActive
     := cameraActive s; cameraInitialized := cameraInitialized s;
     speechToText := speechToText s; isListening := isListening s;
     isShuttingDown := isShuttingDown s; expressionCounts :=
     expressionCounts s; questions := questions s |}.

Definition setLoading (v : bool) (s : State) : State :=
  {| currentQuestion := currentQuestion s; remainingTime := remainingTime
     s; isRecording := isRecording s; userAnswer := userAnswer s;
     isThinking := isThinking s; answers := answers s; loading := v;
     questionsLoading := questionsLoading s; error := error s;
     facialExpression := facialExpression s; confidenceScore :=
     confidenceScore s; faceDetectionSuccess := faceDetectionSuccess s;
     relevanceScore := relevanceScore s; communicationScore :=
     communicationScore s; confidenceHistory := confidenceHistory s;
     relevanceHistory := relevanceHistory s; communicationHistory :=
     communicationHistory s; modelsLoaded := modelsLoaded s; cameraActive
     := cameraActive s; cameraInitialized := cameraInitialized s;
     speechToText := speechToText s; isListening := isListening s;
     isShuttingDown := isShuttingDown s; expressionCounts :=
     expressionCounts s; questions := questions s |}.

Definition setQuestionsLoading (v : bool) (s : State) : State :=
  {| currentQuestion := currentQuestion s; remainingTime := remainingTime
     s; isRecording := isRecording s; userAnswer := userAnswer s;
     isThinking := isThinking s; answers := answers s; loading := loading
     s; questionsLoading := v; error := error s; facialExpression :=
     facialExpression s; confidenceScore := confidenceScore s;
     faceDetectionSuccess := faceDetectionSuccess s; relevanceScore :=
     relevanceScore s; communicationScore := communicationScore s;
     confidenceHistory := confidenceHistory s; relevanceHistory :=
     relevanceHistory s; communicationHistory := communicationHistory s;
     modelsLoaded := modelsLoaded s; cameraActive := cameraActive s;
     cameraInitialized := cameraInitialized s; speechToText :=
     speechToText s; isListening := isListening s; isShuttingDown :=
     isShuttingDown s; expressionCounts := expressionCounts s; questions
     := questions s |}.

Definition setError (v : string) (s : State) : State :=
  {| currentQuestion := currentQuestion s; remainingTime := remainingTime
     s; isRecording := isRecording s; userAnswer := userAnswer s;
     isThinking := isThinking s; answers := answers s; loading := loading
     s; questionsLoading := questionsLoading s; error := v;
     facialExpression := facialExpression s; confidenceScore :=
     confidenceScore s; faceDetectionSuccess := faceDetectionSuccess s;
     relevanceScore := relevanceScore s; communicationScore :=
     communicationScore s; confidenceHistory := confidenceHistory s;
     relevanceHistory := relevanceHistory s; communicationHistory :=
     communicationHistory s; modelsLoaded := modelsLoaded s; cameraActive
     := cameraActive s; cameraInitialized := cameraInitialized s;
     speechToText := speechToText s; isListening := isListening s;
     isShuttingDown := isShuttingDown s; expressionCounts :=
     expressionCounts s; questions := questions s |}.

Definition setFacialExpression (v : Expression) (s : State) : State :=
  {| currentQuestion := currentQuestion s; remainingTime := remainingTime
     s; isRecording := isRecording s; userAnswer := userAnswer s;
     isThinking := isThinking s; answers := answers s; loading := loading
     s; questionsLoading := questionsLoading s; error := error s;
     facialExpression := v; confidenceScore := confidenceScore s;
     faceDetectionSuccess := faceDetectionSuccess s; relevanceScore :=
     relevanceScore s; communicationScore := communicationScore s;
     confidenceHistory := confidenceHistory s; relevanceHistory :=
     relevanceHistory s; communicationHistory := communicationHistory s;
     modelsLoaded := modelsLoaded s; cameraActive := cameraActive s;
     cameraInitialized := cameraInitialized s; speechToText :=
     speechToText s; isListening := isListening s; isShuttingDown :=
     isShuttingDown s; expressionCounts := expressionCounts s; questions
     := questions s |}.

Definition setConfidenceScore (v : Z) (s : State) : State :=
  {| currentQuestion := currentQuestion s; remainingTime := remainingTime
     s; isRecording := isRecording s; userAnswer := userAnswer s;
     isThinking := isThinking s; answers := answers s; loading := loading
     s; questionsLoading := questionsLoading s; error := error s;
     facialExpression := facialExpression s; confidenceScore := v;
     faceDetectionSuccess := faceDetectionSuccess s; relevanceScore :=
     relevanceScore s; communicationScore := communicationScore s;
     confidenceHistory := confidenceHistory s; relevanceHistory :=
     relevanceHistory s; communicationHistory := communicationHistory s;
     modelsLoaded := modelsLoaded s; cameraActive := cameraActive s;
     cameraInitialized := cameraInitialized s; speechToText :=
     speechToText s; isListening := isListening s; isShuttingDown :=
     isShuttingDown s; expressionCounts := expressionCounts s; questions
     := questions s |}.

Definition setFaceDetectionSuccess (v : Z) (s : State) : State :=
  {| currentQuestion := currentQuestion s; remainingTime := remainingTime
     s; isRecording := isRecording s; userAnswer := userAnswer s;
     isThinking := isThinking s; answers := answers s; loading := loading
     s; questionsLoading := questionsLoading s; error := error s;
     facialExpression := facialExpression s; confidenceScore :=
     confidenceScore s; faceDetectionSuccess := v; relevanceScore :=
     relevanceScore s; communicationScore := communicationScore s;
     confidenceHistory := confidenceHistory s; relevanceHistory :=
     relevanceHistory s; communicationHistory := communicationHistory s;
     modelsLoaded := modelsLoaded s; cameraActive := cameraActive s;
     cameraInitialized := cameraInitialized s; speechToText :=
     speechToText s; isListening := isListening s; isShuttingDown :=
     isShuttingDown s; expressionCounts := expressionCounts s; questions
     := questions s |}.

Definition setRelevanceScore (v : Z) (s : State) : State :=
  {| currentQuestion := currentQuestion s; remainingTime := remainingTime
     s; isRecording := isRecording s; userAnswer := userAnswer s;
     isThinking := isThinking s; answers := answers s; loading := loading
     s; questionsLoading := questionsLoading s; error := error s;
     facialExpression := facialExpression s; confidenceScore :=
     confidenceScore s; faceDetectionSuccess := faceDetectionSuccess s;
     relevanceScore := v; communicationScore := communicationScore s;
     confidenceHistory := confidenceHistory s; relevanceHistory :=
     relevanceHistory s; communicationHistory := communicationHistory s;
     modelsLoaded := modelsLoaded s; cameraActive := cameraActive s;
     cameraInitialized := cameraInitialized s; speechToText :=
     speechToText s; isListening := isListening s; isShuttingDown :=
     isShuttingDown s; expressionCounts := expressionCounts s; questions
     := questions s |}.

Definition setCommunicationScore (v : Z) (s : State) : State :=
  {| currentQuestion := currentQuestion s; remainingTime := remainingTime
     s; isRecording := isRecording s; userAnswer := userAnswer s;
     isThinking := isThinking s; answers := answers s; loading := loading
     s; questionsLoading := questionsLoading s; error := error s;
     facialExpression := facialExpression s; confidenceScore :=
     confidenceScore s; faceDetectionSuccess := faceDetectionSuccess s;
     relevanceScore := relevanceScore s; communicationScore := v;
     confidenceHistory := confidenceHistory s; relevanceHistory :=
     relevanceHistory s; communicationHistory := communicationHistory s;
     modelsLoaded := modelsLoaded s; cameraActive := cameraActive s;
     cameraInitialized := cameraInitialized s; speechToText :=
     speechToText s; isListening := isListening s; isShuttingDown :=
     isShuttingDown s; expressionCounts := expressionCounts s; questions
     := questions s |}.

Definition setConfidenceHistory (v : list Z) (s : State) : State :=
  {| currentQuestion := currentQuestion s; remainingTime := remainingTime
     s; isRecording := isRecording s; userAnswer := userAnswer s;
     isThinking := isThinking s; answers := answers s; loading := loading
     s; questionsLoading := questionsLoading s; error := error s;
     facialExpression := facialExpression s; confidenceScore :=
     confidenceScore s; faceDetectionSuccess := faceDetectionSuccess s;
     relevanceScore := relevanceScore s; communicationScore :=
     communicationScore s; confidenceHistory := v; relevanceHistory :=
     relevanceHistory s; communicationHistory := communicationHistory s;
     modelsLoaded := modelsLoaded s; cameraActive := cameraActive s;
     cameraInitialized := cameraInitialized s; speechToText :=
     speechToText s; isListening := isListening s; isShuttingDown :=
     isShuttingDown s; expressionCounts := expressionCounts s; questions
     := questions s |}.

Definition setRelevanceHistory (v : list Z) (s : State) : State :=
  {| currentQuestion := currentQuestion s; remainingTime := remainingTime
     s; isRecording := isRecording s; userAnswer := userAnswer s;
     isThinking := isThinking s; answers := answers s; loading := loading
     s; questionsLoading := questionsLoading s; error := error s;
     facialExpression := facialExpression s; confidenceScore :=
     confidenceScore s; faceDetectionSuccess := faceDetectionSuccess s;
     relevanceScore := relevanceScore s; communicationScore :=
     communicationScore s; confidenceHistory := confidenceHistory s;
     relevanceHistory := v; communicationHistory := communicationHistory
     s; modelsLoaded := modelsLoaded s; cameraActive := cameraActive s;
     cameraInitialized := cameraInitialized s; speechToText :=
     speechToText s; isListening := isListening s; isShuttingDown :=
     isShuttingDown s; expressionCounts := expressionCounts s; questions
     := questions s |}.

Definition setCommunicationHistory (v : list Z) (s : State) : State :=
  {| currentQuestion := currentQuestion s; remainingTime := remainingTime
     s; isRecording := isRecording s; userAnswer := userAnswer s;
     isThinking := isThinking s; answers := answers s; loading := loading
     s; questionsLoading := questionsLoading s; error := error s;
     facialExpression := facialExpression s; confidenceScore :=
     confidenceScore s; faceDetectionSuccess := faceDetectionSuccess s;
     relevanceScore := relevanceScore s; communicationScore :=
     communicationScore s; confidenceHistory := confidenceHistory s;
     relevanceHistory := relevanceHistory s; communicationHistory := v;
     modelsLoaded := modelsLoaded s; cameraActive := cameraActive s;
     cameraInitialized := cameraInitialized s; speechToText :=
     speechToText s; isListening := isListening s; isShuttingDown :=
     isShuttingDown s; expressionCounts := expressionCounts s; questions
     := questions s |}.

Definition setModelsLoaded (v : bool) (s : State) : State :=
  {| currentQuestion := currentQuestion s; remainingTime := remainingTime
     s; isRecording := isRecording s; userAnswer := userAnswer s;
     isThinking := isThinking s; answers := answers s; loading := loading
     s; questionsLoading := questionsLoading s; error := error s;
     facialExpression := facialExpression s; confidenceScore :=
     confidenceScore s; faceDetectionSuccess := faceDetectionSuccess s;
     relevanceScore := relevanceScore s; communicationScore :=
     communicationScore s; confidenceHistory := confidenceHistory s;
     relevanceHistory := relevanceHistory s; communicationHistory :=
     communicationHistory s; modelsLoaded := v; cameraActive :=
     cameraActive s; cameraInitialized := cameraInitialized s;
     speechToText := speechToText s; isListening := isListening s;
     isShuttingDown := isShuttingDown s; expressionCounts :=
     expressionCounts s; questions := questions s |}.

Definition setCameraActive (v : bool) (s : State) : State :=
  {| currentQuestion := currentQuestion s; remainingTime := remainingTime
     s; isRecording := isRecording s; userAnswer := userAnswer s;
     isThinking := isThinking s; answers := answers s; loading := loading
     s; questionsLoading := questionsLoading s; error := error s;
     facialExpression := facialExpression s; confidenceScore :=
     confidenceScore s; faceDetectionSuccess := faceDetectionSuccess s;
     relevanceScore := relevanceScore s; communicationScore :=
     communicationScore s; confidenceHistory := confidenceHistory s;
     relevanceHistory := relevanceHistory s; communicationHistory :=
     communicationHistory s; modelsLoaded := modelsLoaded s; cameraActive
     := v; cameraInitialized := cameraInitialized s; speechToText :=
     speechToText s; isListening := isListening s; isShuttingDown :=
     isShuttingDown s; expressionCounts := expressionCounts s; questions
     := questions s |}.

Definition setCameraInitialized (v : bool) (s : State) : State :=
  {| currentQuestion := currentQuestion s; remainingTime := remainingTime
     s; isRecording := isRecording s; userAnswer := userAnswer s;
     isThinking := isThinking s; answers := answers s; loading := loading
     s; questionsLoading := questionsLoading s; error := error s;
     facialExpression := facialExpression s; confidenceScore :=
     confidenceScore s; faceDetectionSuccess := faceDetectionSuccess s;
     relevanceScore := relevanceScore s; communicationScore :=
     communicationScore s; confidenceHistory := confidenceHistory s;
     relevanceHistory := relevanceHistory s; communicationHistory :=
     communicationHistory s; modelsLoaded := modelsLoaded s; cameraActive
     := cameraActive s; cameraInitialized := v; speechToText :=
     speechToText s; isListening := isListening s; isShuttingDown :=
     isShuttingDown s; expressionCounts := expressionCounts s; questions
     := questions s |}.

Definition setSpeechToText (v : string) (s : State) : State :=
  {| currentQuestion := currentQuestion s; remainingTime := remainingTime
     s; isRecording := isRecording s; userAnswer := userAnswer s;
     isThinking := isThinking s; answers := answers s; loading := loading
     s; questionsLoading := questionsLoading s; error := error s;
     facialExpression := facialExpression s; confidenceScore :=
     confidenceScore s; faceDetectionSuccess := faceDetectionSuccess s;
     relevanceScore := relevanceScore s; communicationScore :=
     communicationScore s; confidenceHistory := confidenceHistory s;
     relevanceHistory := relevanceHistory s; communicationHistory :=
     communicationHistory s; modelsLoaded := modelsLoaded s; cameraActive
     := cameraActive s; cameraInitialized := cameraInitialized s;
     speechToText := v; isListening := isListening s; isShuttingDown :=
     isShuttingDown s; expressionCounts := expressionCounts s; questions
     := questions s |}.

Definition setIsListening (v : bool) (s : State) : State :=
  {| currentQuestion := currentQuestion s; remainingTime := remainingTime
     s; isRecording := isRecording s; userAnswer := userAnswer s;
     isThinking := isThinking s; answers := answers s; loading := loading
     s; questionsLoading := questionsLoading s; error := error s;
     facialExpression := facialExpression s; confidenceScore :=
     confidenceScore s; faceDetectionSuccess := faceDetectionSuccess s;
     relevanceScore := relevanceScore s; communicationScore :=
     communicationScore s; confidenceHistory := confidenceHistory s;
     relevanceHistory := relevanceHistory s; communicationHistory :=
     communicationHistory s; modelsLoaded := modelsLoaded s; cameraActive
     := cameraActive s; cameraInitialized := cameraInitialized s;
     speechToText := speechToText s; isListening := v; isShuttingDown :=
     isShuttingDown s; expressionCounts := expressionCounts s; questions
     := questions s |}.

Definition setIsShuttingDown (v : bool) (s : State) : State :=
  {| currentQuestion := currentQuestion s; remainingTime := remainingTime
     s; isRecording := isRecording s; userAnswer := userAnswer s;
     isThinking := isThinking s; answers := answers s; loading := loading
     s; questionsLoading := questionsLoading s; error := error s;
     facialExpression := facialExpression s; confidenceScore :=
     confidenceScore s; faceDetectionSuccess := faceDetectionSuccess s;
     relevanceScore := relevanceScore s; communicationScore :=
     communicationScore s; confidenceHistory := confidenceHistory s;
     relevanceHistory := relevanceHistory s; communicationHistory :=
     communicationHistory s; modelsLoaded := modelsLoaded s; cameraActive
     := cameraActive s; cameraInitialized := cameraInitialized s;
     speechToText := speechToText s; isListening := isListening s;
     isShuttingDown := v; expressionCounts := expressionCounts s;
     questions := questions s |}.

Definition setExpressionCounts (v : Expression -> Z) (s : State) : State :=
  {| currentQuestion := currentQuestion s; remainingTime := remainingTime
     s; isRecording := isRecording s; userAnswer := userAnswer s;
     isThinking := isThinking s; answers := answers s; loading := loading
     s; questionsLoading := questionsLoading s; error := error s;
     facialExpression := facialExpression s; confidenceScore :=
     confidenceScore s; faceDetectionSuccess := faceDetectionSuccess s;
     relevanceScore := relevanceScore s; communicationScore :=
     communicationScore s; confidenceHistory := confidenceHistory s;
     relevanceHistory := relevanceHistory s; communicationHistory :=
     communicationHistory s; modelsLoaded := modelsLoaded s; cameraActive
     := cameraActive s; cameraInitialized := cameraInitialized s;
     speechToText := speechToText s; isListening := isListening s;
     isShuttingDown := isShuttingDown s; expressionCounts := v; questions
     := questions s |}.

Definition setQuestions (v : list Question) (s : State) : State :=
  {| currentQuestion := currentQuestion s; remainingTime := remainingTime
     s; isRecording := isRecording s; userAnswer := userAnswer s;
     isThinking := isThinking s; answers := answers s; loading := loading
     s; questionsLoading := questionsLoading s; error := error s;
     facialExpression := facialExpression s; confidenceScore :=
     confidenceScore s; faceDetectionSuccess := faceDetectionSuccess s;
     relevanceScore := relevanceScore s; communicationScore :=
     communicationScore s; confidenceHistory := confidenceHistory s;
     relevanceHistory := relevanceHistory s; communicationHistory :=
     communicationHistory s; modelsLoaded := modelsLoaded s; cameraActive
     := cameraActive s; cameraInitialized := cameraInitialized s;
     speechToText := speechToText s; isListening := isListening s;
     isShuttingDown := isShuttingDown s; expressionCounts :=
     expressionCounts s; questions := v |}.

(** ** Textual scoring: the effect on [userAnswer], [currentQuestion],
       [questions] *)

Module Scoring.

Import Communication.

(** The [forEach] over [keyPhrases]: one count per phrase that
    [lowerCaseAnswer] includes. *)
Definition matchedPhrases (userAnswer : string) (keyPhrases : list string)
  : Z :=
  let lowerCaseAnswer := Str.toLowerCase userAnswer in
  fold_left
    (fun matched phrase =>
       if Str.includes lowerCaseAnswer (Str.toLowerCase phrase)
       then matched + 1 else matched)
    keyPhrases 0.

(** [Math.min(Math.round((matchedPhrases / maxPossibleMatches) * 100), 100)];
    [None] is the [NaN] of a question without key phrases. *)
Definition newRelevanceScore (userAnswer : string) (keyPhrases : list string)
  : option Z :=
  let maxPossibleMatches := Math_min 5 (Z.of_nat (List.length keyPhrases)) in
  match JS.div (matchedPhrases userAnswer keyPhrases) maxPossibleMatches with
  | None => None
  | Some ratio => Some (Math_min (Math_round (ratio * 100)%Q) 100)
  end.

(** The effect, run with the state of the render that scheduled it. *)
Definition scoringEffect (st : State) : option State :=
  if negb (Str.truthy (userAnswer st))
     || (List.length (questions st) =? 0)%nat
  then Some (setCommunicationScore 0 (setRelevanceScore 0 st))
  else
    match nth_error (questions st) (currentQuestion st) with
    | None => Some st
    | Some currentQuestionData =>
        let st1 :=
          setCommunicationScore (evaluateCommunication (userAnswer st)) st in
        match newRelevanceScore (userAnswer st)
                (keyPhrases currentQuestionData) with
        | None => None
        | Some score => Some (setRelevanceScore score st1)
        end
    end.

End Scoring.

(** ** Perception: [detectFace] *)

Module Perception.

(** [firstFace.expressions], read through [getExpressionValue]. *)
Definition Face : Type := Expression -> Q.

(** What [Promise.race] settles with: the faces found, or a rejection
    (the one-second timeout or an exception of the detector). *)
Inductive Detection : Type :=
| Faces (faces : list Face)
| Rejected.

(** [webcamRef.current.video], when there is one. *)
Record Video : Type := mkVideo { videoWidth : Z; videoHeight : Z }.

Definition expressions : list Expression :=
  [neutral; happy; sad; angry; fearful; disgusted; surprised].

(** The loop that finds the dominant expression. *)
Definition dominant (firstFace : Face) : Expression * Q :=
  fold_left
    (fun '(maxExpression, maxValue) expr =>
       let value := firstFace expr in
       if negb (Qle_bool value maxValue) then (expr, value)
       else (maxExpression, maxValue))
    expressions (neutral, 0%Q).

(** The [switch] on [maxExpression]. *)
Definition expressionScore (maxExpression : Expression)
    (dominantStrength : Q) : Z :=
  match maxExpression with
  | happy => 50 + Math_round (JS.mul dominantStrength 50)
  | neutral => 40 + Math_round (JS.mul dominantStrength 20)
  | surprised => 30 + Math_round (JS.mul dominantStrength 20)
  | sad => 15 + Math_round (JS.mul dominantStrength 25)
  | fearful => 10 + Math_round (JS.mul dominantStrength 25)
  | angry => 10 + Math_round (JS.mul dominantStrength 20)
  | disgusted => 10 + Math_round (JS.mul dominantStrength 20)
  | unknown => 50
  end.

(** Smoothing against the score the closure holds. *)
Definition newScore (expressionScore confidenceScore : Z) : Z :=
  if 0 <? confidenceScore
  then Math_round
         (JS.add (JS.mul (to_double 0.7) (inject_Z expressionScore))
            (JS.mul (to_double 0.3) (inject_Z confidenceScore)))
  else expressionScore.

Definition boundedScore (newScore : Z) : Z :=
  Math_max 10 (Math_min 100 newScore).

(** The guard at the head of [detectFace]. *)
Definition skips (snap : State) (video : option Video) : bool :=
  isShuttingDown snap
  || match video with None => true | Some _ => false end
  || negb (modelsLoaded snap)
  || negb (cameraActive snap).

Definition no_dimensions (v : Video) : bool :=
  (videoWidth v =? 0) || (videoHeight v =? 0).

(** [faces && faces.length > 0], the branch with a face. *)
Definition face_present (snap : State) (firstFace : Face) (st : State)
  : State :=
  let st := setFaceDetectionSuccess
              (Math_min (faceDetectionSuccess st + 1) 10) st in
  let '(maxExpression, maxValue) := dominant firstFace in
  let st :=
    if negb (Qle_bool maxValue 0.3)
       || Expression_eqb (facialExpression snap) unknown
       || Expression_eqb (facialExpression snap) neutral
    then
      let st := setFacialExpression maxExpression st in
      setExpressionCounts
        (fun e =>
           if Expression_eqb e maxExpression
           then expressionCounts st e + 1 else expressionCounts st e)
        st
    else st in
  setConfidenceScore
    (boundedScore
       (newScore (expressionScore maxExpression maxValue)
          (confidenceScore snap)))
    st.

(** The branch without a face. *)
Definition no_face (snap : State) (st : State) : State :=
  let st := if confidenceScore snap =? 0 then st
            else setConfidenceScore 0 st in
  let st := setFaceDetectionSuccess
              (Math_max 0 (faceDetectionSuccess st - 1)) st in
  if Expression_eqb (facialExpression snap) unknown then st
  else setFacialExpression unknown st.

(** The [catch] block. *)
Definition detection_failed (snap : State) (st : State) : State :=
  let st := setFaceDetectionSuccess
              (Math_max 0 (faceDetectionSuccess st - 1)) st in
  let st := if confidenceScore snap =? 0 then st
            else setConfidenceScore 0 st in
  if Expression_eqb (facialExpression snap) unknown then st
  else setFacialExpression unknown st.

(** What runs once the detection has settled: the code after the
    [await], with the closure of the call ([snap]) on the state of that
    later moment ([st]). *)
Definition detectFace_settled (snap : State) (d : Detection) (st : State)
  : State :=
  match d with
  | Faces (firstFace :: _) => face_present snap firstFace st
  | Faces [] => no_face snap st
  | Rejected => detection_failed snap st
  end.

(** What runs before the [await]: the state the call leaves, and whether
    a detection is now in flight ([false] when the call returned early).
    The [video.play()] retry on a paused video touches no cell and is
    left out. *)
Definition detectFace_begin (snap : State) (video : option Video)
    (st : State) : State * bool :=
  if skips snap video then (st, false)
  else
    match video with
    | None => (st, false)
    | Some v =>
        if no_dimensions v then
          (if confidenceScore snap =? 0 then st
           else setFacialExpression unknown (setConfidenceScore 0 st),
           false)
        else (st, true)
    end.

(** A whole call of [detectFace] through a closure that holds [snap]; the
    call of the latest render is [detectFace st video d st]. *)
Definition detectFace (snap : State) (video : option Video) (d : Detection)
    (st : State) : State :=
  let '(st1, in_flight) := detectFace_begin snap video st in
  if in_flight then detectFace_settled snap d st1 else st1.

(** The watchdog on a stuck score: every three seconds, after five
    unchanged readings, [randomChange] in [-15, 15] is applied. *)
Definition forceConfidence (randomChange : Z) (st : State) : State :=
  setConfidenceScore
    (Math_max 20 (Math_min 100 (confidenceScore st + randomChange))) st.

End Perception.

(** ** Metric histories and the report *)

Module Aggregator.

(** [saveCurrentMetrics]: three functional updates, each appending the
    live score the closure holds. *)
Definition saveCurrentMetrics (snap : State) (st : State) : State :=
  let st := setConfidenceHistory
              (confidenceHistory st ++ [confidenceScore snap]) st in
  let st := setRelevanceHistory
              (relevanceHistory st ++ [relevanceScore snap]) st in
  setCommunicationHistory
    (communicationHistory st ++ [communicationScore snap]) st.

(** [arr.reduce((total, value) => total + value, 0)] *)
Definition sum (arr : list Z) : Z :=
  fold_left (fun total value => total + value) arr 0.

Definition calculateAverage (arr : list Z) : Z :=
  if (List.length arr =? 0)%nat then 0
  else Math_round (inject_Z (sum arr) / inject_Z (Z.of_nat (List.length arr)))%Q.

Definition overallScore (avgConfidence avgRelevance avgCommunication : Z)
  : Z :=
  Math_round
    (JS.add
       (JS.add (JS.mul (inject_Z avgConfidence) (to_double 0.3))
          (JS.mul (inject_Z avgRelevance) (to_double 0.4)))
       (JS.mul (inject_Z avgCommunication) (to_double 0.3))).

Inductive Metric : Type := Confidence | Communication | Relevance.

(** The nested conditionals of the two feedback entries. *)
Definition strength (avgConfidence avgCommunication avgRelevance : Z)
  : Metric :=
  if (avgConfidence >? avgCommunication) && (avgConfidence >? avgRelevance)
  then Confidence
  else if avgCommunication >? avgRelevance then Communication
  else Relevance.

Definition improvement (avgConfidence avgCommunication avgRelevance : Z)
  : Metric :=
  if (avgConfidence <? avgCommunication) && (avgConfidence <? avgRelevance)
  then Confidence
  else if avgCommunication <? avgRelevance then Communication
  else Relevance.

Definition strengthContent (m : Metric) : string :=
  ("You demonstrated good " ++
   match m with
   | Confidence => "confidence"
   | Communication => "communication skills"
   | Relevance => "relevance in your answers"
   end ++ ".")%string.

Definition improvementContent (m : Metric) : string :=
  ("Consider working on your " ++
   match m with
   | Confidence => "confidence during interviews"
   | Communication => "communication skills"
   | Relevance => "answer relevance by including more key technical terms"
   end ++ ".")%string.

(** The body of the POST; the settings and the two dates are left out. *)
Record InterviewData : Type := mkInterviewData {
  score : Z;
  performance_confidence : Z;
  performance_communicationSkills : Z;
  performance_relevance : Z;
  feedback_strength : string;
  feedback_improvement : string;
  data_questions : list string;
  responses : list (option string);
  metrics_facialExpressions : Expression -> Z;
  metrics_confidenceHistory : list Z;
  metrics_relevanceHistory : list Z;
  metrics_communicationHistory : list Z
}.

(** [answers] padded with [""] up to one response per question;
    [Array(n)] with a negative [n] throws a [RangeError]. *)
Definition paddedResponses (answers : list (option string))
    (questions : list Question) : option (list (option string)) :=
  let n := List.length answers in
  let m := List.length questions in
  if (n =? m)%nat then Some answers
  else if (n <? m)%nat then Some (answers ++ repeat (Some ""%string) (m - n))
  else None.

(** The report [endInterview] builds, all of it from its closure. *)
Definition interviewData (snap : State) : option InterviewData :=
  let avgConfidence := calculateAverage (confidenceHistory snap) in
  let avgRelevance := calculateAverage (relevanceHistory snap) in
  let avgCommunication := calculateAverage (communicationHistory snap) in
  match paddedResponses (answers snap) (questions snap) with
  | None => None
  | Some rs =>
      Some
        {| score := overallScore avgConfidence avgRelevance avgCommunication;
           performance_confidence := avgConfidence;
           performance_communicationSkills := avgCommunication;
           performance_relevance := avgRelevance;
           feedback_strength :=
             strengthContent
               (strength avgConfidence avgCommunication avgRelevance);
           feedback_improvement :=
             improvementContent
               (improvement avgConfidence avgCommunication avgRelevance);
           data_questions := map question (questions snap);
           responses := rs;
           metrics_facialExpressions := expressionCounts snap;
           metrics_confidenceHistory := confidenceHistory snap;
           metrics_relevanceHistory := relevanceHistory snap;
           metrics_communicationHistory := communicationHistory snap |}
  end.

End Aggregator.

(** ** Session lifecycle: [nextQuestion] and [endInterview] *)

Module Lifecycle.

Import Aggregator.

(** What a POST to [/api/interviews] comes back with; the call aborts the
    request after 15 seconds, so it comes back with something.  [Aborted]
    is a rejection whose [name] is AbortError, the test of line 1625;
    every other rejection is [Failed], with the message of the server when
    there is one, and so is an abort that the HTTP library rejects under
    another name. *)
Inductive Response : Type :=
| Created (_id : string)
| Aborted
| Failed (message : option string).

(** What [endInterview] finds outside the component. *)
Record Env : Type := mkEnv {
  token : option string;      (* [localStorage.getItem("token")] *)
  response : Response
}.

(** The component with the objects its refs point to and the calls it has
    made to the network and to the router. *)
Record World : Type := mkWorld {
  comp : State;
  detectionIntervalRef : bool;   (* an interval is registered *)
  speechRecognitionRef : bool;   (* the browser has speech recognition *)
  posts : list InterviewData;
  routes : list string
}.

Definition on_comp (f : State -> State) (w : World) : World :=
  {| comp := f (comp w);
     detectionIntervalRef := detectionIntervalRef w;
     speechRecognitionRef := speechRecognitionRef w;
     posts := posts w;
     routes := routes w |}.

Definition clearDetectionInterval (w : World) : World :=
  {| comp := comp w;
     detectionIntervalRef := false;
     speechRecognitionRef := speechRecognitionRef w;
     posts := posts w;
     routes := routes w |}.

Definition post (d : InterviewData) (w : World) : World :=
  {| comp := comp w;
     detectionIntervalRef := detectionIntervalRef w;
     speechRecognitionRef := speechRecognitionRef w;
     posts := posts w ++ [d];
     routes := routes w |}.

Definition navigate (to : string) (w : World) : World :=
  {| comp := comp w;
     detectionIntervalRef := detectionIntervalRef w;
     speechRecognitionRef := speechRecognitionRef w;
     posts := posts w;
     routes := routes w ++ [to] |}.

(** [arr[i] = v] on a copy of a JavaScript array: an index past the end
    extends the array, leaving holes. *)
Fixpoint array_set {A : Type} (arr : list (option A)) (i : nat) (v : A)
  : list (option A) :=
  match i, arr with
  | O, [] => [Some v]
  | O, _ :: tl => Some v :: tl
  | S i', [] => None :: array_set [] i' v
  | S i', x :: tl => x :: array_set tl i' v
  end.

Definition saveAnswerForCurrentQuestion (snap : State) (st : State)
  : State :=
  setAnswers
    (array_set (answers snap) (currentQuestion snap) (userAnswer snap)) st.

Definition stopListening (snap : State) (w : World) : World :=
  if speechRecognitionRef w && isListening snap
  then on_comp (setIsListening false) w else w.

Definition startListening (snap : State) (w : World) : World :=
  if speechRecognitionRef w && negb (isListening snap)
  then on_comp (setIsListening true) w else w.

(** [endInterview] up to its first [await]. *)
Definition endInterview_shutdown (w : World) : World :=
  let w := on_comp (setIsShuttingDown true) w in
  let w := on_comp (setCameraActive false) w in
  if detectionIntervalRef w then clearDetectionInterval w else w.

(** After the 300 ms pause: the final answer and the final metrics. *)
Definition endInterview_save (snap : State) (w : World) : World :=
  let w := on_comp (saveAnswerForCurrentQuestion snap) w in
  let w := on_comp (saveCurrentMetrics snap) w in
  if isListening snap then stopListening snap w else w.

Definition truthy_token (t : option string) : bool :=
  match t with Some s => Str.truthy s | None => false end.

Definition failure_message (message : option string) : string :=
  match message with
  | Some m => if Str.truthy m then m else "Failed to save interview data"
  | None => "Failed to save interview data"
  end.

(** After the 100 ms pause: the report, the POST and the navigation; the
    [finally] block ends every path. *)
Definition endInterview_submit (env : Env) (snap : State) (w : World)
  : World :=
  let w :=
    match interviewData snap with
    | None =>
        navigate "/interview/results"
          (on_comp (setError "Invalid array length") w)
    | Some data =>
        let w := on_comp (setLoading true) w in
        let w := on_comp (setError "") w in
        if negb (truthy_token (token env)) then
          navigate "/interview/results"
            (on_comp (setError "Authentication required") w)
        else
          let w := post data w in
          match response env with
          | Created _id => navigate ("/results/" ++ _id) w
          | Aborted =>
              navigate "/interview/results"
                (on_comp
                   (setError
                      "Saving interview timed out. Your interview data might not be saved.")
                   w)
          | Failed message =>
              navigate "/interview/results"
                (on_comp (setError (failure_message message)) w)
          end
    end in
  on_comp (setLoading false) w.

(** A call of [endInterview] that runs to its end with the closure
    [snap]. *)
Definition endInterview (env : Env) (snap : State) (w : World) : World :=
  endInterview_submit env snap
    (endInterview_save snap (endInterview_shutdown w)).

Definition nextQuestion (env : Env) (snap : State) (w : World) : World :=
  let w := on_comp (saveAnswerForCurrentQuestion snap) w in
  let w := on_comp (saveCurrentMetrics snap) w in
  if Z.of_nat (currentQuestion snap)
     <? Z.of_nat (List.length (questions snap)) - 1
  then
    let w := on_comp (fun st => setCurrentQuestion (currentQuestion st + 1) st) w in
    let w := on_comp (setUserAnswer "") w in
    let w := on_comp (setSpeechToText "") w in
    on_comp (setIsThinking false) w
  else endInterview env snap w.

Definition toggleRecording (snap : State) (w : World) : World :=
  let w := if isRecording snap then stopListening snap w
           else startListening snap w in
  on_comp (setIsRecording (negb (isRecording snap))) w.

Definition toggleCamera (snap : State) (st : State) : State :=
  if cameraActive snap
  then setCameraInitialized false (setCameraActive false st)
  else setCameraActive true (setCameraInitialized false st).

Definition handleThinkingTime (snap : State) (w : World) : World :=
  let w := on_comp (setIsThinking true) w in
  if isListening snap then stopListening snap w else w.

(** The [onresult] handler, for a final transcript. *)
Definition onresult (finalTranscript : string) (st : State) : State :=
  if Str.truthy finalTranscript then
    let st := setSpeechToText
                (speechToText st ++ " " ++ finalTranscript)%string st in
    let spacer :=
      if Str.truthy (userAnswer st) && negb (Str.endsWithSpace (userAnswer st))
      then " "%string else ""%string in
    setUserAnswer (userAnswer st ++ spacer ++ finalTranscript)%string st
  else st.

End Lifecycle.

(** ** The session as a transition system

    One event per handler, timer or callback of the component.  A handler
    bound in the JSX runs with the closure of the latest render; the
    detection callback is called through whatever closure the interval
    holds, so its event carries that closure.

    The first effect (lines 99-333) runs again whenever [cameraActive] or
    [cameraInitialized] changes.  What it then does to the state are the
    events [SettingsLoaded], [QuestionsLoaded] and [ModelsLoaded], which
    here may follow any event but are not made to follow a change of the
    camera: the runs of this system include those of the page, and a
    property of all runs is one of the page. *)

Module Session.

Import Aggregator Lifecycle.

Definition initialState : State :=
  {| currentQuestion := 0%nat; remainingTime := 30 * 60;
     isRecording := true; userAnswer := ""; isThinking := false;
     answers := []; loading := false; questionsLoading := true;
     error := ""; facialExpression := neutral; confidenceScore := 0;
     faceDetectionSuccess := 0; relevanceScore := 0;
     communicationScore := 0; confidenceHistory := [];
     relevanceHistory := []; communicationHistory := [];
     modelsLoaded := false; cameraActive := true;
     cameraInitialized := false; speechToText := ""; isListening := false;
     isShuttingDown := false; expressionCounts := fun _ => 0;
     questions := [] |}.

Definition initialWorld (speech : bool) : World :=
  {| comp := initialState; detectionIntervalRef := false;
     speechRecognitionRef := speech; posts := []; routes := [] |}.

Inductive Event : Type :=
| SettingsLoaded (duration : Z) (env : Env)
| QuestionsLoaded (generatedQuestions : list Question)
| ModelsLoaded (ok : bool)
| VideoInitialized
| Tick (env : Env)
| ChangeAnswer (text : string)
| SpeechResult (finalTranscript : string)
| Detect (closure : State) (video : option Perception.Video)
    (d : Perception.Detection)
| ForceConfidence (randomChange : Z)
| ThinkingTime
| ToggleRecording
| ToggleCamera
| NextQuestion (env : Env)
| EndInterview (env : Env).

(** The effect on [remainingTime]. *)
Definition timerEffect (env : Env) (w : World) : World :=
  if remainingTime (comp w) <=? 0 then endInterview env (comp w) w else w.

(** The effect on [userAnswer], [currentQuestion] and [questions]. *)
Definition scoring (w : World) : option World :=
  match Scoring.scoringEffect (comp w) with
  | Some st => Some (on_comp (fun _ => st) w)
  | None => None
  end.

(** The effect that registers the detection intervals and whose cleanup
    clears them; it follows [modelsLoaded] and [cameraActive]. *)
Definition detectionEffect (w : World) : World :=
  {| comp := comp w;
     detectionIntervalRef := modelsLoaded (comp w) && cameraActive (comp w);
     speechRecognitionRef := speechRecognitionRef w;
     posts := posts w;
     routes := routes w |}.

(** [None]: the event cannot happen in [w] (a disabled button, a timer
    that is not running) or it leaves a [NaN] score. *)
Definition handle (e : Event) (w : World) : option World :=
  match e with
  | SettingsLoaded duration env =>
      Some (timerEffect env (on_comp (setRemainingTime (duration * 60)) w))
  | QuestionsLoaded generatedQuestions =>
      scoring
        (on_comp (setQuestionsLoading false)
           (on_comp (setQuestions generatedQuestions) w))
  | ModelsLoaded true =>
      Some (on_comp (setModelsLoaded true) w)
  | ModelsLoaded false =>
      Some
        (on_comp (setModelsLoaded false)
           (on_comp (setCameraActive false)
              (on_comp
                 (setError
                    "Could not load facial analysis models. The interview will continue without facial analysis.")
                 w)))
  | VideoInitialized => Some (on_comp (setCameraInitialized true) w)
  | Tick env =>
      if remainingTime (comp w) <=? 0 then None
      else
        Some
          (timerEffect env
             (on_comp
                (fun st => setRemainingTime (remainingTime st - 1) st) w))
  | ChangeAnswer text => scoring (on_comp (setUserAnswer text) w)
  | SpeechResult finalTranscript =>
      scoring (on_comp (onresult finalTranscript) w)
  | Detect closure video d =>
      Some (on_comp (Perception.detectFace closure video d) w)
  | ForceConfidence randomChange =>
      if (-15 <=? randomChange) && (randomChange <=? 15)
         && cameraActive (comp w) && cameraInitialized (comp w)
      then Some (on_comp (Perception.forceConfidence randomChange) w)
      else None
  | ThinkingTime =>
      if isThinking (comp w) then None
      else Some (handleThinkingTime (comp w) w)
  | ToggleRecording => Some (toggleRecording (comp w) w)
  | ToggleCamera =>
      Some (on_comp (toggleCamera (comp w)) w)
  | NextQuestion env =>
      if loading (comp w) || questionsLoading (comp w) then None
      else
        let snap := comp w in
        if Z.of_nat (currentQuestion snap)
           <? Z.of_nat (List.length (questions snap)) - 1
        then scoring (nextQuestion env snap w)
        else Some (nextQuestion env snap w)
  | EndInterview env =>
      if loading (comp w) then None
      else Some (endInterview env (comp w) w)
  end.

(** An event, then the render it causes. *)
Definition step (e : Event) (w : World) : option World :=
  match handle e w with
  | Some w' => Some (detectionEffect w')
  | None => None
  end.

Fixpoint run (es : list Event) (w : World) : option World :=
  match es with
  | [] => Some w
  | e :: es' =>
      match step e w with
      | Some w' => run es' w'
      | None => None
      end
  end.

Definition reachable (w : World) : Prop :=
  exists speech es, run es (initialWorld speech) = Some w.

End Session.

(** ** The page as it samples

    [detectFace] is called by the callbacks that the effect of lines
    1068-1133 registers and by nothing else, and these callbacks call the
    [detectFace] of the render in which the effect ran.  The dependencies
    of that effect are [modelsLoaded], [cameraActive] and
    [webcamRef.current]: a new [confidenceScore] or [facialExpression]
    registers nothing anew.  A page is a world with the state that the
    registered callbacks hold.

    The webcam is rendered when [cameraActive] holds (line 1996), and its
    ref is set when it is mounted: a render reads in [webcamRef.current]
    the webcam of the render before it, and the effect, which runs after
    the render, that of the render itself. *)

Module Page.

Import Lifecycle Session.

Record Page : Type := mkPage {
  world : World;
  mounted : bool;            (* [webcamRef.current], as the render read it *)
  held : option State        (* [None]: no interval is registered *)
}.

Definition initialPage (speech : bool) : Page :=
  {| world := initialWorld speech; mounted := false; held := None |}.

(** The dependencies of the effect, as a render lists them. *)
Definition deps (w : World) (mounted : bool) : bool * bool * bool :=
  (modelsLoaded (comp w), cameraActive (comp w), mounted).

Definition deps_eqb (a b : bool * bool * bool) : bool :=
  let '(a1, a2, a3) := a in
  let '(b1, b2, b3) := b in
  Bool.eqb a1 b1 && Bool.eqb a2 b2 && Bool.eqb a3 b3.

(** The render of [after], which follows that of the page [p]: the effect
    runs when one of its dependencies has changed, and registers the
    callbacks of the new render when the models are loaded and the camera
    is on, with its webcam. *)
Definition render (p : Page) (after : World) : Page :=
  let seen := cameraActive (comp (world p)) in
  {| world := after;
     mounted := seen;
     held :=
       if deps_eqb (deps (world p) (mounted p)) (deps after seen)
       then held p
       else if modelsLoaded (comp after) && cameraActive (comp after)
            then Some (comp after)
            else None |}.

(** A sample is a callback of the interval whose detection settles with
    [d]; every other event is one of [Session], detections apart. *)
Inductive Action : Type :=
| Sample (video : option Perception.Video) (d : Perception.Detection)
| Other (e : Event).

Definition act (a : Action) (p : Page) : option Page :=
  let next e :=
    match step e (world p) with
    | Some w' => Some (render p w')
    | None => None
    end in
  match a with
  | Sample video d =>
      match held p with
      | Some closure => next (Detect closure video d)
      | None => None
      end
  | Other (Detect _ _ _) => None
  | Other e => next e
  end.

Fixpoint run (l : list Action) (p : Page) : option Page :=
  match l with
  | [] => Some p
  | a :: l' =>
      match act a p with
      | Some p' => run l' p'
      | None => None
      end
  end.

End Page.

(** ** Vocabulary of the properties *)

Module Spec.

Import Aggregator Lifecycle.

(** [r] is [n / d] rounded to the nearest integer, a tie going up. *)
Definition nearest (n d r : Z) : Prop :=
  2 * d * r <= 2 * n + d < 2 * d * (r + 1).

(** The sum of a history, written as a recursion on the list. *)
Fixpoint total (h : list Z) : Z :=
  match h with
  | [] => 0
  | x :: h' => x + total h'
  end.

(** [r] is the arithmetic mean of [h] rounded to the nearest integer,
    and [0] for an empty [h]. *)
Definition mean_rounded (h : list Z) (r : Z) : Prop :=
  match h with
  | [] => r = 0
  | _ :: _ => nearest (total h) (Z.of_nat (List.length h)) r
  end.

(** [r] is [0.3 a + 0.4 b + 0.3 c] rounded to the nearest integer, a tie
    going up. *)
Definition weighted_rounded (a b c r : Z) : Prop :=
  10 * r - 5 <= 3 * a + 4 * b + 3 * c < 10 * r + 5.

(** [r] is an integer nearest to [0.3 a + 0.4 b + 0.3 c]: either of the
    two when the sum lies half way between them. *)
Definition weighted_near (a b c r : Z) : Prop :=
  10 * r - 5 <= 3 * a + 4 * b + 3 * c <= 10 * r + 5.

(** What a call of [endInterview] sends. *)
Definition submitted (env : Env) (snap : State) : list InterviewData :=
  match interviewData snap with
  | Some data => if truthy_token (token env) then [data] else []
  | None => []
  end.

(** The averages a report carries are those of the histories [h1], [h2],
    [h3], and its score is their weighted mean. *)
Definition report_of (data : InterviewData) (h1 h2 h3 : list Z) : Prop :=
  mean_rounded h1 (performance_confidence data) /\
  mean_rounded h2 (performance_relevance data) /\
  mean_rounded h3 (performance_communicationSkills data) /\
  weighted_near (performance_confidence data) (performance_relevance data)
    (performance_communicationSkills data) (score data).

Definition average_of (m : Metric) (avgConfidence avgCommunication avgRelevance : Z)
  : Z :=
  match m with
  | Confidence => avgConfidence
  | Communication => avgCommunication
  | Relevance => avgRelevance
  end.

(** The first metric of [order] whose average is [target]. *)
Fixpoint pick (order : list Metric) (target : Z)
    (avgConfidence avgCommunication avgRelevance : Z) : option Metric :=
  match order with
  | [] => None
  | m :: order' =>
      if average_of m avgConfidence avgCommunication avgRelevance =? target
      then Some m
      else pick order' target avgConfidence avgCommunication avgRelevance
  end.

(** The feedback names the highest and the lowest average, a tie going to
    the metric that comes first in [order]. *)
Definition feedback_by (order : list Metric)
    (avgConfidence avgCommunication avgRelevance : Z) : Prop :=
  Some (strength avgConfidence avgCommunication avgRelevance)
  = pick order (Z.max avgConfidence (Z.max avgCommunication avgRelevance))
      avgConfidence avgCommunication avgRelevance /\
  Some (improvement avgConfidence avgCommunication avgRelevance)
  = pick order (Z.min avgConfidence (Z.min avgCommunication avgRelevance))
      avgConfidence avgCommunication avgRelevance.

(** The three histories of a state, the live sample a closure holds, and
    the append of one sample to each history. *)
Definition histories (st : State) : list Z * list Z * list Z :=
  (confidenceHistory st, relevanceHistory st, communicationHistory st).

Definition sample (snap : State) : Z * Z * Z :=
  (confidenceScore snap, relevanceScore snap, communicationScore snap).

Definition push (hs : list Z * list Z * list Z) (x : Z * Z * Z)
  : list Z * list Z * list Z :=
  let '(h1, h2, h3) := hs in
  let '(a, b, c) := x in
  (h1 ++ [a], h2 ++ [b], h3 ++ [c]).

Definition push_all (hs : list Z * list Z * list Z) (xs : list (Z * Z * Z))
  : list Z * list Z * list Z :=
  fold_left push xs hs.

Definition aligned (hs : list Z * list Z * list Z) : Prop :=
  let '(h1, h2, h3) := hs in
  List.length h1 = List.length h2 /\ List.length h2 = List.length h3.

(** The events whose handler may reach [saveCurrentMetrics]. *)
Definition may_append (e : Session.Event) : bool :=
  match e with
  | Session.SettingsLoaded _ _ | Session.Tick _
  | Session.NextQuestion _ | Session.EndInterview _ => true
  | _ => false
  end.

(** The three history lengths of a state. *)
Definition history_lengths (st : State) : nat * nat * nat :=
  (List.length (confidenceHistory st), List.length (relevanceHistory st),
   List.length (communicationHistory st)).

(** Two calls of [endInterview], one after the other, each with the closure
    of the latest render, behave as one: one sample more in each history,
    one POST, and a second call that changes nothing; and a call made once
    the first one has set the shutdown flag changes nothing. *)
Definition end_idempotent (env : Env) (w : World) : Prop :=
  let w1 := endInterview env (comp w) w in
  let w2 := endInterview env (comp w1) w1 in
  let ws := endInterview_shutdown w in
  history_lengths (comp w2)
  = (S (List.length (confidenceHistory (comp w))),
     S (List.length (relevanceHistory (comp w))),
     S (List.length (communicationHistory (comp w)))) /\
  List.length (posts w2) = S (List.length (posts w)) /\
  w2 = w1 /\
  endInterview env (comp ws) ws = ws.

Definition clamp (lo hi x : Z) : Z := Z.max lo (Z.min hi x).

Definition percent (x : Z) : Prop := 0 <= x <= 100.

(** [r] is the smoothed score: the raw score after a confidence of zero,
    and [0.7 raw + 0.3 prev] rounded to the nearest integer otherwise. *)
Definition smoothed (raw prev r : Z) : Prop :=
  (prev = 0 -> r = raw) /\
  (prev <> 0 -> nearest (7 * raw + 3 * prev) 10 r).

(** The same with either neighbour for a sum that lies half way. *)
Definition smoothed_near (raw prev r : Z) : Prop :=
  (prev = 0 -> r = raw) /\
  (prev <> 0 -> 10 * r - 5 <= 7 * raw + 3 * prev <= 10 * r + 5).

(** The raw score of a face: the score of its dominant expression. *)
Definition rawScore (firstFace : Perception.Face) : Z :=
  Perception.expressionScore (fst (Perception.dominant firstFace))
    (snd (Perception.dominant firstFace)).

(** The cells the perception loop owns. *)
Definition perception (st : State) : Z * Expression * Z :=
  (confidenceScore st, facialExpression st, faceDetectionSuccess st).

(** A detection that went in flight under the closure [snap] and settles
    with [d] on a state [st] in which shutdown has begun or the camera is
    off leaves the perception cells of [st] alone. *)
Definition discarded_on_completion (snap : State)
    (video : option Perception.Video) (d : Perception.Detection) (st : State)
  : Prop :=
  snd (Perception.detectFace_begin snap video snap) = true ->
  isShuttingDown st = true \/ cameraActive st = false ->
  perception (Perception.detectFace_settled snap d st) = perception st.

(** [t] occurs in [s]. *)
Definition occurs (t s : string) : Prop :=
  exists a b : string, s = (a ++ t ++ b)%string.

(** The key phrases that occur in the answer, case folded. *)
Definition matched (userAnswer : string) (keyPhrases : list string)
  : list string :=
  filter
    (fun phrase =>
       Str.includes (Str.toLowerCase userAnswer) (Str.toLowerCase phrase))
    keyPhrases.

(** [r] is [100 * matchedCount / min(5, keyPhrases.length)] rounded to the
    nearest integer. *)
Definition relevance_rounded (userAnswer : string) (keyPhrases : list string)
    (r : Z) : Prop :=
  nearest (100 * Z.of_nat (List.length (matched userAnswer keyPhrases)))
    (Z.min 5 (Z.of_nat (List.length keyPhrases))) r.

(** Penalties and bonuses, pattern by pattern. *)
Definition penalties (text : string) : Z :=
  let n p := Z.of_nat (RegExp.match_count p text) in
  5 * n Communication.repeated_word + 3 * n Communication.missing_period
  + 10 * n Communication.run_on_sentence + 2 * n Communication.filler_words
  + 5 * n Communication.singular_plural + 5 * n Communication.plural_singular.

Definition bonuses (text : string) : Z :=
  let n p := Z.of_nat (RegExp.match_count p text) in
  5 * n Communication.transition_words + 3 * n Communication.complete_sentence
  + 2 * n Communication.technical_terms.

(** The score as the formula gives it: [70 - penalties + bonuses], at most
    [40] for a text under 50 characters, then clamped to [0, 100]. *)
Definition communication_formula (text : string) : Z :=
  let score := 70 - penalties text + bonuses text in
  let score := if Z.of_nat (String.length text) <? 50 then Z.min score 40
               else score in
  clamp 0 100 score.

End Spec.

Import Spec.

(** ** Sample data *)

Module Examples.

Import Aggregator Lifecycle Session.

Local Open Scope string_scope.

(** The first React question of the bank, with the key phrases of the
    relevance example. *)
Definition hooks_question (keyPhrases : list string) : Question :=
  {| id := 1;
     question :=
       "Explain the concept of React hooks and how they improve functional components.";
     expectedTopics := ["useState"; "useEffect"; "Custom hooks"; "Rules of hooks"];
     keyPhrases := keyPhrases |}.

Definition virtual_dom_question : Question :=
  {| id := 2;
     question := "How does React's Virtual DOM work and what are its benefits?";
     expectedTopics :=
       ["Reconciliation"; "Diffing algorithm"; "Performance optimization";
        "Batched updates"];
     keyPhrases := ["render"; "dom"; "diff"; "update"; "performance"; "batch"] |}.

Definition signed_in : Env :=
  {| token := Some "jwt"; response := Created "42" |}.

(** A closure with two samples in each history, and the report sent from
    it. *)
Definition two_samples : State :=
  setConfidenceHistory [80; 61]
    (setRelevanceHistory [67; 40]
       (setCommunicationHistory [70; 43] initialState)).

Definition two_samples_report : InterviewData :=
  {| score := 60;
     performance_confidence := 71;
     performance_communicationSkills := 57;
     performance_relevance := 54;
     feedback_strength := "You demonstrated good confidence.";
     feedback_improvement :=
       "Consider working on your answer relevance by including more key technical terms.";
     data_questions := [];
     responses := [];
     metrics_facialExpressions := fun _ => 0;
     metrics_confidenceHistory := [80; 61];
     metrics_relevanceHistory := [67; 40];
     metrics_communicationHistory := [70; 43] |}.

(** Two questions loaded, the first one being answered. *)
Definition answering : World :=
  on_comp
    (fun st =>
       setUserAnswer " react hooks are great for state management"
         (setQuestionsLoading false
            (setQuestions
               [hooks_question ["state"; "hook"; "effect"];
                virtual_dom_question] st)))
    (initialWorld true).

(** The same session on its last question. *)
Definition on_last_question : World :=
  on_comp (setCurrentQuestion 1%nat) answering.

(** A session: the questions arrive, the candidate types an answer and
    moves on. *)
Definition first_answer : list Event :=
  [QuestionsLoaded [hooks_question ["state"; "hook"; "effect"];
                    virtual_dom_question];
   ChangeAnswer " react hooks are great for state management";
   NextQuestion signed_in].

Definition after_first_answer : World :=
  match run first_answer (initialWorld true) with
  | Some w => w
  | None => initialWorld true
  end.

(** How often each of [ps] matches in [text]. *)
Definition counts (text : string) (ps : list RegExp.RegExp) : list nat :=
  map (fun p => RegExp.match_count p text) ps.

(** A single question, answered, with live scores and no history yet. *)
Definition single_question : World :=
  on_comp
    (fun st =>
       setConfidenceScore 81
         (setRelevanceScore 67
            (setCommunicationScore 40
               (setUserAnswer " react hooks are great for state management"
                  (setQuestionsLoading false
                     (setQuestions
                        [hooks_question ["state"; "hook"; "effect"]] st))))))
    (initialWorld true).

(** A running perception loop: models loaded, camera on, and the given
    confidence from earlier samples. *)
Definition watching (confidence : Z) : State :=
  setConfidenceScore confidence
    (setCameraInitialized true (setModelsLoaded true initialState)).

Definition camera : Perception.Video :=
  {| Perception.videoWidth := 640; Perception.videoHeight := 480 |}.

(** A face that is happy with the intensity that the literal [0.8]
    denotes: raw score [50 + 40]. *)
Definition smiling : Perception.Face :=
  fun e =>
    match e with
    | happy => JS.to_double 0.8
    | neutral => JS.to_double 0.1
    | _ => 0%Q
    end.

(** Two more faces: happy at [0.75], raw score [50 + 38], and neutral at
    [0.5], raw score [40 + 10]. *)
Definition beaming : Perception.Face :=
  fun e => match e with happy => 0.75%Q | _ => 0%Q end.

Definition composed : Perception.Face :=
  fun e => match e with neutral => 0.5%Q | _ => 0%Q end.

(** The page from its first render to its first sample: the models load
    with the camera on, the intervals are registered, and the first
    detection finds the happy face. *)
Definition first_sample : list Page.Action :=
  [Page.Other (ModelsLoaded true);
   Page.Sample (Some camera) (Perception.Faces [beaming])].

(** An interview of one question, ended by its button: the question
    arrives, the candidate types an answer, and presses End. *)
Definition one_question : list Event :=
  [QuestionsLoaded [hooks_question ["state"; "hook"; "effect"]];
   ChangeAnswer " react hooks are great for state management";
   EndInterview signed_in].

End Examples.

(** * The rest of the page, and the setup page that starts it

    The clock, the running averages, the generation of the questions and
    [frontend/src/pages/InterviewSetup.tsx].  Further conventions.
    - [Math.random()] is a sequence of rationals that a computation reads
      from a position on; that its values lie in [0, 1) is a hypothesis of
      the properties, not of the definitions.
    - A lookup [obj[key]] on an object literal sees the properties of
      [Object.prototype] besides its own.
    - [parseInt] is a parameter; [None] is [NaN]. *)

(** ** Display helpers: [formatTime], [calculateRunningAverage] *)

Module Display.

(** [n.toString()] for an integer-valued number. *)
Definition toString (n : Z) : string := NilZero.string_of_int (Z.to_int n).

(** [n] characters read off [padString] over and over, [rest] being what
    is left of the current round. *)
Fixpoint filler (n : nat) (padString rest : string) : string :=
  match n with
  | O => ""
  | S n' =>
      match rest with
      | String c rest' => String c (filler n' padString rest')
      | EmptyString =>
          match padString with
          | String c rest' => String c (filler n' padString rest')
          | EmptyString => ""
          end
      end
  end.

(** [s.padStart(targetLength, padString)] *)
Definition padStart (s : string) (targetLength : nat) (padString : string)
  : string :=
  if (targetLength <=? String.length s)%nat then s
  else (filler (targetLength - String.length s) padString padString ++ s)%string.

(** [Math.floor(seconds / 60)] and [seconds % 60], the remainder taking the
    sign of [seconds]. *)
Definition formatTime (seconds : Z) : string :=
  let mins := seconds / 60 in
  let secs := Z.rem seconds 60 in
  (padStart (toString mins) 2 "0" ++ ":" ++ padStart (toString secs) 2 "0")%string.

Definition calculateRunningAverage (history : list Z) (currentValue : Z) : Z :=
  if (List.length history =? 0)%nat then currentValue
  else
    let sum := Aggregator.sum history + currentValue in
    Math_round (inject_Z sum / inject_Z (Z.of_nat (List.length history + 1)))%Q.

End Display.

(** ** The questions of an interview: [shuffleArray],
    [generateQuestionsForSkills], [fetchQuestions] *)

Module Questions.

Local Open Scope string_scope.

(** An element of the question bank: a question that has no [id] yet. *)
Record Entry : Type := mkEntry {
  text : string;
  topics : list string;
  phrases : list string
}.

(** [{ id, ...entry }] *)
Definition withId (n : Z) (e : Entry) : Question :=
  {| id := n; question := text e; expectedTopics := topics e;
     keyPhrases := phrases e |}.

(** [skills.join(sep)] *)
Definition join (l : list string) (sep : string) : string :=
  String.concat sep l.

(** A value inside a template literal; [undefined] prints as its name. *)
Definition display (s : option string) : string :=
  match s with Some x => x | None => "undefined" end.

(** The arrays of [questionBank]. *)

Definition React_questions : list Entry :=
  [
    {| text :=
         "Explain the concept of React hooks and how they improve functional components.";
       topics :=
         ["useState"; "useEffect"; "Custom hooks"; "Rules of hooks"];
       phrases :=
         ["state management"; "side effects"; "functional"; "lifecycle";
          "dependencies"] |};
    {| text :=
         "How does React's Virtual DOM work and what are its benefits?";
       topics :=
         ["Reconciliation"; "Diffing algorithm"; "Performance optimization";
          "Batched updates"];
       phrases :=
         ["render"; "dom"; "diff"; "update"; "performance"; "batch"] |};
    {| text :=
         "Describe the component lifecycle in React and how it differs between class and functional components.";
       topics :=
         ["Mounting"; "Updating"; "Unmounting"; "useEffect";
          "componentDidMount"];
       phrases :=
         ["lifecycle"; "mount"; "update"; "unmount"; "effect"; "cleanup"] |}
  ].

Definition JavaScript_questions : list Entry :=
  [
    {| text :=
         "Explain closures in JavaScript and provide a practical example.";
       topics :=
         ["Lexical scoping"; "Memory management"; "Data privacy";
          "Factory functions"];
       phrases :=
         ["scope"; "function"; "variable"; "access"; "private";
          "encapsulation"] |};
    {| text :=
         "What are Promises in JavaScript and how do they help with asynchronous operations?";
       topics :=
         ["async/await"; "then/catch"; "Error handling"; "Promise chaining"];
       phrases :=
         ["asynchronous"; "then"; "catch"; "await"; "resolve"; "reject";
          "chain"] |};
    {| text :=
         "Describe the event loop in JavaScript and how it handles asynchronous code.";
       topics :=
         ["Call stack"; "Callback queue"; "Microtasks"; "Macrotasks";
          "Single-threaded"];
       phrases :=
         ["stack"; "queue"; "async"; "setTimeout"; "callback";
          "non-blocking"] |}
  ].

Definition TypeScript_questions : list Entry :=
  [
    {| text :=
         "What are the benefits of using TypeScript over JavaScript? Provide specific examples.";
       topics :=
         ["Static typing"; "Type inference"; "Interfaces"; "Generics";
          "IDE support"];
       phrases :=
         ["type"; "interface"; "compile-time"; "error"; "generics";
          "autocomplete"] |};
    {| text :=
         "Explain TypeScript's generics with a practical example.";
       topics :=
         ["Type parameters"; "Reusable components"; "Type constraints";
          "Generic interfaces"];
       phrases :=
         ["generic"; "<T>"; "constraint"; "extends"; "flexibility";
          "type parameter"] |}
  ].

Definition Nodejs_questions : list Entry :=
  [
    {| text :=
         "Explain Node.js event-driven architecture. How does it handle concurrency?";
       topics :=
         ["Event loop"; "Non-blocking I/O"; "Thread pool"; "Libuv"];
       phrases :=
         ["event loop"; "async"; "callback"; "non-blocking"; "concurrency";
          "single thread"] |};
    {| text :=
         "What are streams in Node.js and why are they important?";
       topics :=
         ["Buffering"; "Memory efficiency"; "Pipeline"; "Types of streams"];
       phrases :=
         ["readable"; "writable"; "transform"; "chunk"; "pipe"; "memory";
          "buffer"] |}
  ].

(** [defaultSkillQuestions], whose texts quote the skills. *)
Definition defaultSkillQuestions (skills : list string) : list Entry :=
  [
    {| text :=
         ("Explain your experience with " ++ join skills ", " ++ " and how you've applied these skills in previous projects.");
       topics :=
         ["Project examples"; "Technical implementation"; "Challenges faced";
          "Solutions"];
       phrases :=
         ["project"; "implement"; "challenge"; "solution"; "experience";
          "application"] |};
    {| text :=
         ("What are the latest developments or trends in " ++ join skills ", " ++ " that you find most interesting?");
       topics :=
         ["Current trends"; "New features"; "Recent updates";
          "Industry direction"];
       phrases :=
         ["trend"; "new"; "recent"; "update"; "feature"; "future";
          "direction"] |};
    {| text :=
         ("Describe a time when you had to debug a complex issue involving " ++ display (nth_error skills 0) ++ ". What was your approach?");
       topics :=
         ["Problem identification"; "Debugging tools"; "Root cause analysis";
          "Resolution steps"];
       phrases :=
         ["debug"; "issue"; "problem"; "analyze"; "fix"; "solution";
          "approach"] |};
    {| text :=
         ("How do you stay updated with the latest developments in " ++ join skills ", " ++ "?");
       topics :=
         ["Learning resources"; "Community engagement"; "Documentation";
          "Practice projects"];
       phrases :=
         ["learn"; "resources"; "community"; "practice"; "documentation";
          "update"; "study"] |};
    {| text :=
         ("What performance optimization techniques do you apply when working with " ++ join skills ", " ++ "?");
       topics :=
         ["Performance metrics"; "Bottlenecks"; "Optimization strategies";
          "Measurement tools"];
       phrases :=
         ["performance"; "optimization"; "speed"; "bottleneck"; "measure";
          "improve"; "metrics"] |};
    {| text :=
         ("How do you approach writing maintainable and scalable code when using " ++ join skills ", " ++ "?");
       topics :=
         ["Code organization"; "Design patterns"; "Documentation";
          "Testing strategies"];
       phrases :=
         ["maintainable"; "scalable"; "organization"; "structure"; "pattern";
          "clean"; "architecture"] |}
  ].

Definition generic_topics : list string :=
  ["Problem description"; "Solution approach"; "Technologies used";
   "Outcome"].

Definition generic_phrases : list string :=
  ["problem"; "challenge"; "solution"; "approach"; "result"; "outcome"].

(** What [questionBank[skill]] evaluates to.  The bank is an object
    literal, so a key it does not define is looked up on
    [Object.prototype]: the result is then a method, which has a [length]
    (its number of parameters) and no indexed element, or a value without
    a [length] ([undefined], or the prototype itself for [__proto__]). *)
Inductive Lookup : Type :=
| Own (skillQuestions : list Entry)
| Method (arity : Z)
| NoLength.

Definition questionBank (skill : string) : Lookup :=
  if skill =? "React" then Own React_questions
  else if skill =? "JavaScript" then Own JavaScript_questions
  else if skill =? "TypeScript" then Own TypeScript_questions
  else if skill =? "Node.js" then Own Nodejs_questions
  else if existsb (String.eqb skill)
            ["__defineGetter__"; "__defineSetter__"]
  then Method 2
  else if existsb (String.eqb skill)
            ["constructor"; "hasOwnProperty"; "isPrototypeOf";
             "propertyIsEnumerable"; "__lookupGetter__"; "__lookupSetter__"]
  then Method 1
  else if existsb (String.eqb skill)
            ["toString"; "toLocaleString"; "valueOf"]
  then Method 0
  else NoLength.

(** An element of [selectedQuestions]: a question, or the object [{ id }]
    that spreading [undefined] leaves. *)
Inductive Selected : Type :=
| Full (q : Question)
| IdOnly (n : Z).

Definition idOf (s : Selected) : Z :=
  match s with Full q => id q | IdOnly n => n end.

(** The successive results of [Math.random()]; a computation that draws
    takes the number of draws made so far and returns the new number. *)
Definition Random : Type := nat -> Q.

(** [Math.random()] returns a number of [0, 1). *)
Definition unit_interval (random : Random) : Prop :=
  forall k, (0 <= random k)%Q /\ (random k < 1)%Q.

(** [Math.floor(r * n)] *)
Definition randomBelow (r : Q) (n : Z) : Z := Qfloor (r * inject_Z n)%Q.

(** [arr[i]] for an integer [i]; [None] is [undefined]. *)
Definition element {A : Type} (arr : list A) (i : Z) : option A :=
  if (i <? 0)%Z then None else nth_error arr (Z.to_nat i).

(** The body of the [forEach] for a skill whose bank entry has a
    positive [length]. *)
Definition pick (r : Q) (index : nat) (lookup : Lookup) : Selected :=
  match lookup with
  | Own skillQuestions =>
      let randomIndex :=
        randomBelow r (Z.of_nat (List.length skillQuestions)) in
      match element skillQuestions randomIndex with
      | Some e => Full (withId (Z.of_nat index + 1) e)
      | None => IdOnly (Z.of_nat index + 1)
      end
  | _ => IdOnly (Z.of_nat index + 1)
  end.

(** [skillQuestions && skillQuestions.length > 0] *)
Definition hasQuestions (lookup : Lookup) : bool :=
  match lookup with
  | Own skillQuestions => (0 <? List.length skillQuestions)%nat
  | Method arity => (0 <? arity)%Z
  | NoLength => false
  end.

(** [skills.forEach((skill, index) => ...)], from [index] on. *)
Fixpoint forEachSkill (random : Random) (skills : list string) (index : nat)
    (selectedQuestions : list Selected) (k : nat) : list Selected * nat :=
  match skills with
  | [] => (selectedQuestions, k)
  | skill :: rest =>
      let skillQuestions := questionBank skill in
      if hasQuestions skillQuestions
      then forEachSkill random rest (S index)
             (selectedQuestions ++ [pick (random k) index skillQuestions])
             (S k)
      else forEachSkill random rest (S index) selectedQuestions k
  end.

(** The generic question; with no skill at all the index is [NaN] and the
    skill [undefined]. *)
Definition genericQuestion (skills : list string) (n : nat) : Entry :=
  {| text :=
       "Tell me about a challenging problem you solved using "
       ++ display (nth_error skills (n mod List.length skills)) ++ "?";
     topics := generic_topics;
     phrases := generic_phrases |}.

(** [a < b] where [b] may be [NaN] ([None]). *)
Definition lessThan (a : Z) (b : option Z) : bool :=
  match b with Some b' => (a <? b')%Z | None => false end.

(** The [while] loop; [defaults] is what [shift] has left of
    [defaultSkillQuestions].  [None]: the iterations allowed did not
    suffice. *)
Fixpoint padding (fuel : nat) (skills : list string)
    (questionCount : option Z) (defaults : list Entry)
    (selectedQuestions : list Selected) : option (list Selected) :=
  if lessThan (Z.of_nat (List.length selectedQuestions)) questionCount then
    match fuel with
    | O => None
    | S fuel' =>
        let n := Z.of_nat (List.length selectedQuestions) + 1 in
        match defaults with
        | defaultQuestion :: rest =>
            padding fuel' skills questionCount rest
              (selectedQuestions ++ [Full (withId n defaultQuestion)])
        | [] =>
            padding fuel' skills questionCount []
              (selectedQuestions
               ++ [Full (withId n
                           (genericQuestion skills
                              (List.length selectedQuestions)))])
        end
    end
  else Some selectedQuestions.

(** [arr.slice(0, end)]: a negative [end] counts from the end of the
    array, [NaN] is 0. *)
Definition slice0 {A : Type} (arr : list A) (end_ : option Z) : list A :=
  match end_ with
  | None => []
  | Some e =>
      if (e <? 0)%Z
      then firstn (Z.to_nat (Z.of_nat (List.length arr) + e)) arr
      else firstn (Z.to_nat e) arr
  end.

(** [arr[i] = v] for an index of the array. *)
Fixpoint assign {A : Type} (arr : list A) (i : nat) (v : A) : list A :=
  match arr, i with
  | [], _ => []
  | _ :: tl, O => v :: tl
  | x :: tl, S i' => x :: assign tl i' v
  end.

(** [[arr[i], arr[j]] = [arr[j], arr[i]]] for two indices of the array
    ([None] otherwise: the loop below never leaves the array when the
    draws are in [0, 1)). *)
Definition swap {A : Type} (arr : list A) (i : nat) (j : Z)
  : option (list A) :=
  match nth_error arr i, element arr j with
  | Some x, Some y => Some (assign (assign arr i y) (Z.to_nat j) x)
  | _, _ => None
  end.

(** The loop of [shuffleArray], from [i] down to 1. *)
Fixpoint shuffleLoop {A : Type} (random : Random) (i : nat)
    (newArray : list A) (k : nat) : option (list A * nat) :=
  match i with
  | O => Some (newArray, k)
  | S i' =>
      let j := randomBelow (random k) (Z.of_nat i + 1) in
      match swap newArray i j with
      | Some swapped => shuffleLoop random i' swapped (S k)
      | None => None
      end
  end.

Definition shuffleArray {A : Type} (random : Random) (array : list A)
    (k : nat) : option (list A * nat) :=
  shuffleLoop random (List.length array - 1) array k.

(** [level] is not read.  The loop needs no more iterations than
    [questionCount]. *)
Definition generateQuestionsForSkills (random : Random)
    (skills : list string) (level : string) (questionCount : option Z)
    (k : nat) : option (list Selected * nat) :=
  let '(selectedQuestions, k1) := forEachSkill random skills 0 [] k in
  let fuel := match questionCount with Some n => Z.to_nat n | None => O end in
  match
    padding fuel skills questionCount (defaultSkillQuestions skills)
      selectedQuestions
  with
  | Some padded => shuffleArray random (slice0 padded questionCount) k1
  | None => None
  end.

(** The settings that the setup page passes on; the default settings of
    the interview page have no [questionCount]. *)
Record Settings : Type := mkSettings {
  position : string;
  experience : string;
  duration : string;
  skills : list string;
  questionCount : option string
}.

(** The questions that [State] can hold: all of them with their text. *)
Fixpoint questionsOf (generated : list Selected) : option (list Question) :=
  match generated with
  | [] => Some []
  | Full q :: rest =>
      match questionsOf rest with
      | Some qs => Some (q :: qs)
      | None => None
      end
  | IdOnly _ :: _ => None
  end.

Section FetchQuestions.

(** [parseInt], [None] being [NaN]. *)
Variable parseInt : string -> option Z.

(** [interviewSettings?.questionCount ? parseInt(...) : 4], read off the
    settings held by the render that made the call. *)
Definition questionCountOf (interviewSettings : option Settings)
  : option Z :=
  match interviewSettings with
  | Some settings =>
      match questionCount settings with
      | Some count => if Str.truthy count then parseInt count else Some 4
      | None => Some 4
      end
  | None => Some 4
  end.

(** [fetchQuestions] up to its [await]. *)
Definition fetchQuestions_begin (st : State) : State :=
  setQuestionsLoading true st.

(** [fetchQuestions] from the [await] on.  Nothing in the [try] block
    throws for a list of skills, so the [catch] block is not reached.
    [None]: a draw outside [0, 1), or a question without a text. *)
Definition fetchQuestions_settled (random : Random)
    (interviewSettings : option Settings) (selectedSkills : list string)
    (experienceLevel : string) (k : nat) (st : State)
  : option (State * nat) :=
  match
    generateQuestionsForSkills random selectedSkills experienceLevel
      (questionCountOf interviewSettings) k
  with
  | Some (generatedQuestions, k') =>
      match questionsOf generatedQuestions with
      | Some qs =>
          Some (setQuestionsLoading false (setQuestions qs st), k')
      | None => None
      end
  | None => None
  end.

End FetchQuestions.

(** Vocabulary of the properties. *)

(** No skill names a method of [Object.prototype] that takes a
    parameter. *)
Definition plain_skill (skill : string) : Prop :=
  match questionBank skill with
  | Method arity => (arity <= 0)%Z
  | _ => True
  end.

(** An entry with five key phrases or more. *)
Definition rich (e : Entry) : Prop := (5 <= List.length (phrases e))%nat.

(** A question with its text and five key phrases or more. *)
Definition well_formed (s : Selected) : Prop :=
  match s with
  | Full q => (5 <= List.length (keyPhrases q))%nat
  | IdOnly _ => False
  end.

(** The bank has questions of its own for the skill. *)
Definition in_bank (skill : string) : Prop :=
  exists skillQuestions, questionBank skill = Own skillQuestions.

(** A source of draws for the examples. *)
Definition sample_random : Random :=
  fun k => (inject_Z (Z.of_nat (k * 5 mod 7)) / 7)%Q.

End Questions.

(** ** The setup page: [InterviewSetup] *)

Module Setup.

Import Questions.

Local Open Scope string_scope.

Record Form : Type := mkForm {
  form_position : string;
  form_experience : string;
  form_duration : string;
  form_questionCount : string;
  form_skills : list string;
  customSkill : string
}.

(** The initial values of the [useState] calls. *)
Definition initialForm : Form :=
  {| form_position := ""; form_experience := "mid"; form_duration := "30";
     form_questionCount := "4"; form_skills := ["React"; "JavaScript"];
     customSkill := "" |}.

Definition allSkills : list string :=
  ["React"; "JavaScript"; "TypeScript"; "Node.js"; "HTML/CSS"; "Redux";
   "Next.js"; "GraphQL"; "REST APIs"; "Testing"].

(** The values of the [option] and radio elements. *)
Definition experienceOptions : list string := ["junior"; "mid"; "senior"].
Definition durationOptions : list string := ["15"; "30"; "45"; "60"].
Definition questionCountOptions : list string := ["4"; "7"; "10"].

(** [skills.includes(skill)] *)
Definition includes (skills : list string) (skill : string) : bool :=
  existsb (String.eqb skill) skills.

Definition handleSkillToggle (skills : list string) (skill : string)
  : list string :=
  if includes skills skill
  then filter (fun s => negb (s =? skill)) skills
  else skills ++ [skill].

Definition setSkills (v : list string) (f : Form) : Form :=
  {| form_position := form_position f; form_experience := form_experience f;
     form_duration := form_duration f;
     form_questionCount := form_questionCount f; form_skills := v;
     customSkill := customSkill f |}.

Definition setCustomSkill (v : string) (f : Form) : Form :=
  {| form_position := form_position f; form_experience := form_experience f;
     form_duration := form_duration f;
     form_questionCount := form_questionCount f;
     form_skills := form_skills f; customSkill := v |}.

Definition addCustomSkill (f : Form) : Form :=
  if Str.truthy (customSkill f)
     && negb (includes (form_skills f) (customSkill f))
  then setCustomSkill "" (setSkills (form_skills f ++ [customSkill f]) f)
  else f.

(** The submit button is disabled without a position or without a skill;
    [None]: the form cannot be submitted. *)
Definition startInterview (f : Form) : option Settings :=
  if negb (Str.truthy (form_position f))
     || (List.length (form_skills f) =? 0)%nat
  then None
  else
    Some
      {| position := form_position f; experience := form_experience f;
         duration := form_duration f; skills := form_skills f;
         questionCount := Some (form_questionCount f) |}.

(** What the user can do on the page. *)
Inductive Action : Type :=
| ChangePosition (value : string)
| ChangeExperience (value : string)
| ChangeDuration (value : string)
| ChangeQuestionCount (value : string)
| ClickSkill (skill : string)
| ChangeCustomSkill (value : string)
| ClickAdd.

(** [None]: the page has no element for the action: a [select] or a radio
    group only takes one of its options, and only the skills of
    [allSkills] have a button. *)
Definition act (a : Action) (f : Form) : option Form :=
  match a with
  | ChangePosition value =>
      Some
        {| form_position := value; form_experience := form_experience f;
           form_duration := form_duration f;
           form_questionCount := form_questionCount f;
           form_skills := form_skills f; customSkill := customSkill f |}
  | ChangeExperience value =>
      if includes experienceOptions value
      then
        Some
          {| form_position := form_position f; form_experience := value;
             form_duration := form_duration f;
             form_questionCount := form_questionCount f;
             form_skills := form_skills f; customSkill := customSkill f |}
      else None
  | ChangeDuration value =>
      if includes durationOptions value
      then
        Some
          {| form_position := form_position f;
             form_experience := form_experience f; form_duration := value;
             form_questionCount := form_questionCount f;
             form_skills := form_skills f; customSkill := customSkill f |}
      else None
  | ChangeQuestionCount value =>
      if includes questionCountOptions value
      then
        Some
          {| form_position := form_position f;
             form_experience := form_experience f;
             form_duration := form_duration f; form_questionCount := value;
             form_skills := form_skills f; customSkill := customSkill f |}
      else None
  | ClickSkill skill =>
      if includes allSkills skill
      then Some (setSkills (handleSkillToggle (form_skills f) skill) f)
      else None
  | ChangeCustomSkill value => Some (setCustomSkill value f)
  | ClickAdd => Some (addCustomSkill f)
  end.

Fixpoint acts (l : list Action) (f : Form) : option Form :=
  match l with
  | [] => Some f
  | a :: rest =>
      match act a f with
      | Some f' => acts rest f'
      | None => None
      end
  end.

End Setup.

(** ** Vocabulary of the further properties *)

Module Vocabulary.

Import Aggregator Lifecycle.

(** The number a string of decimal digits denotes, leading zeros allowed. *)
Definition readDecimal (s : string) : option Z :=
  option_map Z.of_uint (NilEmpty.uint_of_string s).

(** The three live scores and every recorded sample are percentages. *)
Definition percent_scores (st : State) : Prop :=
  percent (confidenceScore st) /\
  percent (relevanceScore st) /\
  percent (communicationScore st) /\
  Forall percent (confidenceHistory st) /\
  Forall percent (relevanceHistory st) /\
  Forall percent (communicationHistory st).

(** The four numbers of a report are percentages. *)
Definition percent_report (data : InterviewData) : Prop :=
  percent (score data) /\
  percent (performance_confidence data) /\
  percent (performance_relevance data) /\
  percent (performance_communicationSkills data).

(** What the percentage invariant reads of a world. *)
Definition meters (w : World)
  : Z * Z * Z * (list Z * list Z * list Z) * list InterviewData :=
  (confidenceScore (comp w), relevanceScore (comp w),
   communicationScore (comp w), histories (comp w), posts w).

Definition metered (w : World) : Prop :=
  percent_scores (comp w) /\ Forall percent_report (posts w).

(** The range the source's comments give for each expression; the
    [switch] has no case for [unknown] and falls to its default. *)
Definition score_range (e : Expression) : Z * Z :=
  match e with
  | happy => (50, 100)
  | neutral => (40, 60)
  | surprised => (30, 50)
  | sad => (15, 40)
  | fearful => (10, 35)
  | angry => (10, 30)
  | disgusted => (10, 30)
  | unknown => (50, 50)
  end.

(** The counter of face hits and the tally of expressions are in order:
    the counter within [0, 10], no tally negative, nothing tallied for
    [unknown]. *)
Definition tallies_ok (st : State) : Prop :=
  0 <= faceDetectionSuccess st <= 10 /\
  (forall e, 0 <= expressionCounts st e) /\
  expressionCounts st unknown = 0.

End Vocabulary.

Import Vocabulary.

(** * Properties *)

(** ** Rounding *)

Section Rounding.

Variables n d : Z.
Hypothesis d_pos : 0 < d.

Lemma nearest_unique r r' : nearest n d r -> nearest n d r' -> r = r'.
Proof.
  unfold nearest. intros [L U] [L' U'].
  assert (r < r' + 1) by (apply (Z.mul_lt_mono_pos_l (2 * d)); lia).
  assert (r' < r + 1) by (apply (Z.mul_lt_mono_pos_l (2 * d)); lia).
  lia.
Qed.

Lemma nearest_div : nearest n d ((2 * n + d) / (2 * d)).
Proof.
  unfold nearest.
  pose proof (Z.div_mod (2 * n + d) (2 * d) ltac:(lia)) as E.
  pose proof (Z.mod_pos_bound (2 * n + d) (2 * d) ltac:(lia)) as B.
  lia.
Qed.

Lemma Math_round_div :
  Math_round (inject_Z n / inject_Z d)%Q = (2 * n + d) / (2 * d).
Proof.
  unfold Math_round.
  rewrite (Zdiv_Qdiv (2 * n + d) (2 * d)).
  apply Qfloor_comp.
  rewrite !inject_Z_plus, !inject_Z_mult.
  assert (Hq : ~ (inject_Z d == 0)%Q).
  { intros E. unfold Qeq in E. simpl in E. lia. }
  field. exact Hq.
Qed.

Lemma Math_round_nearest :
  nearest n d (Math_round (inject_Z n / inject_Z d)%Q).
Proof. rewrite Math_round_div. apply nearest_div. Qed.

End Rounding.

(** ** The patterns on sample texts *)

Module PatternExamples.

Import RegExp Communication Examples.

Local Open Scope string_scope.

Example repeated_words :
  counts "It is is a a a test. Hello World"
    [repeated_word; missing_period; complete_sentence] = [2; 1; 1]%nat.
Proof. vm_compute. reflexivity. Qed.

Example repeated_word_possessive :
  counts "that that's" [repeated_word] = [1]%nat.
Proof. vm_compute. reflexivity. Qed.

Example fillers_and_terms :
  counts "um, I like, you know, basically State and hooks. First, the API"
    [filler_words; transition_words; technical_terms; missing_period]
  = [4; 1; 2; 2]%nat.
Proof. vm_compute. reflexivity. Qed.

Example agreement_mismatches :
  counts "he are they was it have been we has been"
    [singular_plural; plural_singular] = [2; 2]%nat.
Proof. vm_compute. reflexivity. Qed.

Example forty_one_words_run_on :
  counts
    "a b c d e f g h i j k l m n o p q r s t u v w x y z a b c d e f g h i j k l m n o."
    [run_on_sentence] = [1]%nat.
Proof. vm_compute. reflexivity. Qed.

Example short_answer_capped :
  evaluateCommunication "First I used a hook. Then state!" = 40 /\
  70 - penalties "First I used a hook. Then state!"
  + bonuses "First I used a hook. Then state!" = 82.
Proof. vm_compute. split; reflexivity. Qed.

Example long_answer_clamped :
  evaluateCommunication
    "First, the component keeps state in a hook. Second, the props flow down. Finally, the API is small."
  = 100.
Proof. vm_compute. reflexivity. Qed.

End PatternExamples.

(** ** Double precision *)

Module DoubleFacts.

Lemma two_nonzero : ~ (2 == 0)%Q.
Proof. discriminate. Qed.

Lemma pow2_pos e : (0 < 2 ^ e)%Q.
Proof. apply Qpower_0_lt. reflexivity. Qed.

Lemma pow2_le a b : a <= b -> (2 ^ a <= 2 ^ b)%Q.
Proof. intros H. apply Qpower_le_compat_l; [exact H | discriminate]. Qed.

Lemma pow2_inject e : 0 <= e -> (2 ^ e == inject_Z (2 ^ e))%Q.
Proof.
  intros H. change 2%Q with (inject_Z 2). symmetry. now apply Zpower_Qpower.
Qed.

(** [2^(log2 n - log2 d - 1) <= n / d] *)
Lemma log2_lower (q : Q) :
  (0 < q)%Q -> (2 ^ (Z.log2 (Qnum q) - Z.log2 (Zpos (Qden q)) - 1) <= q)%Q.
Proof.
  intros Hq. destruct q as [n d]. cbn [Qnum Qden].
  assert (Hn : 0 < n) by (unfold Qlt in Hq; simpl in Hq; lia).
  set (a := Z.log2 n). set (b := Z.log2 (Z.pos d)).
  assert (Ha : 0 <= a) by apply Z.log2_nonneg.
  assert (Hb : 0 <= b) by apply Z.log2_nonneg.
  destruct (Z.log2_spec n Hn) as [La _]. fold a in La.
  destruct (Z.log2_spec (Z.pos d) ltac:(lia)) as [_ Ub]. fold b in Ub.
  replace (a - b - 1) with (a - (b + 1)) by lia.
  rewrite Qpower_minus by exact two_nonzero.
  rewrite !pow2_inject by lia.
  apply Qle_shift_div_r.
  - change 0%Q with (inject_Z 0). rewrite <- Zlt_Qlt.
    apply Z.pow_pos_nonneg; lia.
  - unfold Qle, Qmult, inject_Z. cbn [Qnum Qden].
    rewrite !Z.mul_1_r, Pos.mul_1_r.
    apply Z.le_trans with (n * Z.pos d); [|nia].
    apply Z.mul_le_mono_nonneg; lia.
Qed.

Lemma floor_log2_le (q : Q) (k : Z) :
  (0 < q)%Q -> (q < 2 ^ (k + 1))%Q -> floor_log2 q <= k.
Proof.
  intros Hq Hk. unfold floor_log2.
  set (k' := Z.log2 (Qnum q) - Z.log2 (Z.pos (Qden q))).
  destruct (Z.le_gt_cases (k + 1) (if Qle_bool (2 ^ k') q then k' else k' - 1))
    as [H|H]; [exfalso | lia].
  destruct (Qle_bool (2 ^ k') q) eqn:E.
  - apply Qle_bool_iff in E.
    apply (Qlt_irrefl q). eapply Qlt_le_trans; [exact Hk|].
    eapply Qle_trans; [apply pow2_le; exact H | exact E].
  - apply (Qlt_irrefl q). eapply Qlt_le_trans; [exact Hk|].
    eapply Qle_trans; [apply pow2_le; exact H | now apply log2_lower].
Qed.

Lemma nearest_even_near (x : Q) :
  (Qabs (inject_Z (nearest_even x) - x) <= 1 # 2)%Q.
Proof.
  unfold nearest_even.
  pose proof (Qfloor_le x) as L. pose proof (Qlt_floor x) as U.
  rewrite inject_Z_plus in U. change (inject_Z 1) with 1%Q in U.
  apply Qabs_Qle_condition.
  destruct (Qcompare_spec (x - inject_Z (Qfloor x)) (1 # 2)) as [E|E|E].
  - destruct (Z.even (Qfloor x)).
    + split; lra.
    + rewrite inject_Z_plus. change (inject_Z 1) with 1%Q. split; lra.
  - split; lra.
  - rewrite inject_Z_plus. change (inject_Z 1) with 1%Q. split; lra.
Qed.

(** Rounding to a double moves a number by half a unit in the last place
    at most. *)
Lemma to_double_near (q : Q) (k : Z) :
  (0 <= q)%Q -> (q < 2 ^ (k + 1))%Q -> -1074 <= k - 52 ->
  (Qabs (to_double q - q) <= 2 ^ (k - 53))%Q.
Proof.
  intros H0 Hk Hsub. unfold to_double.
  destruct (Qnum q) as [|n|n] eqn:En.
  - assert (q == 0)%Q as -> by (unfold Qeq; simpl; rewrite En; lia).
    setoid_replace (0 - 0)%Q with 0%Q by ring. simpl Qabs.
    apply Qlt_le_weak, pow2_pos.
  - assert (Hq : (0 < q)%Q) by (unfold Qlt; simpl; rewrite En; lia).
    rewrite Qred_correct. unfold ulp.
    pose proof (floor_log2_le q k Hq Hk) as Hl.
    set (e := Z.max (floor_log2 q - 52) (-1074)).
    assert (He : e <= k - 52) by lia.
    pose proof (pow2_pos e) as Pe.
    pose proof (nearest_even_near (q / 2 ^ e)) as N.
    set (m := inject_Z (nearest_even (q / 2 ^ e))) in *.
    setoid_replace (m * 2 ^ e - q)%Q with ((m - q / 2 ^ e) * 2 ^ e)%Q
      by (field; intros Z0; rewrite Z0 in Pe; discriminate).
    rewrite Qabs_Qmult, (Qabs_pos (2 ^ e)) by now apply Qlt_le_weak.
    apply Qle_trans with ((1 # 2) * 2 ^ e)%Q.
    + apply Qmult_le_compat_r; [exact N | now apply Qlt_le_weak].
    + replace (k - 53) with (k - 52 - 1) by lia.
      rewrite Qpower_minus by exact two_nonzero. change (2 ^ 1)%Q with 2%Q.
      pose proof (pow2_le e (k - 52) He) as Hp.
      set (A := (2 ^ e)%Q) in *. set (B := (2 ^ (k - 52))%Q) in *.
      unfold Qdiv. change (/ 2)%Q with (1 # 2)%Q. lra.
  - exfalso. unfold Qle in H0. simpl in H0. rewrite En in H0. lia.
Qed.

Lemma to_double_nonneg (q : Q) : (0 <= q)%Q -> (0 <= to_double q)%Q.
Proof.
  intros H0. unfold to_double.
  destruct (Qnum q) as [|n|n] eqn:En.
  - apply Qle_refl.
  - rewrite Qred_correct.
    assert (Hq : (0 < q)%Q) by (unfold Qlt; simpl; rewrite En; lia).
    unfold ulp. set (e := Z.max (floor_log2 q - 52) (-1074)).
    pose proof (pow2_pos e) as Pe.
    apply Qmult_le_0_compat; [|now apply Qlt_le_weak].
    change 0%Q with (inject_Z 0). rewrite <- Zle_Qle.
    assert (F : 0 <= Qfloor (q / 2 ^ e)).
    { change 0 with (Qfloor 0). apply Qfloor_resp_le.
      apply Qle_shift_div_l; [exact Pe | lra]. }
    unfold nearest_even. destruct (_ ?= _)%Q; [destruct (Z.even _)| |]; lia.
  - exfalso. unfold Qle in H0. simpl in H0. rewrite En in H0. lia.
Qed.

(** Below 128 that is [2^-47]. *)
Lemma to_double_128 (q : Q) :
  (0 <= q)%Q -> (q < 128)%Q ->
  (q - (1 # 140737488355328) <= to_double q <= q + (1 # 140737488355328))%Q.
Proof.
  intros H0 H1.
  pose proof (to_double_near q 6 H0 H1 ltac:(lia)) as H.
  apply Qabs_Qle_condition in H.
  change (2 ^ (6 - 53))%Q with (1 # 140737488355328)%Q in H.
  split; lra.
Qed.

(** The three literals of the weighted scores. *)
Lemma literals :
  to_double 0.7 = (3152519739159347 # 4503599627370496)%Q /\
  to_double 0.3 = (5404319552844595 # 18014398509481984)%Q /\
  to_double 0.4 = (3602879701896397 # 9007199254740992)%Q.
Proof. vm_compute. repeat split. Qed.

(** [Math.round] of a number close to [n / 10]: an integer nearest to
    [n / 10]. *)
Lemma Math_round_tenth (x : Q) (n : Z) :
  (inject_Z n - (1 # 2) < 10 * x)%Q -> (10 * x < inject_Z n + (1 # 2))%Q ->
  10 * Math_round x - 5 <= n <= 10 * Math_round x + 5.
Proof.
  intros L U. unfold Math_round.
  pose proof (Qfloor_le (x + 0.5)) as Fl.
  pose proof (Qlt_floor (x + 0.5)) as Fu.
  set (m := Qfloor (x + 0.5)) in *.
  rewrite inject_Z_plus in Fu. change (inject_Z 1) with 1%Q in Fu.
  assert (A : (inject_Z (10 * m) < inject_Z (n + 6))%Q).
  { rewrite inject_Z_plus, inject_Z_mult.
    change (inject_Z 10) with 10%Q. change (inject_Z 6) with 6%Q. lra. }
  assert (B : (inject_Z n < inject_Z (10 * m + 6))%Q).
  { rewrite inject_Z_plus, inject_Z_mult.
    change (inject_Z 10) with 10%Q. change (inject_Z 6) with 6%Q. lra. }
  rewrite <- Zlt_Qlt in A, B. lia.
Qed.

End DoubleFacts.

(** ** The report: averages, overall score, feedback *)

Module AggregatorFacts.

Import Aggregator Lifecycle.

Lemma fold_left_add h : forall acc,
  fold_left (fun total value => total + value) h acc = acc + total h.
Proof.
  induction h as [|x h IH]; intros acc; simpl.
  - lia.
  - rewrite IH. lia.
Qed.

Lemma sum_total h : sum h = total h.
Proof. unfold sum. now rewrite fold_left_add. Qed.

Lemma calculateAverage_mean h : mean_rounded h (calculateAverage h).
Proof.
  destruct h as [|x h]; [reflexivity|].
  unfold mean_rounded, calculateAverage.
  change (List.length (x :: h) =? 0)%nat with false. cbv iota.
  rewrite sum_total. apply Math_round_nearest. simpl List.length. lia.
Qed.

(** The score is an integer nearest to the weighted sum of three
    percentages: the three products and the two sums are rounded to
    doubles, which moves the sum by less than a twentieth. *)
Lemma overallScore_near a b c :
  percent a -> percent b -> percent c ->
  weighted_near a b c (overallScore a b c).
Proof.
  unfold percent, weighted_near, overallScore, JS.add, JS.mul.
  intros Ha Hb Hc.
  destruct DoubleFacts.literals as (_ & E3 & E4). rewrite E3, E4.
  assert (Ia : (0 <= inject_Z a)%Q /\ (inject_Z a <= 100)%Q).
  { change 0%Q with (inject_Z 0). change 100%Q with (inject_Z 100).
    rewrite <- !Zle_Qle. lia. }
  assert (Ib : (0 <= inject_Z b)%Q /\ (inject_Z b <= 100)%Q).
  { change 0%Q with (inject_Z 0). change 100%Q with (inject_Z 100).
    rewrite <- !Zle_Qle. lia. }
  assert (Ic : (0 <= inject_Z c)%Q /\ (inject_Z c <= 100)%Q).
  { change 0%Q with (inject_Z 0). change 100%Q with (inject_Z 100).
    rewrite <- !Zle_Qle. lia. }
  set (a' := inject_Z a) in *. set (b' := inject_Z b) in *.
  set (c' := inject_Z c) in *.
  set (pa := (a' * (5404319552844595 # 18014398509481984))%Q).
  set (pb := (b' * (3602879701896397 # 9007199254740992))%Q).
  set (pc := (c' * (5404319552844595 # 18014398509481984))%Q).
  pose proof (DoubleFacts.to_double_128 pa ltac:(unfold pa; lra)
                ltac:(unfold pa; lra)) as Ta.
  pose proof (DoubleFacts.to_double_128 pb ltac:(unfold pb; lra)
                ltac:(unfold pb; lra)) as Tb.
  pose proof (DoubleFacts.to_double_128 pc ltac:(unfold pc; lra)
                ltac:(unfold pc; lra)) as Tc.
  pose proof (DoubleFacts.to_double_nonneg pa ltac:(unfold pa; lra)) as Na.
  pose proof (DoubleFacts.to_double_nonneg pb ltac:(unfold pb; lra)) as Nb.
  pose proof (DoubleFacts.to_double_nonneg pc ltac:(unfold pc; lra)) as Nc.
  set (ta := to_double pa) in *. set (tb := to_double pb) in *.
  set (tc := to_double pc) in *.
  unfold pa, pb, pc in Ta, Tb, Tc.
  pose proof (DoubleFacts.to_double_128 (ta + tb) ltac:(lra) ltac:(lra)) as Tab.
  pose proof (DoubleFacts.to_double_nonneg (ta + tb) ltac:(lra)) as Nab.
  set (tab := to_double (ta + tb)) in *.
  pose proof (DoubleFacts.to_double_128 (tab + tc) ltac:(lra) ltac:(lra)) as Tx.
  set (x := to_double (tab + tc)) in *.
  apply DoubleFacts.Math_round_tenth;
    rewrite !inject_Z_plus, !inject_Z_mult; fold a' b' c';
    change (inject_Z 3) with 3%Q; change (inject_Z 4) with 4%Q; lra.
Qed.

Lemma posts_shutdown w : posts (endInterview_shutdown w) = posts w.
Proof.
  unfold endInterview_shutdown.
  destruct (detectionIntervalRef _); reflexivity.
Qed.

Lemma posts_save snap w : posts (endInterview_save snap w) = posts w.
Proof.
  unfold endInterview_save, stopListening.
  destruct (isListening snap); [|reflexivity].
  destruct (speechRecognitionRef _ && true); reflexivity.
Qed.

Lemma posts_submit env snap w :
  posts (endInterview_submit env snap w) = posts w ++ submitted env snap.
Proof.
  unfold endInterview_submit, submitted.
  destruct (interviewData snap) as [data|]; simpl.
  - destruct (truthy_token (token env)); simpl.
    + destruct (response env); reflexivity.
    + now rewrite app_nil_r.
  - now rewrite app_nil_r.
Qed.

Lemma posts_endInterview env snap w :
  posts (endInterview env snap w) = posts w ++ submitted env snap.
Proof.
  unfold endInterview.
  now rewrite posts_submit, posts_save, posts_shutdown.
Qed.

Lemma submitted_data env snap data l :
  l ++ submitted env snap = l ++ [data] -> interviewData snap = Some data.
Proof.
  intros E. apply app_inv_head in E. unfold submitted in E.
  destruct (interviewData snap) as [d|]; [|discriminate].
  destruct (truthy_token (token env)); [|discriminate].
  now injection E as ->.
Qed.

Lemma interviewData_fields snap data :
  interviewData snap = Some data ->
  performance_confidence data = calculateAverage (confidenceHistory snap) /\
  performance_relevance data = calculateAverage (relevanceHistory snap) /\
  performance_communicationSkills data
    = calculateAverage (communicationHistory snap) /\
  score data
    = overallScore (performance_confidence data) (performance_relevance data)
        (performance_communicationSkills data) /\
  feedback_strength data
    = strengthContent
        (strength (performance_confidence data)
           (performance_communicationSkills data)
           (performance_relevance data)) /\
  feedback_improvement data
    = improvementContent
        (improvement (performance_confidence data)
           (performance_communicationSkills data)
           (performance_relevance data)).
Proof.
  unfold interviewData.
  destruct (paddedResponses _ _); [|discriminate].
  intros E. injection E as <-. simpl. repeat split.
Qed.

End AggregatorFacts.

(** ** Claims on the report *)

Module ReportClaims.

Import Aggregator Lifecycle AggregatorFacts.

(** What [endInterview] sends: for each metric the arithmetic mean of the
    history that the closure of the call holds, rounded to the nearest
    integer ([0] for an empty history), and as score an integer nearest to
    [0.3 avgConfidence + 0.4 avgRelevance + 0.3 avgCommunication]. *)
Lemma report_of_closure (env : Env) (snap : State) (w : World)
    (data : InterviewData) :
  posts (endInterview env snap w) = posts w ++ [data] ->
  percent (performance_confidence data) ->
  percent (performance_relevance data) ->
  percent (performance_communicationSkills data) ->
  report_of data (confidenceHistory snap) (relevanceHistory snap)
    (communicationHistory snap).
Proof.
  rewrite posts_endInterview. intros E Pc Pr Pm.
  apply submitted_data in E.
  destruct (interviewData_fields _ _ E) as (Hc & Hr & Hm & Hs & _).
  unfold report_of. rewrite Hs. clear Hs.
  split; [rewrite Hc; apply calculateAverage_mean|].
  split; [rewrite Hr; apply calculateAverage_mean|].
  split; [rewrite Hm; apply calculateAverage_mean|].
  now apply overallScore_near.
Qed.

(** The score of a sum that lies half way: [0.3 * 44 + 0.4 * 81 + 0.3 * 53]
    is 61.5, the doubles add up to a little less, and the score is 61. *)
Example overallScore_half_way :
  overallScore 44 81 53 = 61 /\ ~ weighted_rounded 44 81 53 61.
Proof. split; [vm_compute; reflexivity | unfold weighted_rounded; lia]. Qed.

(** C3, on the page.  An interview of one question, ended by its button
    with a token stored.  The call appends the live scores to the
    histories and then averages the histories of its closure, which are
    still empty: the histories end with one sample each, the report
    carries zeros, and its relevance is not the mean of the relevance
    history. *)
Theorem terminal_sample_not_averaged :
  exists w data,
    Session.run Examples.one_question (Session.initialWorld true) = Some w /\
    posts w = [data] /\
    histories (comp w) = ([0], [67], [40]) /\
    (performance_confidence data, performance_relevance data,
     performance_communicationSkills data, score data) = (0, 0, 0, 0) /\
    ~ mean_rounded (relevanceHistory (comp w)) (performance_relevance data).
Proof.
  destruct (Session.run Examples.one_question (Session.initialWorld true))
    as [w|] eqn:R; [|vm_compute in R; discriminate].
  assert (Hh : histories (comp w) = ([0], [67], [40])).
  { vm_compute in R. injection R as <-. reflexivity. }
  assert (Hp : map (fun d => (performance_confidence d, performance_relevance d,
                              performance_communicationSkills d, score d))
                 (posts w) = [(0, 0, 0, 0)]).
  { vm_compute in R. injection R as <-. reflexivity. }
  destruct (posts w) as [|data [|]] eqn:P; try discriminate.
  exists w, data. split; [reflexivity|]. split; [exact P|].
  split; [exact Hh|]. injection Hp as Hc Hr Hm Hs.
  split; [now rewrite Hc, Hr, Hm, Hs|].
  unfold histories in Hh. injection Hh as _ Hh _. rewrite Hh, Hr.
  unfold mean_rounded, nearest. simpl. lia.
Qed.

(** The two feedback conditionals, as order facts. *)
Lemma strength_cases a c r :
  (strength a c r = Confidence /\ c < a /\ r < a) \/
  (strength a c r = Communication /\ a <= c /\ r < c) \/
  (strength a c r = Relevance /\ a <= r /\ c <= r).
Proof.
  unfold strength. rewrite !Z.gtb_ltb.
  destruct (Z.ltb_spec c a), (Z.ltb_spec r a), (Z.ltb_spec r c);
    simpl; intuition lia.
Qed.

Lemma improvement_cases a c r :
  (improvement a c r = Confidence /\ a < c /\ a < r) \/
  (improvement a c r = Communication /\ c <= a /\ c < r) \/
  (improvement a c r = Relevance /\ r <= a /\ r <= c).
Proof.
  unfold improvement.
  destruct (Z.ltb_spec a c), (Z.ltb_spec a r), (Z.ltb_spec c r);
    simpl; intuition lia.
Qed.

(** C9, as the code has it.  The strength line names a highest average and
    the improvement line a lowest one; among equal averages relevance is
    named before communication, and communication before confidence. *)
Theorem feedback_tie_order (avgConfidence avgCommunication avgRelevance : Z) :
  feedback_by [Relevance; Communication; Confidence]
    avgConfidence avgCommunication avgRelevance.
Proof.
  unfold feedback_by, pick, average_of. split.
  - destruct (strength_cases avgConfidence avgCommunication avgRelevance)
      as [(-> & ? & ?) | [(-> & ? & ?) | (-> & ? & ?)]];
      repeat match goal with
             | |- context [?x =? ?y] => destruct (Z.eqb_spec x y)
             end; try reflexivity; lia.
  - destruct (improvement_cases avgConfidence avgCommunication avgRelevance)
      as [(-> & ? & ?) | [(-> & ? & ?) | (-> & ? & ?)]];
      repeat match goal with
             | |- context [?x =? ?y] => destruct (Z.eqb_spec x y)
             end; try reflexivity; lia.
Qed.

(** C9, as the claim has it: with three equal averages the order
    confidence, communication, relevance would name confidence twice; the
    code names relevance twice. *)
Lemma feedback_claimed_order_fails :
  ~ feedback_by [Confidence; Communication; Relevance] 50 50 50.
Proof. unfold feedback_by. simpl. intros [E _]. discriminate E. Qed.

End ReportClaims.

(** ** Histories along the handlers *)

Module HistoryFacts.

Import Aggregator Lifecycle AggregatorFacts Session.

Ltac break_match :=
  match goal with
  | |- context [match ?x with _ => _ end] => destruct x eqn:?
  end.

Ltac by_cases := repeat break_match; try reflexivity.

Lemma histories_saveCurrentMetrics snap st :
  histories (saveCurrentMetrics snap st) = push (histories st) (sample snap).
Proof. reflexivity. Qed.

Lemma histories_shutdown w :
  histories (comp (endInterview_shutdown w)) = histories (comp w).
Proof. unfold endInterview_shutdown. by_cases. Qed.

Lemma histories_save snap w :
  histories (comp (endInterview_save snap w))
  = push (histories (comp w)) (sample snap).
Proof. unfold endInterview_save, stopListening. by_cases. Qed.

Lemma histories_submit env snap w :
  histories (comp (endInterview_submit env snap w)) = histories (comp w).
Proof. unfold endInterview_submit. by_cases. Qed.

Lemma histories_endInterview env snap w :
  histories (comp (endInterview env snap w))
  = push (histories (comp w)) (sample snap).
Proof.
  unfold endInterview.
  now rewrite histories_submit, histories_save, histories_shutdown.
Qed.

Lemma histories_nextQuestion env snap w :
  histories (comp (nextQuestion env snap w))
  = if Z.of_nat (currentQuestion snap)
       <? Z.of_nat (List.length (questions snap)) - 1
    then push (histories (comp w)) (sample snap)
    else push (push (histories (comp w)) (sample snap)) (sample snap).
Proof.
  unfold nextQuestion.
  destruct (_ <? _); [reflexivity|].
  now rewrite histories_endInterview.
Qed.

Lemma histories_settled snap d st :
  histories (Perception.detectFace_settled snap d st) = histories st.
Proof.
  unfold Perception.detectFace_settled, Perception.face_present,
    Perception.no_face, Perception.detection_failed.
  by_cases.
Qed.

Lemma histories_begin snap video st :
  histories (fst (Perception.detectFace_begin snap video st)) = histories st.
Proof. unfold Perception.detectFace_begin. by_cases. Qed.

Lemma histories_detectFace snap video d st :
  histories (Perception.detectFace snap video d st) = histories st.
Proof.
  unfold Perception.detectFace.
  pose proof (histories_begin snap video st) as E.
  destruct (Perception.detectFace_begin snap video st) as [st1 in_flight].
  simpl in E. destruct in_flight; [|exact E].
  now rewrite histories_settled.
Qed.

Lemma histories_scoringEffect st st' :
  Scoring.scoringEffect st = Some st' -> histories st' = histories st.
Proof.
  unfold Scoring.scoringEffect. by_cases; intros E; inversion E; reflexivity.
Qed.

Lemma histories_scoring w w' :
  scoring w = Some w' -> histories (comp w') = histories (comp w).
Proof.
  unfold scoring. destruct (Scoring.scoringEffect (comp w)) eqn:E; [|discriminate].
  intros H. inversion H. simpl. now apply histories_scoringEffect.
Qed.

Lemma histories_timerEffect env w :
  exists xs, histories (comp (timerEffect env w))
             = push_all (histories (comp w)) xs.
Proof.
  unfold timerEffect. destruct (_ <=? _).
  - exists [sample (comp w)]. now rewrite histories_endInterview.
  - now exists [].
Qed.

Lemma histories_onresult t st : histories (onresult t st) = histories st.
Proof. unfold onresult. by_cases. Qed.

Lemma histories_handleThinkingTime snap w :
  histories (comp (handleThinkingTime snap w)) = histories (comp w).
Proof. unfold handleThinkingTime, stopListening. by_cases. Qed.

Lemma histories_toggleRecording snap w :
  histories (comp (toggleRecording snap w)) = histories (comp w).
Proof. unfold toggleRecording, stopListening, startListening. by_cases. Qed.

Lemma histories_toggleCamera snap st :
  histories (toggleCamera snap st) = histories st.
Proof. unfold toggleCamera. by_cases. Qed.

(** What one handler does to the histories. *)
Lemma histories_handle e w w' :
  handle e w = Some w' ->
  exists xs, histories (comp w') = push_all (histories (comp w)) xs /\
             (may_append e = false -> xs = []).
Proof.
  destruct e; simpl; intros H.
  - inversion H; subst; clear H.
    destruct (histories_timerEffect env (on_comp (setRemainingTime (duration * 60)) w))
      as [xs E].
    exists xs. split; [exact E | discriminate].
  - apply histories_scoring in H. exists []. split; [exact H | reflexivity].
  - exists []. destruct ok; inversion H; split; reflexivity.
  - exists []. inversion H; split; reflexivity.
  - destruct (_ <=? _); [discriminate|]. inversion H; subst; clear H.
    destruct (histories_timerEffect env
                (on_comp (fun st => setRemainingTime (remainingTime st - 1) st) w))
      as [xs E].
    exists xs. split; [exact E | discriminate].
  - apply histories_scoring in H. exists []. split; [exact H | reflexivity].
  - apply histories_scoring in H. exists []. split; [|reflexivity].
    rewrite H. simpl. apply histories_onresult.
  - exists []. inversion H; split; [|reflexivity].
    simpl. apply histories_detectFace.
  - destruct (_ && _); [|discriminate].
    exists []. inversion H; split; reflexivity.
  - destruct (isThinking _); [discriminate|].
    exists []. inversion H; split; [|reflexivity].
    apply histories_handleThinkingTime.
  - exists []. inversion H; split; [|reflexivity].
    apply histories_toggleRecording.
  - exists []. inversion H; split; [|reflexivity].
    simpl. apply histories_toggleCamera.
  - destruct (_ || _); [discriminate|].
    pose proof (histories_nextQuestion env (comp w) w) as E.
    destruct (_ <? _).
    + apply histories_scoring in H. rewrite E in H.
      exists [sample (comp w)]. split; [exact H | discriminate].
    + inversion H; subst; clear H.
      exists [sample (comp w); sample (comp w)]. split; [exact E | discriminate].
  - destruct (loading _); [discriminate|]. inversion H; subst; clear H.
    exists [sample (comp w)]. split; [|discriminate].
    apply histories_endInterview.
Qed.

Lemma histories_step e w w' :
  step e w = Some w' ->
  exists xs, histories (comp w') = push_all (histories (comp w)) xs /\
             (may_append e = false -> xs = []).
Proof.
  unfold step. destruct (handle e w) as [w1|] eqn:E; [|discriminate].
  intros H. inversion H; subst; clear H. simpl.
  now apply histories_handle.
Qed.

Lemma aligned_push hs x : aligned hs -> aligned (push hs x).
Proof.
  destruct hs as [[h1 h2] h3], x as [[a b] c]. simpl.
  rewrite !length_app. simpl. lia.
Qed.

Lemma aligned_push_all xs : forall hs, aligned hs -> aligned (push_all hs xs).
Proof.
  induction xs as [|x xs IH]; intros hs H; simpl; [exact H|].
  apply IH. now apply aligned_push.
Qed.

Lemma aligned_run es : forall w w',
  run es w = Some w' -> aligned (histories (comp w)) ->
  aligned (histories (comp w')).
Proof.
  induction es as [|e es IH]; intros w w' H A; simpl in H.
  - now inversion H; subst.
  - destruct (step e w) as [w1|] eqn:E; [|discriminate].
    apply (IH _ _ H).
    destruct (histories_step _ _ _ E) as (xs & -> & _).
    now apply aligned_push_all.
Qed.

End HistoryFacts.

(** ** Claims on the lifecycle *)

Module LifecycleClaims.

Import Aggregator Lifecycle AggregatorFacts HistoryFacts Session.

Lemma cursor_endInterview env snap w :
  currentQuestion (comp (endInterview env snap w)) = currentQuestion (comp w)
  /\ questions (comp (endInterview env snap w)) = questions (comp w).
Proof.
  unfold endInterview, endInterview_submit, endInterview_save,
    endInterview_shutdown, stopListening.
  by_cases; split; reflexivity.
Qed.

(** C1, as the code has it.  [endInterview] has no guard against a second
    call: every call appends one sample to each of the three histories and
    sends one POST when a token is stored and the report can be built.  Two
    calls therefore append two samples and send what both of them build,
    whether the second call follows the first or starts while the first
    waits after setting the shutdown flag. *)
Theorem endInterview_twice (env1 env2 : Env) (snap1 snap2 : State) (w : World) :
  let w1 := endInterview env1 snap1 w in
  let w2 := endInterview env2 snap2 w1 in
  let wr := endInterview_submit env1 snap1
              (endInterview_save snap1
                 (endInterview env2 snap2 (endInterview_shutdown w))) in
  histories (comp w1) = push (histories (comp w)) (sample snap1) /\
  posts w1 = posts w ++ submitted env1 snap1 /\
  histories (comp w2)
  = push (push (histories (comp w)) (sample snap1)) (sample snap2) /\
  posts w2 = posts w ++ submitted env1 snap1 ++ submitted env2 snap2 /\
  histories (comp wr)
  = push (push (histories (comp w)) (sample snap2)) (sample snap1) /\
  posts wr = posts w ++ submitted env2 snap2 ++ submitted env1 snap1.
Proof.
  cbv zeta.
  rewrite !histories_endInterview, !posts_endInterview.
  rewrite histories_submit, histories_save, histories_endInterview,
    histories_shutdown.
  rewrite posts_submit, posts_save, posts_endInterview, posts_shutdown.
  rewrite <- !app_assoc. repeat split.
Qed.

(** C1, as the claim has it: on the last question, with a stored token,
    two calls leave two samples more in each history and two POSTs. *)
Lemma endInterview_not_idempotent :
  ~ end_idempotent Examples.signed_in Examples.on_last_question.
Proof.
  unfold end_idempotent. cbv zeta. intros (H & _).
  vm_compute in H. discriminate H.
Qed.

Example endInterview_twice_counts :
  let w1 := endInterview Examples.signed_in (comp Examples.on_last_question)
              Examples.on_last_question in
  let w2 := endInterview Examples.signed_in (comp w1) w1 in
  let ws := endInterview_shutdown Examples.on_last_question in
  let wr := endInterview Examples.signed_in (comp ws) ws in
  history_lengths (comp w2) = (2, 2, 2)%nat /\
  List.length (posts w2) = 2%nat /\
  routes w2 = ["/results/42"; "/results/42"]%string /\
  isShuttingDown (comp ws) = true /\
  history_lengths (comp wr) = (1, 1, 1)%nat /\
  List.length (posts wr) = 1%nat.
Proof. vm_compute. repeat split. Qed.

(** C8.  [nextQuestion], with the closure of the latest render: below the
    last index it moves the cursor by one and empties the answer and the
    transcript; on the last index it is [endInterview] after the two saves
    and leaves the cursor where it is.  A cursor that was on a question is
    on a question afterwards. *)
Theorem nextQuestion_cursor (env : Env) (w : World) :
  let snap := comp w in
  let w' := nextQuestion env snap w in
  questions snap <> [] ->
  ((currentQuestion snap + 1 < List.length (questions snap))%nat ->
   currentQuestion (comp w') = (currentQuestion snap + 1)%nat /\
   userAnswer (comp w') = ""%string /\
   speechToText (comp w') = ""%string) /\
  ((currentQuestion snap + 1 = List.length (questions snap))%nat ->
   w' = endInterview env snap
          (on_comp (saveCurrentMetrics snap)
             (on_comp (saveAnswerForCurrentQuestion snap) w)) /\
   currentQuestion (comp w') = currentQuestion snap) /\
  ((currentQuestion snap < List.length (questions snap))%nat ->
   (currentQuestion (comp w') < List.length (questions (comp w')))%nat).
Proof.
  cbv zeta. intros _. unfold nextQuestion.
  destruct (Z.ltb_spec (Z.of_nat (currentQuestion (comp w)))
              (Z.of_nat (List.length (questions (comp w))) - 1)) as [Hlt|Hge].
  - split; [|split].
    + intros _. repeat split.
    + intros E. lia.
    + intros _. simpl. lia.
  - destruct (cursor_endInterview env (comp w)
                (on_comp (saveCurrentMetrics (comp w))
                   (on_comp (saveAnswerForCurrentQuestion (comp w)) w)))
      as [Ec Eq].
    split; [|split].
    + intros E. lia.
    + intros _. split; [reflexivity | exact Ec].
    + intros Hin. rewrite Ec, Eq. exact Hin.
Qed.

Lemma nextQuestion_cursor_witness :
  currentQuestion
    (comp (nextQuestion Examples.signed_in (comp Examples.answering)
             Examples.answering)) = 1%nat /\
  currentQuestion
    (comp (nextQuestion Examples.signed_in (comp Examples.on_last_question)
             Examples.on_last_question)) = 1%nat.
Proof.
  split.
  - refine (proj1 (proj1 (nextQuestion_cursor Examples.signed_in
                            Examples.answering _) _)).
    + discriminate.
    + simpl. lia.
  - refine (proj2 (proj1 (proj2 (nextQuestion_cursor Examples.signed_in
                                   Examples.on_last_question _)) _)).
    + discriminate.
    + reflexivity.
Defined.

(** C10.  In every state the session can reach the three histories have
    the same length; a step from it appends whole samples, the same number
    to each history, and appends none unless its handler reaches
    [saveCurrentMetrics], which appends exactly one to each. *)
Theorem histories_equal_length (w : World) :
  reachable w ->
  aligned (histories (comp w)) /\
  (forall snap,
      histories (saveCurrentMetrics snap (comp w))
      = push (histories (comp w)) (sample snap)) /\
  (forall e w',
      step e w = Some w' ->
      exists xs,
        histories (comp w') = push_all (histories (comp w)) xs /\
        (may_append e = false -> xs = [])).
Proof.
  intros (speech & es & R). split; [|split].
  - apply (aligned_run es _ _ R). simpl. split; reflexivity.
  - intros snap. apply histories_saveCurrentMetrics.
  - intros e w'. apply histories_step.
Qed.

Lemma histories_equal_length_witness :
  aligned (histories (comp Examples.after_first_answer)).
Proof.
  refine (proj1 (histories_equal_length Examples.after_first_answer _)).
  exists true, Examples.first_answer. vm_compute. reflexivity.
Defined.

End LifecycleClaims.

(** ** Claims on the perception loop *)

Module PerceptionClaims.

Import Perception Lifecycle HistoryFacts.

Lemma Expression_eqb_eq a b : Expression_eqb a b = true <-> a = b.
Proof. destruct a, b; simpl; split; intros H; congruence. Qed.

(** The smoothed score is an integer nearest to [0.7 raw + 0.3 previous]:
    the two products and their sum are rounded to doubles, which moves the
    sum by less than a twentieth. *)
Lemma newScore_near raw prev :
  percent raw -> 0 <= prev <= 100 ->
  smoothed_near raw prev (newScore raw prev).
Proof.
  unfold percent, smoothed_near, newScore. intros Hr Hp.
  destruct (Z.ltb_spec 0 prev) as [Hlt|Hge]; split; intros H; try lia.
  unfold JS.add, JS.mul.
  destruct DoubleFacts.literals as (E7 & E3 & _). rewrite E7, E3.
  assert (Ir : (0 <= inject_Z raw)%Q /\ (inject_Z raw <= 100)%Q).
  { change 0%Q with (inject_Z 0). change 100%Q with (inject_Z 100).
    rewrite <- !Zle_Qle. lia. }
  assert (Ip : (0 <= inject_Z prev)%Q /\ (inject_Z prev <= 100)%Q).
  { change 0%Q with (inject_Z 0). change 100%Q with (inject_Z 100).
    rewrite <- !Zle_Qle. lia. }
  set (r' := inject_Z raw) in *. set (p' := inject_Z prev) in *.
  set (pr := ((3152519739159347 # 4503599627370496) * r')%Q).
  set (pp := ((5404319552844595 # 18014398509481984) * p')%Q).
  pose proof (DoubleFacts.to_double_128 pr ltac:(unfold pr; lra)
                ltac:(unfold pr; lra)) as Tr.
  pose proof (DoubleFacts.to_double_128 pp ltac:(unfold pp; lra)
                ltac:(unfold pp; lra)) as Tp.
  pose proof (DoubleFacts.to_double_nonneg pr ltac:(unfold pr; lra)) as Nr.
  pose proof (DoubleFacts.to_double_nonneg pp ltac:(unfold pp; lra)) as Np.
  set (tr := to_double pr) in *. set (tp := to_double pp) in *.
  unfold pr, pp in Tr, Tp.
  pose proof (DoubleFacts.to_double_128 (tr + tp) ltac:(lra) ltac:(lra)) as Tx.
  set (x := to_double (tr + tp)) in *.
  apply DoubleFacts.Math_round_tenth;
    rewrite !inject_Z_plus, !inject_Z_mult; fold r' p';
    change (inject_Z 7) with 7%Q; change (inject_Z 3) with 3%Q; lra.
Qed.

Lemma confidence_face_present snap firstFace st :
  confidenceScore (face_present snap firstFace st)
  = boundedScore (newScore (rawScore firstFace) (confidenceScore snap)).
Proof.
  unfold face_present, rawScore.
  destruct (dominant firstFace) as [maxExpression maxValue]. simpl fst. simpl snd.
  by_cases.
Qed.

Lemma begin_in_flight snap v st :
  skips snap (Some v) = false -> no_dimensions v = false ->
  detectFace_begin snap (Some v) st = (st, true).
Proof. unfold detectFace_begin. now intros -> ->. Qed.

(** What a sample with a face does to the confidence: the raw score of
    the face is smoothed against the confidence that the closure of the
    call holds, not against the confidence of the state, and clamped. *)
Lemma face_present_through (snap : State) (v : Video) (firstFace : Face)
    (others : list Face) (st : State) :
  skips snap (Some v) = false ->
  no_dimensions v = false ->
  confidenceScore (detectFace snap (Some v) (Faces (firstFace :: others)) st)
  = clamp 10 100 (newScore (rawScore firstFace) (confidenceScore snap)).
Proof.
  intros Hs Hd. unfold detectFace.
  rewrite (begin_in_flight _ _ _ Hs Hd). cbv iota. simpl detectFace_settled.
  apply confidence_face_present.
Qed.

(** What a sample without a face does: the confidence is set to zero
    unless the closure holds a confidence of zero, the expression to
    [unknown] unless the closure holds [unknown], and the counter is
    lowered by one, not below zero. *)
Lemma no_face_through (snap : State) (v : Video) (st : State) :
  skips snap (Some v) = false ->
  no_dimensions v = false ->
  perception (detectFace snap (Some v) (Faces []) st)
  = (if confidenceScore snap =? 0 then confidenceScore st else 0,
     if Expression_eqb (facialExpression snap) unknown
     then facialExpression st else unknown,
     Z.max 0 (faceDetectionSuccess st - 1)).
Proof.
  intros Hs Hd. unfold detectFace.
  rewrite (begin_in_flight _ _ _ Hs Hd). cbv iota.
  unfold detectFace_settled, no_face, perception.
  destruct (confidenceScore snap =? 0);
    destruct (Expression_eqb (facialExpression snap) unknown); reflexivity.
Qed.

(** The example of the smoothing rule, for a closure that holds the
    confidence of 60; and a sum that lies half way:
    [0.7 * 63 + 0.3 * 58] is 61.5, the doubles add up to a little less,
    and the score is 61. *)
Example newScore_examples :
  newScore 90 60 = 81 /\ newScore 63 58 = 61 /\ ~ smoothed 63 58 61.
Proof.
  split; [vm_compute; reflexivity|]. split; [vm_compute; reflexivity|].
  unfold smoothed, nearest. intros [_ H]. specialize (H ltac:(lia)). lia.
Qed.

(** C4, on the page.  The models load with the camera on and the
    intervals are registered, with a confidence of zero in the closure of
    their callbacks.  The first sample finds a happy face and sets the
    confidence to its raw score, 88.  The second finds a neutral face of
    raw score 50: the callback still holds the confidence of zero, so it
    does not smooth and sets 50, where [0.7 * 50 + 0.3 * 88] is 61.4. *)
Theorem smoothing_reads_stale_closure :
  exists p1 p2,
    Page.run Examples.first_sample (Page.initialPage true) = Some p1 /\
    Page.act (Page.Sample (Some Examples.camera) (Faces [Examples.composed]))
      p1 = Some p2 /\
    confidenceScore (comp (Page.world p1)) = 88 /\
    rawScore Examples.composed = 50 /\
    confidenceScore (comp (Page.world p2)) = 50 /\
    ~ smoothed_near (rawScore Examples.composed)
        (confidenceScore (comp (Page.world p1)))
        (confidenceScore (comp (Page.world p2))).
Proof.
  destruct (Page.run Examples.first_sample (Page.initialPage true))
    as [p1|] eqn:R1; [|vm_compute in R1; discriminate].
  destruct (Page.act
              (Page.Sample (Some Examples.camera) (Faces [Examples.composed]))
              p1) as [p2|] eqn:R2;
    [|vm_compute in R1; injection R1 as <-; vm_compute in R2; discriminate].
  assert (H1 : confidenceScore (comp (Page.world p1)) = 88).
  { vm_compute in R1. injection R1 as <-. reflexivity. }
  assert (H2 : confidenceScore (comp (Page.world p2)) = 50).
  { vm_compute in R1. injection R1 as <-. vm_compute in R2.
    injection R2 as <-. reflexivity. }
  assert (H3 : rawScore Examples.composed = 50) by (vm_compute; reflexivity).
  exists p1, p2. repeat (split; [reflexivity || assumption|]).
  rewrite H1, H2, H3. unfold smoothed_near. intros [_ H].
  specialize (H ltac:(lia)). lia.
Qed.

(** C5, on the page.  After the same first sample the confidence is 88
    and the face counts once.  A sample without a face follows: the
    callback holds the confidence of zero of its registration, skips
    [setConfidenceScore(0)], and leaves the 88; the expression becomes
    [unknown] and the counter zero. *)
Theorem no_face_reads_stale_closure :
  exists p1 p2,
    Page.run Examples.first_sample (Page.initialPage true) = Some p1 /\
    Page.act (Page.Sample (Some Examples.camera) (Faces [])) p1 = Some p2 /\
    perception (comp (Page.world p1)) = (88, happy, 1) /\
    perception (comp (Page.world p2)) = (88, unknown, 0).
Proof.
  destruct (Page.run Examples.first_sample (Page.initialPage true))
    as [p1|] eqn:R1; [|vm_compute in R1; discriminate].
  destruct (Page.act (Page.Sample (Some Examples.camera) (Faces [])) p1)
    as [p2|] eqn:R2;
    [|vm_compute in R1; injection R1 as <-; vm_compute in R2; discriminate].
  exists p1, p2. split; [reflexivity|]. split; [exact R2|].
  vm_compute in R1. injection R1 as <-. vm_compute in R2.
  injection R2 as <-. split; reflexivity.
Qed.

(** C2, as the code has it.  The flags are read once, at the head of
    [detectFace] and from its closure: a call whose closure holds
    [isShuttingDown] or no [cameraActive] returns at once and changes
    nothing.  A detection already in flight is not looked at again: when it
    settles, its result goes into the perception cells as it would have
    without the shutdown. *)
Theorem detectFace_guard (snap : State) (video : option Video) (d : Detection)
    (st : State) :
  (isShuttingDown snap = true \/ cameraActive snap = false ->
   detectFace snap video d st = st) /\
  perception
    (detectFace_settled snap d (setCameraActive false (setIsShuttingDown true st)))
  = perception (detectFace_settled snap d st).
Proof.
  split.
  - intros H. unfold detectFace, detectFace_begin, skips.
    destruct H as [-> | ->]; [reflexivity|].
    now rewrite !orb_true_r.
  - unfold detectFace_settled, face_present, no_face, detection_failed.
    by_cases.
Qed.

Lemma detectFace_guard_witness :
  detectFace (setIsShuttingDown true (Examples.watching 60))
    (Some Examples.camera) (Faces [Examples.smiling]) (Examples.watching 60)
  = Examples.watching 60.
Proof.
  apply (proj1 (detectFace_guard (setIsShuttingDown true (Examples.watching 60))
                  (Some Examples.camera) (Faces [Examples.smiling])
                  (Examples.watching 60))).
  left. reflexivity.
Defined.

(** C2, as the claim has it: a detection begun while the loop was running
    settles after [endInterview] has set both flags, and the confidence
    moves from 60 to 81. *)
Lemma in_flight_sample_applied :
  ~ discarded_on_completion (Examples.watching 60) (Some Examples.camera)
      (Faces [Examples.smiling])
      (comp (endInterview_shutdown
               (on_comp (fun _ => Examples.watching 60)
                  (Session.initialWorld true)))).
Proof.
  unfold discarded_on_completion. intros H.
  specialize (H eq_refl (or_introl eq_refl)).
  vm_compute in H. discriminate H.
Qed.

End PerceptionClaims.

(** ** Claims on the textual scores *)

Module ScoringClaims.

Import Communication Scoring.

Local Open Scope string_scope.

Lemma startsWith_prefix t : forall s,
  Str.startsWith s t = true <-> exists b, s = t ++ b.
Proof.
  induction t as [|c t IH]; intros s; simpl.
  - split; [intros _; now exists s | reflexivity].
  - destruct s as [|a s].
    + split; [discriminate | intros [b E]; discriminate E].
    + rewrite andb_true_iff, IH. split.
      * intros [Ec [b ->]]. apply Ascii.eqb_eq in Ec. subst. now exists b.
      * intros [b E]. injection E as -> ->. split.
        -- apply Ascii.eqb_refl.
        -- now exists b.
Qed.

Lemma includes_occurs s : forall t, Str.includes s t = true <-> occurs t s.
Proof.
  unfold occurs. induction s as [|a s IH]; intros t.
  - simpl. rewrite orb_false_r, startsWith_prefix. split.
    + intros [b E]. now exists "", b.
    + intros [x [b E]]. destruct x; [now exists b | discriminate E].
  - cbn [Str.includes]. rewrite orb_true_iff, startsWith_prefix, IH. split.
    + intros [[b E] | [x [b E]]].
      * now exists "", b.
      * exists (String a x), b. simpl. now rewrite E.
    + intros [x [b E]]. destruct x as [|a' x].
      * left. now exists b.
      * right. simpl in E. injection E as -> E. now exists x, b.
Qed.

Lemma matchedPhrases_count userAnswer keyPhrases :
  matchedPhrases userAnswer keyPhrases
  = Z.of_nat (List.length (matched userAnswer keyPhrases)).
Proof.
  unfold matchedPhrases, matched.
  set (hit := fun phrase =>
                Str.includes (Str.toLowerCase userAnswer) (Str.toLowerCase phrase)).
  enough (G : forall acc,
             fold_left (fun m phrase => if hit phrase then m + 1 else m)
               keyPhrases acc
             = acc + Z.of_nat (List.length (filter hit keyPhrases)))
    by (rewrite G; lia).
  induction keyPhrases as [|p ps IH]; intros acc; simpl.
  - lia.
  - rewrite IH. destruct (hit p); simpl List.length; lia.
Qed.

Lemma matched_le userAnswer keyPhrases :
  (List.length (matched userAnswer keyPhrases) <= List.length keyPhrases)%nat.
Proof. apply filter_length_le. Qed.

Lemma newRelevanceScore_rounded userAnswer keyPhrases :
  keyPhrases <> [] ->
  exists r,
    newRelevanceScore userAnswer keyPhrases = Some (clamp 0 100 r) /\
    relevance_rounded userAnswer keyPhrases r.
Proof.
  intros Hk. unfold newRelevanceScore, relevance_rounded, JS.div, Math_min.
  rewrite matchedPhrases_count.
  set (m := Z.of_nat (List.length (matched userAnswer keyPhrases))).
  set (M := Z.min 5 (Z.of_nat (List.length keyPhrases))).
  assert (HM : 0 < M).
  { unfold M. destruct keyPhrases; [congruence | simpl List.length; lia]. }
  assert (Hm : 0 <= m) by (unfold m; lia).
  destruct (Z.eqb_spec M 0) as [E|_]; [lia|].
  assert (R : Math_round (inject_Z m / inject_Z M * 100)%Q
              = (2 * (100 * m) + M) / (2 * M)).
  { rewrite <- Math_round_div by exact HM. unfold Math_round.
    apply Qfloor_comp. rewrite inject_Z_mult. field.
    intros E. unfold Qeq in E. simpl in E. lia. }
  exists ((2 * (100 * m) + M) / (2 * M)). split.
  - rewrite R. f_equal. unfold clamp.
    assert (0 <= (2 * (100 * m) + M) / (2 * M)) by (apply Z.div_pos; lia).
    lia.
  - now apply nearest_div.
Qed.

Lemma scoringEffect_answered st q :
  userAnswer st <> "" ->
  nth_error (questions st) (currentQuestion st) = Some q ->
  scoringEffect st
  = match newRelevanceScore (userAnswer st) (keyPhrases q) with
    | Some score =>
        Some (setRelevanceScore score
                (setCommunicationScore (evaluateCommunication (userAnswer st)) st))
    | None => None
    end.
Proof.
  intros Ha Hq. unfold scoringEffect.
  destruct (userAnswer st) as [|c a] eqn:Ea; [congruence|].
  destruct (questions st) as [|q0 qs] eqn:Eq;
    [destruct (currentQuestion st); discriminate Hq|].
  simpl negb. simpl orb. cbv iota. now rewrite Hq.
Qed.

(** C6.  An empty answer scores a relevance of zero.  For an answer that is
    not empty and a current question with key phrases, the relevance is
    [100 * matchedCount / min(5, keyPhrases.length)] rounded to the nearest
    integer and clamped to [0, 100], where the matched phrases are the key
    phrases that occur in the answer once both are lower-cased, each
    counted once.  The answer of the example scores 67 against [state],
    [hook], [effect]. *)
Theorem relevance_score (st : State) :
  (userAnswer st = "" ->
   exists st', scoringEffect st = Some st' /\ relevanceScore st' = 0) /\
  (forall q,
      userAnswer st <> "" ->
      nth_error (questions st) (currentQuestion st) = Some q ->
      keyPhrases q <> [] ->
      (exists st' r,
          scoringEffect st = Some st' /\
          relevance_rounded (userAnswer st) (keyPhrases q) r /\
          relevanceScore st' = clamp 0 100 r) /\
      (forall phrase,
          In phrase (matched (userAnswer st) (keyPhrases q)) <->
          In phrase (keyPhrases q) /\
          occurs (Str.toLowerCase phrase) (Str.toLowerCase (userAnswer st))) /\
      (List.length (matched (userAnswer st) (keyPhrases q))
       <= List.length (keyPhrases q))%nat /\
      (userAnswer st = " react hooks are great for state management" ->
       keyPhrases q = ["state"; "hook"; "effect"] ->
       exists st', scoringEffect st = Some st' /\ relevanceScore st' = 67)).
Proof.
  split.
  - intros E. unfold scoringEffect. rewrite E. simpl.
    eexists. split; reflexivity.
  - intros q Ha Hq Hk.
    pose proof (scoringEffect_answered st q Ha Hq) as S.
    split; [|split; [|split]].
    + destruct (newRelevanceScore_rounded (userAnswer st) (keyPhrases q) Hk)
        as (r & E & R).
      rewrite E in S. eexists. exists r. split; [exact S|]. split; [exact R|].
      reflexivity.
    + intros phrase. unfold matched. rewrite filter_In, includes_occurs.
      reflexivity.
    + apply matched_le.
    + intros Ea Ek. rewrite Ea, Ek in S.
      change (newRelevanceScore " react hooks are great for state management"
                ["state"; "hook"; "effect"]) with (Some 67) in S.
      eexists. split; [exact S | reflexivity].
Qed.

Lemma relevance_score_witness :
  exists st',
    scoringEffect (Lifecycle.comp Examples.answering) = Some st' /\
    relevanceScore st' = 67.
Proof.
  refine (proj2 (proj2 (proj2 (proj2 (relevance_score
                                        (Lifecycle.comp Examples.answering))
                                 (Examples.hooks_question
                                    ["state"; "hook"; "effect"])
                                 _ _ _))) _ _);
    try reflexivity; discriminate.
Defined.

(** A question without key phrases divides zero by zero. *)
Example no_key_phrases : newRelevanceScore "state management" [] = None.
Proof. reflexivity. Qed.

Lemma tally_grammarIssues text : tally text grammarIssues = penalties text.
Proof. unfold tally, grammarIssues, penalties. cbn [fold_left pattern weight]. lia. Qed.

Lemma tally_positiveIndicators text :
  tally text positiveIndicators = bonuses text.
Proof. unfold tally, positiveIndicators, bonuses. cbn [fold_left pattern weight]. lia. Qed.

Lemma evaluateCommunication_formula text :
  text <> "" -> evaluateCommunication text = communication_formula text.
Proof.
  intros Ht. unfold evaluateCommunication, communication_formula.
  destruct text as [|c text]; [congruence|].
  cbn [Str.truthy negb]. cbv iota.
  rewrite tally_grammarIssues, tally_positiveIndicators.
  unfold clamp, Math_max, Math_min. reflexivity.
Qed.

(** C7, as the code has it.  For a text that is not empty the score is
    [70 - penalties + bonuses], lowered to 40 when the text has fewer than
    50 characters, then clamped to [0, 100]; the empty text scores 0.  So a
    text under 50 characters never scores above 40, and every score lies in
    [0, 100]. *)
Theorem communication_score (text : string) :
  (text <> "" -> evaluateCommunication text = communication_formula text) /\
  evaluateCommunication "" = 0 /\
  ((String.length text < 50)%nat -> evaluateCommunication text <= 40) /\
  0 <= evaluateCommunication text <= 100.
Proof.
  split; [apply evaluateCommunication_formula|].
  split; [reflexivity|].
  destruct text as [|c text].
  - cbn. split; [intros _|]; lia.
  - rewrite evaluateCommunication_formula by discriminate.
    unfold communication_formula, clamp. split.
    + intros Hl. destruct (Z.ltb_spec (Z.of_nat (String.length (String c text))) 50);
        lia.
    + lia.
Qed.

(** A short text with a transition word and two technical terms. *)
Lemma communication_score_witness :
  evaluateCommunication "First I used a hook. Then state!" <= 40.
Proof.
  apply (proj1 (proj2 (proj2 (communication_score
                                "First I used a hook. Then state!")))).
  simpl. lia.
Defined.

(** C7, as the claim has it: for the empty text the formula gives 40, the
    code gives 0. *)
Lemma empty_text_not_formula :
  evaluateCommunication "" <> communication_formula "".
Proof. vm_compute. discriminate. Qed.

End ScoringClaims.

(** ** The confidence stays a percentage *)

Module Invariants.

Import Perception Aggregator Lifecycle HistoryFacts Session.

Lemma percent_boundedScore x : percent (boundedScore x).
Proof. unfold percent, boundedScore, Math_max, Math_min. lia. Qed.

Lemma percent_settled snap d st :
  percent (confidenceScore st) ->
  percent (confidenceScore (detectFace_settled snap d st)).
Proof.
  intros H. destruct d as [[|firstFace others]|]; simpl.
  - unfold no_face. by_cases; simpl; unfold percent in *; lia.
  - rewrite PerceptionClaims.confidence_face_present.
    apply percent_boundedScore.
  - unfold detection_failed. by_cases; simpl; unfold percent in *; lia.
Qed.

Lemma percent_begin snap video st :
  percent (confidenceScore st) ->
  percent (confidenceScore (fst (detectFace_begin snap video st))).
Proof.
  intros H. unfold detectFace_begin.
  by_cases; simpl; try exact H; unfold percent; lia.
Qed.

Lemma percent_detectFace snap video d st :
  percent (confidenceScore st) ->
  percent (confidenceScore (detectFace snap video d st)).
Proof.
  intros H. unfold detectFace.
  pose proof (percent_begin snap video st H) as B.
  destruct (detectFace_begin snap video st) as [st1 in_flight].
  simpl in B. destruct in_flight; [|exact B].
  now apply percent_settled.
Qed.

Lemma confidence_endInterview env snap w :
  confidenceScore (comp (endInterview env snap w)) = confidenceScore (comp w).
Proof.
  unfold endInterview, endInterview_submit, endInterview_save,
    endInterview_shutdown, stopListening.
  by_cases.
Qed.

Lemma confidence_nextQuestion env snap w :
  confidenceScore (comp (nextQuestion env snap w)) = confidenceScore (comp w).
Proof.
  unfold nextQuestion. destruct (_ <? _); [reflexivity|].
  now rewrite confidence_endInterview.
Qed.

Lemma confidence_scoringEffect st st' :
  Scoring.scoringEffect st = Some st' -> confidenceScore st' = confidenceScore st.
Proof.
  unfold Scoring.scoringEffect. by_cases; intros E; inversion E; reflexivity.
Qed.

Lemma confidence_scoring w w' :
  scoring w = Some w' -> confidenceScore (comp w') = confidenceScore (comp w).
Proof.
  unfold scoring.
  destruct (Scoring.scoringEffect (comp w)) eqn:E; [|discriminate].
  intros H. inversion H. simpl. now apply confidence_scoringEffect.
Qed.

Lemma confidence_timerEffect env w :
  confidenceScore (comp (timerEffect env w)) = confidenceScore (comp w).
Proof.
  unfold timerEffect. destruct (_ <=? _); [|reflexivity].
  apply confidence_endInterview.
Qed.

Lemma percent_handle e w w' :
  handle e w = Some w' ->
  percent (confidenceScore (comp w)) -> percent (confidenceScore (comp w')).
Proof.
  destruct e; simpl; intros H P.
  - inversion H; subst. now rewrite confidence_timerEffect.
  - apply confidence_scoring in H. now rewrite H.
  - destruct ok; inversion H; subst; exact P.
  - inversion H; subst; exact P.
  - destruct (_ <=? _); [discriminate|]. inversion H; subst.
    now rewrite confidence_timerEffect.
  - apply confidence_scoring in H. now rewrite H.
  - apply confidence_scoring in H. rewrite H. simpl.
    unfold onresult. by_cases; exact P.
  - inversion H; subst. simpl. now apply percent_detectFace.
  - destruct (_ && _); [|discriminate]. inversion H; subst. simpl.
    unfold forceConfidence, percent, Math_max, Math_min. simpl. lia.
  - destruct (isThinking _); [discriminate|]. inversion H; subst.
    unfold handleThinkingTime, stopListening. by_cases; exact P.
  - inversion H; subst.
    unfold toggleRecording, stopListening, startListening. by_cases; exact P.
  - inversion H; subst. simpl. unfold toggleCamera. by_cases; exact P.
  - destruct (_ || _); [discriminate|].
    destruct (_ <? _).
    + apply confidence_scoring in H. rewrite H.
      now rewrite confidence_nextQuestion.
    + inversion H; subst. now rewrite confidence_nextQuestion.
  - destruct (loading _); [discriminate|]. inversion H; subst.
    now rewrite confidence_endInterview.
Qed.

(** In every state the session can reach, the confidence lies in
    [0, 100]; the smoothing of [detectFace] therefore sees a previous score
    that is zero or positive. *)
Lemma percent_reachable w : reachable w -> percent (confidenceScore (comp w)).
Proof.
  intros (speech & es & R).
  assert (G : forall es w0 w1,
             run es w0 = Some w1 ->
             percent (confidenceScore (comp w0)) ->
             percent (confidenceScore (comp w1))).
  { clear. induction es as [|e es IH]; intros w0 w1 R P; simpl in R.
    - now inversion R; subst.
    - unfold step in R. destruct (handle e w0) as [w'|] eqn:E; [|discriminate].
      apply (IH _ _ R). simpl. now apply (percent_handle e w0 w'). }
  apply (G es _ _ R). simpl. unfold percent. lia.
Qed.

End Invariants.

(** * Further properties of the page's code *)

(** ** Averages *)

Module AverageFacts.

Import Aggregator AggregatorFacts Display.

Lemma total_app h1 h2 : total (h1 ++ h2) = total h1 + total h2.
Proof. induction h1 as [|x h1 IH]; simpl; lia. Qed.

Lemma calculateAverage_div x h :
  calculateAverage (x :: h)
  = (2 * total (x :: h) + Z.of_nat (List.length (x :: h)))
    / (2 * Z.of_nat (List.length (x :: h))).
Proof.
  unfold calculateAverage.
  change (List.length (x :: h) =? 0)%nat with false. cbv iota.
  rewrite sum_total. apply Math_round_div. simpl List.length. lia.
Qed.

(** X1.  The running average of a history and a live value is the average
    the report would carry once the value has been appended; with no
    history it is the live value itself. *)
Theorem running_average_appends (history : list Z) (currentValue : Z) :
  calculateRunningAverage history currentValue
  = calculateAverage (history ++ [currentValue]) /\
  calculateRunningAverage [] currentValue = currentValue.
Proof.
  split; [|reflexivity].
  destruct history as [|x h].
  - change ([] ++ [currentValue]) with [currentValue].
    rewrite calculateAverage_div.
    change (calculateRunningAverage [] currentValue) with currentValue.
    cbn [total List.length]. change (Z.of_nat 1) with 1.
    apply (Z.div_unique _ _ currentValue 1); lia.
  - unfold calculateRunningAverage.
    change (List.length (x :: h) =? 0)%nat with false. cbv iota.
    rewrite sum_total.
    rewrite Math_round_div by lia.
    change ((x :: h) ++ [currentValue]) with (x :: (h ++ [currentValue])).
    rewrite calculateAverage_div.
    change (x :: h ++ [currentValue]) with ((x :: h) ++ [currentValue]).
    rewrite total_app, length_app. simpl total. simpl (List.length [currentValue]).
    rewrite Z.add_0_r. reflexivity.
Qed.

Lemma total_bounds lo hi h :
  Forall (fun x => lo <= x <= hi) h ->
  Z.of_nat (List.length h) * lo <= total h <= Z.of_nat (List.length h) * hi.
Proof.
  induction 1 as [|x h Hx _ IH]; simpl total.
  - simpl. lia.
  - change (List.length (x :: h)) with (S (List.length h)). lia.
Qed.

Lemma calculateAverage_cons_between lo hi x h :
  Forall (fun y => lo <= y <= hi) (x :: h) ->
  lo <= calculateAverage (x :: h) <= hi.
Proof.
  intros Hall.
  rewrite calculateAverage_div.
  pose proof (total_bounds lo hi _ Hall) as B.
  set (n := Z.of_nat (List.length (x :: h))) in *.
  assert (Hn : 0 < n) by (unfold n; simpl List.length; lia).
  set (t := total (x :: h)) in *.
  split.
  - apply Z.div_le_lower_bound; [lia|]. nia.
  - apply Z.lt_succ_r. apply Z.div_lt_upper_bound; [lia|]. nia.
Qed.

(** X2.  The average of a history that is not empty lies between any two
    bounds of its entries; in particular percentages average to a
    percentage. *)
Theorem calculateAverage_between (lo hi : Z) (h : list Z) :
  h <> [] ->
  Forall (fun x => lo <= x <= hi) h ->
  lo <= calculateAverage h <= hi.
Proof.
  intros Hne Hall. destruct h as [|x h]; [congruence|].
  now apply calculateAverage_cons_between.
Qed.

Lemma calculateAverage_between_witness :
  60 <= calculateAverage [80; 61; 60] <= 80.
Proof.
  apply calculateAverage_between.
  - discriminate.
  - repeat constructor; lia.
Defined.

Lemma calculateAverage_percent h :
  Forall percent h -> percent (calculateAverage h).
Proof.
  intros H. destruct h as [|x h].
  - change (calculateAverage []) with 0. unfold percent. lia.
  - apply calculateAverage_cons_between. exact H.
Qed.

Lemma overallScore_percent a b c :
  percent a -> percent b -> percent c -> percent (overallScore a b c).
Proof.
  intros Ha Hb Hc.
  pose proof (overallScore_near a b c Ha Hb Hc) as N.
  unfold percent, weighted_near in *. lia.
Qed.

End AverageFacts.

(** ** Every score of a session is a percentage *)

Module PercentFacts.

Import Aggregator Lifecycle AggregatorFacts HistoryFacts Session AverageFacts.

Lemma metered_meters w w' : meters w' = meters w -> metered w -> metered w'.
Proof.
  unfold meters, metered, percent_scores, histories.
  intros E. inversion E as [[Hc Hr Hm Hh1 Hh2 Hh3 Hp]].
  rewrite Hc, Hr, Hm, Hh1, Hh2, Hh3, Hp. auto.
Qed.

Lemma evaluateCommunication_percent text :
  percent (Communication.evaluateCommunication text).
Proof.
  unfold Communication.evaluateCommunication, percent, Math_max, Math_min.
  destruct (negb (Str.truthy text)); [lia|].
  destruct (_ <? 50); lia.
Qed.

Lemma newRelevanceScore_percent userAnswer keyPhrases r :
  Scoring.newRelevanceScore userAnswer keyPhrases = Some r -> percent r.
Proof.
  destruct keyPhrases as [|p ps].
  - discriminate.
  - destruct (ScoringClaims.newRelevanceScore_rounded userAnswer (p :: ps)
                ltac:(discriminate)) as (r' & E & _).
    rewrite E. intros H. injection H as <-.
    unfold percent, clamp. lia.
Qed.

Lemma metered_scoringEffect w st' :
  Scoring.scoringEffect (comp w) = Some st' ->
  metered w -> metered (on_comp (fun _ => st') w).
Proof.
  unfold Scoring.scoringEffect, metered, percent_scores.
  intros E (( Hc & Hr & Hm & H1 & H2 & H3) & Hp).
  destruct (_ || _).
  - injection E as <-. simpl.
    assert (percent 0) by (unfold percent; lia). auto 10.
  - destruct (nth_error _ _) as [q|]; [|injection E as <-; simpl; auto 10].
    destruct (Scoring.newRelevanceScore _ _) as [r|] eqn:Er; [|discriminate].
    injection E as <-. simpl.
    apply newRelevanceScore_percent in Er.
    pose proof (evaluateCommunication_percent (userAnswer (comp w))).
    auto 10.
Qed.

Lemma metered_scoring w w' : scoring w = Some w' -> metered w -> metered w'.
Proof.
  unfold scoring. destruct (Scoring.scoringEffect (comp w)) as [st'|] eqn:E;
    [|discriminate].
  intros H. injection H as <-. now apply metered_scoringEffect.
Qed.

Lemma percent_report_interviewData snap data :
  percent_scores snap -> interviewData snap = Some data -> percent_report data.
Proof.
  intros (_ & _ & _ & H1 & H2 & H3) E.
  destruct (interviewData_fields _ _ E) as (Hc & Hr & Hm & Hs & _).
  unfold percent_report. rewrite Hs, Hc, Hr, Hm.
  pose proof (calculateAverage_percent _ H1).
  pose proof (calculateAverage_percent _ H2).
  pose proof (calculateAverage_percent _ H3).
  split; [now apply overallScore_percent | auto].
Qed.

Lemma Forall_percent_push hs snap :
  percent_scores snap ->
  (let '(h1, h2, h3) := hs in
   Forall percent h1 /\ Forall percent h2 /\ Forall percent h3) ->
  let '(h1, h2, h3) := push hs (sample snap) in
  Forall percent h1 /\ Forall percent h2 /\ Forall percent h3.
Proof.
  intros (Hc & Hr & Hm & _) H. destruct hs as [[h1 h2] h3]. simpl.
  destruct H as (H1 & H2 & H3).
  assert (L : forall x, percent x -> Forall percent [x])
    by (intros x Hx; constructor; [exact Hx | constructor]).
  split; [|split]; apply Forall_app; split; auto.
Qed.

Lemma scores_endInterview env snap w :
  confidenceScore (comp (endInterview env snap w)) = confidenceScore (comp w) /\
  relevanceScore (comp (endInterview env snap w)) = relevanceScore (comp w) /\
  communicationScore (comp (endInterview env snap w))
  = communicationScore (comp w).
Proof.
  unfold endInterview, endInterview_submit, endInterview_save,
    endInterview_shutdown, stopListening.
  by_cases; repeat split.
Qed.

Lemma metered_endInterview env snap w :
  percent_scores snap -> metered w -> metered (endInterview env snap w).
Proof.
  intros Hs ((Hc & Hr & Hm & H1 & H2 & H3) & Hp).
  pose proof (histories_endInterview env snap w) as Hh.
  pose proof (posts_endInterview env snap w) as Hq.
  destruct (scores_endInterview env snap w) as (Ec & Er & Em).
  pose proof (Forall_percent_push (histories (comp w)) snap Hs) as P.
  unfold histories in *. rewrite <- Hh in P. specialize (P (conj H1 (conj H2 H3))).
  destruct P as (P1 & P2 & P3).
  unfold metered, percent_scores. rewrite Ec, Er, Em, Hq.
  split; [auto 10|].
  apply Forall_app. split; [exact Hp|].
  unfold submitted. destruct (interviewData snap) as [data|] eqn:E; [|constructor].
  destruct (truthy_token _); constructor; [|constructor].
  now apply (percent_report_interviewData snap).
Qed.

Lemma metered_save snap w :
  percent_scores snap -> metered w ->
  metered (on_comp (saveCurrentMetrics snap)
             (on_comp (saveAnswerForCurrentQuestion snap) w)).
Proof.
  intros Hs ((Hc & Hr & Hm & H1 & H2 & H3) & Hp).
  destruct Hs as (Sc & Sr & Sm & _).
  unfold metered, percent_scores. simpl.
  assert (L : forall x, percent x -> Forall percent [x])
    by (intros x Hx; constructor; [exact Hx | constructor]).
  assert (A : forall h x, Forall percent h -> percent x ->
                          Forall percent (h ++ [x]))
    by (intros h x Hh Hx; apply Forall_app; auto).
  auto 10.
Qed.

Lemma metered_nextQuestion env w :
  metered w -> metered (nextQuestion env (comp w) w).
Proof.
  intros M. pose proof (metered_save (comp w) w (proj1 M) M) as S.
  unfold nextQuestion. destruct (_ <? _).
  - revert S. apply metered_meters. reflexivity.
  - now apply metered_endInterview; [apply M|].
Qed.

Lemma metered_timerEffect env w : metered w -> metered (timerEffect env w).
Proof.
  intros M. unfold timerEffect. destruct (_ <=? _); [|exact M].
  apply metered_endInterview; [apply M | exact M].
Qed.

Lemma metered_confidence w st' :
  metered w ->
  percent (confidenceScore st') ->
  (relevanceScore st', communicationScore st', histories st')
  = (relevanceScore (comp w), communicationScore (comp w), histories (comp w)) ->
  metered (on_comp (fun _ => st') w).
Proof.
  unfold metered, percent_scores, histories.
  intros ((Hc & Hr & Hm & H1 & H2 & H3) & Hp) Pc E.
  inversion E as [[Er Em E1 E2 E3]]. simpl.
  rewrite Er, Em, E1, E2, E3. auto 10.
Qed.

Lemma scores_detectFace snap video d st :
  (relevanceScore (Perception.detectFace snap video d st),
   communicationScore (Perception.detectFace snap video d st))
  = (relevanceScore st, communicationScore st).
Proof.
  unfold Perception.detectFace.
  assert (B : (relevanceScore (fst (Perception.detectFace_begin snap video st)),
               communicationScore (fst (Perception.detectFace_begin snap video st)))
              = (relevanceScore st, communicationScore st)).
  { unfold Perception.detectFace_begin. by_cases. }
  destruct (Perception.detectFace_begin snap video st) as [st1 in_flight].
  simpl in B. destruct in_flight; [|exact B]. rewrite <- B.
  unfold Perception.detectFace_settled, Perception.face_present,
    Perception.no_face, Perception.detection_failed.
  by_cases.
Qed.

Lemma metered_handle e w w' : handle e w = Some w' -> metered w -> metered w'.
Proof.
  destruct e; simpl; intros H M.
  - injection H as <-. apply metered_timerEffect.
    revert M. apply metered_meters. reflexivity.
  - apply metered_scoring in H; [exact H|].
    revert M. apply metered_meters. reflexivity.
  - destruct ok; injection H as <-; revert M; apply metered_meters; reflexivity.
  - injection H as <-. revert M. apply metered_meters. reflexivity.
  - destruct (_ <=? _); [discriminate|]. injection H as <-.
    apply metered_timerEffect. revert M. apply metered_meters. reflexivity.
  - apply metered_scoring in H; [exact H|].
    revert M. apply metered_meters. reflexivity.
  - apply metered_scoring in H; [exact H|].
    revert M. apply metered_meters. unfold onresult, meters. simpl.
    by_cases.
  - injection H as <-.
    apply (metered_confidence w (Perception.detectFace closure video d (comp w)) M).
    + apply Invariants.percent_detectFace. apply M.
    + pose proof (scores_detectFace closure video d (comp w)) as E.
      pose proof (histories_detectFace closure video d (comp w)) as Eh.
      injection E as -> ->. now rewrite Eh.
  - destruct (_ && _); [|discriminate]. injection H as <-.
    apply (metered_confidence w _ M); [|reflexivity].
    unfold Perception.forceConfidence, percent, Math_max, Math_min. simpl. lia.
  - destruct (isThinking _); [discriminate|]. injection H as <-.
    revert M. apply metered_meters.
    unfold handleThinkingTime, stopListening, meters. by_cases.
  - injection H as <-. revert M. apply metered_meters.
    unfold toggleRecording, stopListening, startListening, meters. by_cases.
  - injection H as <-. revert M. apply metered_meters.
    unfold toggleCamera, meters. simpl. by_cases.
  - destruct (_ || _); [discriminate|].
    destruct (_ <? _).
    + apply metered_scoring in H; [exact H|]. now apply metered_nextQuestion.
    + injection H as <-. now apply metered_nextQuestion.
  - destruct (loading _); [discriminate|]. injection H as <-.
    apply metered_endInterview; [apply M | exact M].
Qed.

Lemma metered_run es : forall w w',
  run es w = Some w' -> metered w -> metered w'.
Proof.
  induction es as [|e es IH]; intros w w' R M; simpl in R.
  - now injection R as <-.
  - unfold step in R. destruct (handle e w) as [w1|] eqn:E; [|discriminate].
    apply (IH _ _ R). apply (metered_handle e w w1 E) in M.
    revert M. apply metered_meters. reflexivity.
Qed.

(** X3.  In every state the session can reach, the three live scores and
    every sample in the histories lie in [0, 100], and so do the score and
    the three averages of every report it has sent. *)
Theorem session_scores_percent (w : World) :
  reachable w ->
  percent_scores (comp w) /\ Forall percent_report (posts w).
Proof.
  intros (speech & es & R). apply (metered_run es _ _ R).
  split; [|constructor].
  assert (percent 0) by (unfold percent; lia).
  unfold percent_scores. simpl. auto 10.
Qed.

Lemma session_scores_percent_witness :
  percent_scores (comp Examples.after_first_answer) /\
  Forall percent_report (posts Examples.after_first_answer).
Proof.
  apply session_scores_percent.
  exists true, Examples.first_answer. vm_compute. reflexivity.
Defined.

End PercentFacts.

(** ** The perception loop *)

Module PerceptionFacts.

Import Perception Lifecycle HistoryFacts Session.

Lemma Math_round_between q k :
  (0 <= q)%Q -> (q < inject_Z k + (1 # 2))%Q -> 0 <= Math_round q <= k.
Proof.
  intros H0 Hk. unfold Math_round. split.
  - change 0 with (Qfloor 0.5). apply Qfloor_resp_le.
    rewrite <- (Qplus_0_l 0.5) at 1. apply Qplus_le_l. exact H0.
  - pose proof (Qfloor_le (q + 0.5)) as F.
    assert (L : (inject_Z (Qfloor (q + 0.5)) < inject_Z (k + 1))%Q).
    { rewrite inject_Z_plus. change (inject_Z 1) with 1%Q. lra. }
    rewrite <- Zlt_Qlt in L. lia.
Qed.

(** The product of an intensity and a scale, rounded to a double and then
    to an integer, lies between 0 and the scale. *)
Lemma scaled_between (dominantStrength : Q) (k : Z) :
  (0 <= dominantStrength)%Q -> (dominantStrength <= 1)%Q -> 0 <= k <= 100 ->
  0 <= Math_round (JS.mul dominantStrength (inject_Z k)) <= k.
Proof.
  intros H0 H1 Hk. unfold JS.mul.
  assert (Ik : (0 <= inject_Z k)%Q /\ (inject_Z k <= 100)%Q).
  { change 0%Q with (inject_Z 0). change 100%Q with (inject_Z 100).
    rewrite <- !Zle_Qle. lia. }
  assert (P0 : (0 <= dominantStrength * inject_Z k)%Q)
    by (apply Qmult_le_0_compat; tauto).
  assert (P1 : (dominantStrength * inject_Z k <= inject_Z k)%Q).
  { rewrite <- (Qmult_1_l (inject_Z k)) at 2.
    apply Qmult_le_compat_r; tauto. }
  set (k' := inject_Z k) in *. set (p := (dominantStrength * k')%Q) in *.
  pose proof (DoubleFacts.to_double_128 p P0 ltac:(lra)) as T.
  pose proof (DoubleFacts.to_double_nonneg p P0) as N.
  apply Math_round_between; [exact N | fold k'; lra].
Qed.

(** The product is the code's: the double that [0.03] denotes is a little
    under three hundredths, its product by 50 rounds to the double [1.5],
    and a happy face of that intensity scores 52. *)
Example expressionScore_rounds_product :
  (JS.to_double 0.03 * 50 < 3 # 2)%Q /\
  expressionScore happy (JS.to_double 0.03) = 52.
Proof. split; vm_compute; reflexivity. Qed.

(** X4.  For an intensity between 0 and 1 the raw score of an expression
    lies in the range the source documents for it (happy 50-100, neutral
    40-60, surprised 30-50, sad 15-40, fearful 10-35, angry and disgusted
    10-30), hence always in [10, 100]. *)
Theorem expressionScore_range (e : Expression) (dominantStrength : Q) :
  (0 <= dominantStrength)%Q -> (dominantStrength <= 1)%Q ->
  fst (score_range e) <= expressionScore e dominantStrength
  <= snd (score_range e) /\
  10 <= expressionScore e dominantStrength <= 100.
Proof.
  intros H0 H1.
  pose proof (scaled_between dominantStrength 50 H0 H1 ltac:(lia)) as R50.
  pose proof (scaled_between dominantStrength 20 H0 H1 ltac:(lia)) as R20.
  pose proof (scaled_between dominantStrength 25 H0 H1 ltac:(lia)) as R25.
  change (inject_Z 50) with 50%Q in R50.
  change (inject_Z 20) with 20%Q in R20.
  change (inject_Z 25) with 25%Q in R25.
  destruct e; unfold expressionScore, score_range; cbn [fst snd]; lia.
Qed.

Lemma expressionScore_range_witness :
  50 <= expressionScore happy 0.8 <= 100.
Proof.
  refine (proj1 (expressionScore_range happy 0.8 _ _)); unfold Qle; simpl; lia.
Defined.

(** The loop of [dominant], from any starting pair. *)
Lemma dominant_fold (firstFace : Face) (l : list Expression) :
  forall m0 v0,
    let '(m, v) :=
      fold_left
        (fun '(maxExpression, maxValue) expr =>
           let value := firstFace expr in
           if negb (Qle_bool value maxValue) then (expr, value)
           else (maxExpression, maxValue))
        l (m0, v0) in
    (forall e, In e l -> (firstFace e <= v)%Q) /\
    (v0 <= v)%Q /\
    ((m, v) = (m0, v0) \/ (In m l /\ v = firstFace m /\ (v0 < v)%Q)).
Proof.
  induction l as [|x l IH]; intros m0 v0.
  - simpl. split; [intros e []|]. split; [lra | now left].
  - cbn [fold_left].
    destruct (Qle_bool (firstFace x) v0) eqn:E; cbn [negb].
    + apply Qle_bool_iff in E.
      specialize (IH m0 v0). destruct (fold_left _ l (m0, v0)) as [m v].
      destruct IH as (A & B & C). split; [|split].
      * intros e [<- | He]; [lra | now apply A].
      * exact B.
      * destruct C as [C | (C1 & C2 & C3)]; [now left | right].
        split; [now right | now split].
    + assert (Hlt : (v0 < firstFace x)%Q).
      { apply Qnot_le_lt. intros H. apply Qle_bool_iff in H. congruence. }
      specialize (IH x (firstFace x)).
      destruct (fold_left _ l (x, firstFace x)) as [m v].
      destruct IH as (A & B & C). split; [|split].
      * intros e [<- | He]; [exact B | now apply A].
      * lra.
      * right. destruct C as [C | (C1 & C2 & C3)].
        -- injection C as -> ->. split; [now left | split; [reflexivity | exact Hlt]].
        -- split; [now right | split; [exact C2 | lra]].
Qed.

(** X5.  The dominant expression carries the highest of the seven
    intensities: no intensity exceeds the value returned, which is the
    intensity of the expression returned whenever some intensity is
    positive; when none is, the result is [neutral] with value 0. *)
Theorem dominant_maximum (firstFace : Face) :
  let '(maxExpression, maxValue) := dominant firstFace in
  (forall e, In e expressions -> (firstFace e <= maxValue)%Q) /\
  (0 <= maxValue)%Q /\
  ((maxExpression, maxValue) = (neutral, 0%Q) \/
   (In maxExpression expressions /\
    maxValue = firstFace maxExpression /\ (0 < maxValue)%Q)).
Proof. unfold dominant. apply dominant_fold. Qed.

(** X6.  A detection that times out or throws leaves exactly the state a
    detection without a face leaves. *)
Theorem rejected_is_no_face (snap st : State) :
  detectFace_settled snap Rejected st = detectFace_settled snap (Faces []) st.
Proof.
  unfold detectFace_settled, detection_failed, no_face. by_cases.
Qed.

(** X7.  While the video has no dimensions a sample, taken through the
    closure of the latest render, never reaches the detector: whatever the
    detector would return, it leaves a confidence of zero, keeps the
    counter of face hits and the tally, and marks the expression [unknown]
    only when the confidence was not zero already. *)
Theorem no_dimensions_sample (st : State) (v : Video) (d : Detection) :
  skips st (Some v) = false ->
  no_dimensions v = true ->
  let st' := detectFace st (Some v) d st in
  confidenceScore st' = 0 /\
  faceDetectionSuccess st' = faceDetectionSuccess st /\
  expressionCounts st' = expressionCounts st /\
  facialExpression st'
  = (if confidenceScore st =? 0 then facialExpression st else unknown) /\
  (confidenceScore st = 0 -> st' = st).
Proof.
  intros Hs Hd. cbv zeta. unfold detectFace, detectFace_begin.
  rewrite Hs, Hd.
  destruct (Z.eqb_spec (confidenceScore st) 0) as [E|N]; cbv iota.
  - repeat split; auto.
  - repeat split; auto. intros E. contradiction.
Qed.

Lemma no_dimensions_sample_witness :
  confidenceScore
    (detectFace (Examples.watching 60)
       (Some {| videoWidth := 0; videoHeight := 0 |})
       (Faces [Examples.smiling]) (Examples.watching 60)) = 0.
Proof.
  refine (proj1 (no_dimensions_sample (Examples.watching 60)
                   {| videoWidth := 0; videoHeight := 0 |}
                   (Faces [Examples.smiling]) _ _)); reflexivity.
Defined.

Lemma flags_endInterview env snap w :
  isShuttingDown (comp (endInterview env snap w)) = true /\
  cameraActive (comp (endInterview env snap w)) = false /\
  loading (comp (endInterview env snap w)) = false /\
  detectionIntervalRef (endInterview env snap w) = false.
Proof.
  unfold endInterview, endInterview_submit, endInterview_save,
    endInterview_shutdown, stopListening.
  by_cases; repeat split; assumption.
Qed.

Lemma kept_endInterview env snap w :
  faceDetectionSuccess (comp (endInterview env snap w))
  = faceDetectionSuccess (comp w) /\
  expressionCounts (comp (endInterview env snap w)) = expressionCounts (comp w).
Proof.
  unfold endInterview, endInterview_submit, endInterview_save,
    endInterview_shutdown, stopListening.
  by_cases; split; reflexivity.
Qed.

Lemma kept_scoring w w' :
  scoring w = Some w' ->
  isShuttingDown (comp w') = isShuttingDown (comp w) /\
  faceDetectionSuccess (comp w') = faceDetectionSuccess (comp w) /\
  expressionCounts (comp w') = expressionCounts (comp w).
Proof.
  unfold scoring, Scoring.scoringEffect.
  destruct (_ || _).
  - intros H. injection H as <-. repeat split.
  - destruct (nth_error _ _); [|intros H; injection H as <-; repeat split].
    destruct (Scoring.newRelevanceScore _ _); [|discriminate].
    intros H. injection H as <-. repeat split.
Qed.

Lemma shutdown_detectFace snap video d st :
  isShuttingDown (detectFace snap video d st) = isShuttingDown st.
Proof.
  unfold detectFace.
  assert (B : isShuttingDown (fst (detectFace_begin snap video st))
              = isShuttingDown st)
    by (unfold detectFace_begin; by_cases).
  destruct (detectFace_begin snap video st) as [st1 in_flight].
  simpl in B. destruct in_flight; [|exact B]. rewrite <- B.
  unfold detectFace_settled, face_present, no_face, detection_failed.
  by_cases.
Qed.

Lemma shutdown_handle e w w' :
  handle e w = Some w' ->
  isShuttingDown (comp w) = true -> isShuttingDown (comp w') = true.
Proof.
  destruct e; simpl; intros H S.
  - injection H as <-. unfold timerEffect.
    destruct (_ <=? _); [apply flags_endInterview | exact S].
  - apply kept_scoring in H. destruct H as (-> & _). exact S.
  - destruct ok; injection H as <-; exact S.
  - injection H as <-. exact S.
  - destruct (_ <=? _); [discriminate|]. injection H as <-. unfold timerEffect.
    destruct (_ <=? _); [apply flags_endInterview | exact S].
  - apply kept_scoring in H. destruct H as (-> & _). exact S.
  - apply kept_scoring in H. destruct H as (-> & _). simpl.
    unfold onresult. by_cases; exact S.
  - injection H as <-. simpl. now rewrite shutdown_detectFace.
  - destruct (_ && _); [|discriminate]. injection H as <-. exact S.
  - destruct (isThinking _); [discriminate|]. injection H as <-.
    unfold handleThinkingTime, stopListening. by_cases; exact S.
  - injection H as <-.
    unfold toggleRecording, stopListening, startListening. by_cases; exact S.
  - injection H as <-. simpl. unfold toggleCamera. by_cases; exact S.
  - destruct (_ || _); [discriminate|].
    assert (N : isShuttingDown (comp (nextQuestion env (comp w) w)) = true).
    { unfold nextQuestion. destruct (_ <? _); [exact S|].
      apply flags_endInterview. }
    destruct (_ <? _).
    + apply kept_scoring in H. destruct H as (-> & _). exact N.
    + injection H as <-. exact N.
  - destruct (loading _); [discriminate|]. injection H as <-.
    apply flags_endInterview.
Qed.

(** X8.  Shutdown is permanent: [endInterview] sets [isShuttingDown], no
    handler ever clears it, and in every later state a [detectFace] call
    through the closure of that state changes nothing, whatever the video
    and the detector give. *)
Theorem shutdown_is_permanent (env : Env) (snap : State) (w w' : World)
    (es : list Event) :
  run es (endInterview env snap w) = Some w' ->
  isShuttingDown (comp w') = true /\
  (forall video d, detectFace (comp w') video d (comp w') = comp w').
Proof.
  intros R.
  assert (S : isShuttingDown (comp w') = true).
  { assert (G : forall es w0 w1,
               run es w0 = Some w1 ->
               isShuttingDown (comp w0) = true ->
               isShuttingDown (comp w1) = true).
    { clear. induction es as [|e es IH]; intros w0 w1 R S; simpl in R.
      - now injection R as <-.
      - unfold step in R. destruct (handle e w0) as [w2|] eqn:E; [|discriminate].
        apply (IH _ _ R). simpl. now apply (shutdown_handle e w0 w2). }
    apply (G es _ _ R). apply flags_endInterview. }
  split; [exact S|].
  intros video d. unfold detectFace, detectFace_begin, skips. now rewrite S.
Qed.

Lemma shutdown_is_permanent_witness :
  isShuttingDown
    (comp (detectionEffect
             (on_comp (toggleCamera
                         (comp (endInterview Examples.signed_in
                                  (comp Examples.on_last_question)
                                  Examples.on_last_question)))
                (endInterview Examples.signed_in
                   (comp Examples.on_last_question)
                   Examples.on_last_question)))) = true.
Proof.
  refine (proj1 (shutdown_is_permanent Examples.signed_in
                   (comp Examples.on_last_question) Examples.on_last_question
                   _ [ToggleCamera] _)).
  vm_compute. reflexivity.
Defined.

Lemma dominant_known firstFace : fst (dominant firstFace) <> unknown.
Proof.
  pose proof (dominant_fold firstFace expressions neutral 0%Q) as H.
  unfold dominant.
  destruct (fold_left _ expressions (neutral, 0%Q)) as [m v]. simpl.
  destruct H as (_ & _ & [E | (I & _)]).
  - injection E as -> _. discriminate.
  - intros ->. simpl in I. intuition discriminate.
Qed.

Lemma tallies_settled snap d st :
  tallies_ok st -> tallies_ok (detectFace_settled snap d st).
Proof.
  intros (Hc & Hp & Hu). destruct d as [[|firstFace others]|]; simpl.
  - unfold no_face, tallies_ok. by_cases; simpl; unfold Math_max;
      (split; [lia | split; assumption]).
  - unfold face_present.
    pose proof (dominant_known firstFace) as K.
    destruct (dominant firstFace) as [m v]. simpl in K.
    unfold tallies_ok, Math_min. by_cases; simpl;
      (split; [lia | split; [|]]); try assumption.
    + intros e. destruct (Expression_eqb e m); [specialize (Hp e); lia | apply Hp].
    + destruct m; cbn; try exact Hu. congruence.
  - unfold detection_failed, tallies_ok. by_cases; simpl; unfold Math_max;
      (split; [lia | split; assumption]).
Qed.

Lemma tallies_detectFace snap video d st :
  tallies_ok st -> tallies_ok (detectFace snap video d st).
Proof.
  intros T. unfold detectFace.
  assert (B : tallies_ok (fst (detectFace_begin snap video st)))
    by (unfold detectFace_begin; by_cases; exact T).
  destruct (detectFace_begin snap video st) as [st1 in_flight].
  simpl in B. destruct in_flight; [|exact B].
  now apply tallies_settled.
Qed.

Lemma tallies_kept st st' :
  faceDetectionSuccess st' = faceDetectionSuccess st ->
  expressionCounts st' = expressionCounts st ->
  tallies_ok st -> tallies_ok st'.
Proof. unfold tallies_ok. now intros -> ->. Qed.

Lemma tallies_handle e w w' :
  handle e w = Some w' -> tallies_ok (comp w) -> tallies_ok (comp w').
Proof.
  destruct e; simpl; intros H T.
  - injection H as <-. unfold timerEffect. destruct (_ <=? _); [|exact T].
    destruct (kept_endInterview env
                (comp (on_comp (setRemainingTime (duration * 60)) w))
                (on_comp (setRemainingTime (duration * 60)) w)) as (E1 & E2).
    exact (tallies_kept _ _ E1 E2 T).
  - apply kept_scoring in H. destruct H as (_ & E1 & E2).
    exact (tallies_kept _ _ E1 E2 T).
  - destruct ok; injection H as <-; exact T.
  - injection H as <-. exact T.
  - destruct (_ <=? _); [discriminate|]. injection H as <-.
    unfold timerEffect. destruct (_ <=? _); [|exact T].
    destruct (kept_endInterview env
                (comp (on_comp (fun st => setRemainingTime (remainingTime st - 1) st) w))
                (on_comp (fun st => setRemainingTime (remainingTime st - 1) st) w))
      as (E1 & E2).
    exact (tallies_kept _ _ E1 E2 T).
  - apply kept_scoring in H. destruct H as (_ & E1 & E2).
    exact (tallies_kept _ _ E1 E2 T).
  - apply kept_scoring in H. destruct H as (_ & E1 & E2).
    apply (tallies_kept _ _ E1 E2). simpl. unfold onresult. by_cases; exact T.
  - injection H as <-. simpl. now apply tallies_detectFace.
  - destruct (_ && _); [|discriminate]. injection H as <-. exact T.
  - destruct (isThinking _); [discriminate|]. injection H as <-.
    unfold handleThinkingTime, stopListening. by_cases; exact T.
  - injection H as <-.
    unfold toggleRecording, stopListening, startListening. by_cases; exact T.
  - injection H as <-. simpl. unfold toggleCamera. by_cases; exact T.
  - destruct (_ || _); [discriminate|].
    assert (N : tallies_ok (comp (nextQuestion env (comp w) w))).
    { unfold nextQuestion. destruct (_ <? _); [exact T|].
      destruct (kept_endInterview env (comp w)
                  (on_comp (Aggregator.saveCurrentMetrics (comp w))
                     (on_comp (saveAnswerForCurrentQuestion (comp w)) w)))
        as (E1 & E2).
      exact (tallies_kept _ _ E1 E2 T). }
    destruct (_ <? _).
    + apply kept_scoring in H. destruct H as (_ & E1 & E2).
      exact (tallies_kept _ _ E1 E2 N).
    + injection H as <-. exact N.
  - destruct (loading _); [discriminate|]. injection H as <-.
    destruct (kept_endInterview env (comp w) w) as (E1 & E2).
    exact (tallies_kept _ _ E1 E2 T).
Qed.

(** X9.  In every state the session can reach, the counter of face hits
    lies in [0, 10], no expression has a negative tally, and nothing is ever
    tallied for [unknown]. *)
Theorem tallies_in_order (w : World) : reachable w -> tallies_ok (comp w).
Proof.
  intros (speech & es & R).
  assert (G : forall es w0 w1,
             run es w0 = Some w1 -> tallies_ok (comp w0) -> tallies_ok (comp w1)).
  { clear. induction es as [|e es IH]; intros w0 w1 R T; simpl in R.
    - now injection R as <-.
    - unfold step in R. destruct (handle e w0) as [w2|] eqn:E; [|discriminate].
      apply (IH _ _ R). simpl. now apply (tallies_handle e w0 w2). }
  apply (G es _ _ R). unfold tallies_ok. simpl.
  split; [lia | split; [intros e; lia | reflexivity]].
Qed.

Lemma tallies_in_order_witness : tallies_ok (comp Examples.after_first_answer).
Proof.
  apply tallies_in_order.
  exists true, Examples.first_answer. vm_compute. reflexivity.
Defined.

End PerceptionFacts.

(** ** Answers, responses and the end of the interview *)

Module LifecycleFacts.

Import Aggregator Lifecycle AggregatorFacts HistoryFacts Session.

Lemma array_set_same {A : Type} (arr : list (option A)) (i : nat) (v : A) :
  nth_error (array_set arr i v) i = Some (Some v).
Proof.
  revert arr. induction i as [|i IH]; intros [|x arr]; simpl; auto.
Qed.

Lemma array_set_other {A : Type} (arr : list (option A)) (i j : nat) (v : A) :
  j <> i -> (j < List.length arr)%nat ->
  nth_error (array_set arr i v) j = nth_error arr j.
Proof.
  revert arr j. induction i as [|i IH]; intros [|x arr] j Hj Hl; simpl in *;
    try lia.
  - destruct j; [congruence | reflexivity].
  - destruct j as [|j]; [reflexivity|]. simpl. apply IH; lia.
Qed.

Lemma array_set_holes {A : Type} (arr : list (option A)) (i j : nat) (v : A) :
  (List.length arr <= j < i)%nat ->
  nth_error (array_set arr i v) j = Some None.
Proof.
  revert arr j. induction i as [|i IH]; intros [|x arr] j Hj; simpl in *;
    try lia.
  - destruct j as [|j]; [reflexivity|]. simpl. apply IH. simpl. lia.
  - destruct j as [|j]; [lia|]. simpl. apply IH. lia.
Qed.

Lemma array_set_length {A : Type} (arr : list (option A)) (i : nat) (v : A) :
  List.length (array_set arr i v) = Nat.max (List.length arr) (S i).
Proof.
  revert arr. induction i as [|i IH]; intros [|x arr]; simpl;
    try rewrite IH; simpl; try lia.
Qed.

(** X10.  Writing [arr[i] = v] on a copy: the slot [i] then holds [v],
    every other slot of the array is as it was, slots between the old end
    and [i] are holes, and the length is the larger of the old length and
    [i + 1]. *)
Theorem array_set_lookup {A : Type} (arr : list (option A)) (i : nat) (v : A) :
  nth_error (array_set arr i v) i = Some (Some v) /\
  (forall j, j <> i -> (j < List.length arr)%nat ->
             nth_error (array_set arr i v) j = nth_error arr j) /\
  (forall j, (List.length arr <= j < i)%nat ->
             nth_error (array_set arr i v) j = Some None) /\
  List.length (array_set arr i v) = Nat.max (List.length arr) (S i).
Proof.
  split; [apply array_set_same|].
  split; [intros j; apply array_set_other|].
  split; [intros j; apply array_set_holes | apply array_set_length].
Qed.

Lemma answers_endInterview env snap w :
  answers (comp (endInterview env snap w))
  = array_set (answers snap) (currentQuestion snap) (userAnswer snap).
Proof.
  unfold endInterview, endInterview_submit, endInterview_save,
    endInterview_shutdown, stopListening.
  by_cases.
Qed.

Lemma answers_nextQuestion env snap w :
  answers (comp (nextQuestion env snap w))
  = array_set (answers snap) (currentQuestion snap) (userAnswer snap).
Proof.
  unfold nextQuestion. destruct (_ <? _); [reflexivity|].
  apply answers_endInterview.
Qed.

(** X11.  [nextQuestion], on any question, stores the answer being typed
    under the index of that question and leaves the answers stored under
    the other indices as they were. *)
Theorem nextQuestion_stores_answer (env : Env) (w : World) :
  let snap := comp w in
  let w' := nextQuestion env snap w in
  nth_error (answers (comp w')) (currentQuestion snap)
  = Some (Some (userAnswer snap)) /\
  (forall j, j <> currentQuestion snap ->
             (j < List.length (answers snap))%nat ->
             nth_error (answers (comp w')) j = nth_error (answers snap) j).
Proof.
  cbv zeta. rewrite answers_nextQuestion.
  split; [apply array_set_same | intros j; apply array_set_other].
Qed.

(** X12.  The responses of a report: with no more answers than questions
    there is one response per question, the answers first and [""] for
    every question not reached; with more answers than questions building
    the report fails. *)
Theorem paddedResponses_length (answers : list (option string))
    (questions : list Question) :
  ((List.length answers <= List.length questions)%nat ->
   exists rs,
     paddedResponses answers questions = Some rs /\
     List.length rs = List.length questions /\
     firstn (List.length answers) rs = answers /\
     Forall (eq (Some ""%string)) (skipn (List.length answers) rs)) /\
  ((List.length questions < List.length answers)%nat ->
   paddedResponses answers questions = None).
Proof.
  unfold paddedResponses. split; intros H.
  - destruct (Nat.eqb_spec (List.length answers) (List.length questions)) as [E|N].
    + exists answers. split; [reflexivity|]. split; [exact E|].
      rewrite firstn_all, skipn_all. split; [reflexivity | constructor].
    + destruct (Nat.ltb_spec (List.length answers) (List.length questions)); [|lia].
      eexists. split; [reflexivity|].
      rewrite length_app, repeat_length. split; [lia|].
      rewrite firstn_app, Nat.sub_diag, firstn_all, app_nil_r.
      split; [reflexivity|].
      rewrite skipn_app, Nat.sub_diag, skipn_all. simpl.
      apply Forall_forall. intros x Hx. apply repeat_spec in Hx. now subst.
  - destruct (Nat.eqb_spec (List.length answers) (List.length questions)); [lia|].
    destruct (Nat.ltb_spec (List.length answers) (List.length questions)); [lia|].
    reflexivity.
Qed.

Lemma paddedResponses_length_witness :
  exists rs,
    paddedResponses [Some "a"%string]
      [Examples.virtual_dom_question; Examples.virtual_dom_question] = Some rs /\
    List.length rs = 2%nat.
Proof.
  destruct (proj1 (paddedResponses_length [Some "a"%string]
                     [Examples.virtual_dom_question;
                      Examples.virtual_dom_question])) as (rs & E & L & _).
  - simpl. lia.
  - exists rs. split; [exact E | exact L].
Defined.

Lemma routes_endInterview env snap w :
  exists to,
    routes (endInterview env snap w) = routes w ++ [to] /\
    (forall _id,
        submitted env snap <> [] -> response env = Created _id ->
        to = ("/results/" ++ _id)%string) /\
    (submitted env snap = [] \/ (forall _id, response env <> Created _id) ->
     to = "/interview/results"%string).
Proof.
  unfold endInterview, endInterview_submit, submitted.
  assert (R : forall w0, routes (endInterview_save snap (endInterview_shutdown w0))
                         = routes w0).
  { intros w0. unfold endInterview_save, endInterview_shutdown, stopListening.
    by_cases. }
  destruct (interviewData snap) as [data|].
  - destruct (truthy_token (token env)); simpl negb; cbv iota.
    + destruct (response env) as [_id| |message]; eexists; simpl; rewrite R;
        (split; [reflexivity|]); split; try discriminate; try reflexivity.
      * intros i _ E. now injection E as <-.
      * intros [E | N]; [discriminate E | now destruct (N _id)].
    + eexists. simpl. rewrite R. split; [reflexivity|].
      split; [intros i N; now destruct N | reflexivity].
  - eexists. simpl. rewrite R. split; [reflexivity|].
    split; [intros i N; now destruct N | reflexivity].
Qed.

(** X13.  Whatever the closure, the token and the server's answer, a call
    of [endInterview] ends with the shutdown flag set, the camera off, the
    detection interval cleared and [loading] false, and it navigates
    exactly once: to [/results/<id>] when a report was posted and the
    server answered with the id of the stored interview, and to the
    fallback page [/interview/results] in every other case. *)
Theorem endInterview_always_finishes (env : Env) (snap : State) (w : World) :
  let w' := endInterview env snap w in
  isShuttingDown (comp w') = true /\
  cameraActive (comp w') = false /\
  detectionIntervalRef w' = false /\
  loading (comp w') = false /\
  exists to,
    routes w' = routes w ++ [to] /\
    (forall _id,
        submitted env snap <> [] -> response env = Created _id ->
        to = ("/results/" ++ _id)%string) /\
    (submitted env snap = [] \/ (forall _id, response env <> Created _id) ->
     to = "/interview/results"%string).
Proof.
  cbv zeta.
  destruct (PerceptionFacts.flags_endInterview env snap w) as (H1 & H2 & H3 & H4).
  repeat (split; [assumption|]). apply routes_endInterview.
Qed.

Lemma error_endInterview env snap w :
  error (comp (endInterview env snap w))
  = match interviewData snap with
    | None => "Invalid array length"
    | Some _ =>
        if truthy_token (token env) then
          match response env with
          | Created _ => ""
          | Aborted =>
              "Saving interview timed out. Your interview data might not be saved."
          | Failed message => failure_message message
          end
        else "Authentication required"
    end%string.
Proof.
  unfold endInterview, endInterview_submit.
  destruct (interviewData snap); [|reflexivity].
  destruct (truthy_token (token env)); simpl negb; cbv iota; [|reflexivity].
  destruct (response env); reflexivity.
Qed.

(** X14.  Failures of the submission are reported, never sent twice, and
    end like every call, with [loading] false and on the fallback page:
    without a stored token nothing is posted and the error is
    "Authentication required"; a POST that is aborted or refused is posted
    once and leaves an error message (the server's, when it gave one);
    only a POST that succeeded leaves no error.  The request settles in
    every case: the call aborts it after 15 seconds. *)
Theorem endInterview_failures (env : Env) (snap : State) (w : World)
    (data : InterviewData) :
  interviewData snap = Some data ->
  let w' := endInterview env snap w in
  loading (comp w') = false /\
  (truthy_token (token env) = false ->
   posts w' = posts w /\
   error (comp w') = "Authentication required"%string /\
   routes w' = routes w ++ ["/interview/results"%string]) /\
  (truthy_token (token env) = true ->
   posts w' = posts w ++ [data] /\
   (error (comp w') = ""%string <-> exists _id, response env = Created _id) /\
   (forall m, response env = Failed (Some m) -> m <> ""%string ->
              error (comp w') = m) /\
   ((forall _id, response env <> Created _id) ->
    routes w' = routes w ++ ["/interview/results"%string])).
Proof.
  intros E. cbv zeta.
  destruct (PerceptionFacts.flags_endInterview env snap w) as (_ & _ & L & _).
  destruct (routes_endInterview env snap w) as (to & R & _ & F).
  split; [exact L|].
  rewrite posts_endInterview, error_endInterview, R.
  unfold submitted in *. rewrite E in *. split; intros T; rewrite T in *.
  - rewrite app_nil_r. split; [reflexivity|]. split; [reflexivity|].
    now rewrite F by now left.
  - split; [reflexivity|]. split; [|split].
    + destruct (response env) as [_id| |message].
      * split; [intros _; now exists _id | reflexivity].
      * split; [discriminate | intros [_id H]; discriminate H].
      * split; [|intros [_id H]; discriminate H].
        unfold failure_message. destruct message as [[|c m]|]; discriminate.
    + intros m -> Hm. unfold failure_message.
      destruct m; [congruence | reflexivity].
    + intros N. now rewrite F by now right.
Qed.

Lemma endInterview_failures_witness :
  posts (endInterview {| token := None; response := Aborted |}
           Examples.two_samples (initialWorld true)) = [] /\
  error (comp (endInterview {| token := None; response := Aborted |}
                 Examples.two_samples (initialWorld true)))
  = "Authentication required"%string /\
  routes (endInterview {| token := None; response := Aborted |}
            Examples.two_samples (initialWorld true))
  = ["/interview/results"%string].
Proof.
  refine (proj1 (proj2 (endInterview_failures
                          {| token := None; response := Aborted |}
                          Examples.two_samples (initialWorld true)
                          Examples.two_samples_report _)) _); reflexivity.
Defined.

Lemma array_set_lookup_witness :
  nth_error (array_set [Some 1; Some 2] 3 7) 2 = Some None.
Proof.
  refine (proj1 (proj2 (proj2 (array_set_lookup [Some 1; Some 2] 3%nat 7))) 2%nat _).
  simpl. lia.
Defined.

Lemma nextQuestion_stores_answer_witness :
  nth_error
    (answers (comp (nextQuestion Examples.signed_in
                      (comp Examples.on_last_question)
                      Examples.on_last_question))) 1
  = Some (Some " react hooks are great for state management"%string).
Proof.
  exact (proj1 (nextQuestion_stores_answer Examples.signed_in
                  Examples.on_last_question)).
Defined.

Lemma tick_step env w :
  0 < remainingTime (comp w) ->
  step (Tick env) w
  = Some (detectionEffect
            (timerEffect env
               (on_comp (fun st => setRemainingTime (remainingTime st - 1) st) w))).
Proof.
  intros H. unfold step, handle.
  destruct (Z.leb_spec (remainingTime (comp w)) 0); [lia | reflexivity].
Qed.

(** One tick of the countdown while more than a second is left. *)
Lemma tick_running env w :
  1 < remainingTime (comp w) ->
  exists w1,
    step (Tick env) w = Some w1 /\
    remainingTime (comp w1) = remainingTime (comp w) - 1 /\
    histories (comp w1) = histories (comp w) /\
    sample (comp w1) = sample (comp w) /\
    cameraActive (comp w1) = cameraActive (comp w) /\
    routes w1 = routes w.
Proof.
  intros H. rewrite tick_step by lia. eexists. split; [reflexivity|].
  unfold timerEffect.
  change (remainingTime
            (comp (on_comp (fun st => setRemainingTime (remainingTime st - 1) st) w)))
    with (remainingTime (comp w) - 1).
  destruct (Z.leb_spec (remainingTime (comp w) - 1) 0); [lia|].
  repeat split.
Qed.

(** The tick that takes the countdown to zero, up to the return of
    [endInterview] and before any effect that its updates set off. *)
Lemma tick_last env w :
  remainingTime (comp w) = 1 ->
  exists w1 to,
    step (Tick env) w = Some w1 /\
    remainingTime (comp w1) = 0 /\
    histories (comp w1) = push (histories (comp w)) (sample (comp w)) /\
    routes w1 = routes w ++ [to] /\
    step (Tick env) w1 = None.
Proof.
  intros H. rewrite tick_step by lia.
  set (w0 := on_comp (fun st => setRemainingTime (remainingTime st - 1) st) w).
  assert (H0 : remainingTime (comp w0) = 0)
    by (change (remainingTime (comp w0)) with (remainingTime (comp w) - 1); lia).
  unfold timerEffect. rewrite H0. change (0 <=? 0) with true. cbv iota.
  destruct (routes_endInterview env (comp w0) w0) as (to & R & _).
  assert (T : remainingTime (comp (endInterview env (comp w0) w0)) = 0).
  { rewrite <- H0.
    unfold endInterview, endInterview_submit, endInterview_save,
      endInterview_shutdown, stopListening.
    by_cases. }
  eexists. exists to. split; [reflexivity|].
  change (comp (detectionEffect (endInterview env (comp w0) w0)))
    with (comp (endInterview env (comp w0) w0)).
  change (routes (detectionEffect (endInterview env (comp w0) w0)))
    with (routes (endInterview env (comp w0) w0)).
  split; [exact T|]. split; [|split; [exact R|]].
  - rewrite histories_endInterview. reflexivity.
  - unfold step, handle.
    change (comp (detectionEffect (endInterview env (comp w0) w0)))
      with (comp (endInterview env (comp w0) w0)).
    rewrite T. reflexivity.
Qed.

(** The first effect, run again after the end of the interview with
    settings that give a duration, starts the countdown anew: the time is
    set to the whole duration and the next tick can happen. *)
Lemma first_effect_restarts_countdown env env' duration w :
  0 < duration ->
  exists w1 w2,
    step (SettingsLoaded duration env') (endInterview env (comp w) w) = Some w1 /\
    remainingTime (comp w1) = duration * 60 /\
    step (Tick env') w1 = Some w2.
Proof.
  intros H.
  set (e := endInterview env (comp w) w).
  set (w0 := on_comp (setRemainingTime (duration * 60)) e).
  assert (T : remainingTime (comp w0) = duration * 60) by reflexivity.
  assert (S1 : step (SettingsLoaded duration env') e = Some (detectionEffect w0)).
  { unfold step, handle, timerEffect. fold w0. rewrite T.
    destruct (Z.leb_spec (duration * 60) 0); [lia | reflexivity]. }
  exists (detectionEffect w0). eexists.
  split; [exact S1|]. split; [exact T|].
  apply tick_step. change (comp (detectionEffect w0)) with (comp w0). lia.
Qed.

(** X15.  A countdown of [n + 1] seconds takes [n + 1] ticks and ends the
    interview exactly once: one sample more in each history and one
    navigation.  When the camera was off, [endInterview] changes nothing
    that an effect depends on besides the time: the time stays at zero and
    no further tick can happen.  When the camera was on, [endInterview]
    turns it off, the first effect runs again (line 333) and sets the time
    anew (line 105); nothing is said of the time in that case. *)
Theorem countdown_ends_once (env : Env) (n : nat) :
  forall w,
    remainingTime (comp w) = Z.of_nat (S n) ->
    exists w' to,
      run (repeat (Tick env) (S n)) w = Some w' /\
      histories (comp w') = push (histories (comp w)) (sample (comp w)) /\
      routes w' = routes w ++ [to] /\
      (cameraActive (comp w) = false ->
       remainingTime (comp w') = 0 /\ step (Tick env) w' = None).
Proof.
  induction n as [|n IH]; intros w H.
  - destruct (tick_last env w H) as (w1 & to & S1 & T & Hh & R & N).
    exists w1, to. simpl. rewrite S1. auto.
  - destruct (tick_running env w ltac:(lia)) as (w1 & S1 & T & Hh & P & C & R).
    destruct (IH w1 ltac:(lia)) as (w' & to & Rn & Hh' & R' & N).
    exists w', to. change (repeat (Tick env) (S (S n)))
      with (Tick env :: repeat (Tick env) (S n)).
    cbn [run]. rewrite S1.
    split; [exact Rn|]. split; [|split].
    + now rewrite Hh', Hh, P.
    + now rewrite R', R.
    + intros A. apply N. now rewrite C.
Qed.

Lemma countdown_ends_once_witness :
  exists w' to,
    run (repeat (Tick Examples.signed_in) 2)
      (on_comp (setRemainingTime 2) (on_comp (setCameraActive false)
                                       Examples.on_last_question)) = Some w' /\
    histories (comp w')
    = push (histories (comp Examples.on_last_question))
        (sample (comp Examples.on_last_question)) /\
    routes w' = routes Examples.on_last_question ++ [to] /\
    remainingTime (comp w') = 0 /\
    step (Tick Examples.signed_in) w' = None.
Proof.
  destruct (countdown_ends_once Examples.signed_in 1
              (on_comp (setRemainingTime 2)
                 (on_comp (setCameraActive false) Examples.on_last_question))
              eq_refl)
    as (w' & to & R & Hh & Rt & N).
  exists w', to. split; [exact R|]. split; [exact Hh|]. split; [exact Rt|].
  apply N. reflexivity.
Defined.

End LifecycleFacts.

(** ** The textual scores *)

Module ScoringFacts.

Import Communication Scoring ScoringClaims.

Local Open Scope string_scope.

(** X16.  Running the scoring effect again on the state it produced changes
    nothing: the scores are a function of the answer, the cursor and the
    questions, which the effect does not write. *)
Theorem scoringEffect_idempotent (st st' : State) :
  scoringEffect st = Some st' -> scoringEffect st' = Some st'.
Proof.
  unfold scoringEffect.
  destruct (negb (Str.truthy (userAnswer st))
            || (List.length (questions st) =? 0)%nat) eqn:G.
  - intros H. injection H as <-. simpl. rewrite G. reflexivity.
  - destruct (nth_error (questions st) (currentQuestion st)) as [q|] eqn:Q.
    + destruct (newRelevanceScore (userAnswer st) (keyPhrases q)) as [r|] eqn:R;
        [|discriminate].
      intros H. injection H as <-. simpl. rewrite G, Q, R. reflexivity.
    + intros H. injection H as <-. rewrite G, Q. reflexivity.
Qed.

Lemma scoringEffect_idempotent_witness :
  exists st',
    scoringEffect (Lifecycle.comp Examples.answering) = Some st' /\
    scoringEffect st' = Some st'.
Proof.
  eexists. split; [vm_compute; reflexivity|].
  apply (scoringEffect_idempotent (Lifecycle.comp Examples.answering)).
  vm_compute. reflexivity.
Defined.

Lemma newRelevanceScore_closed userAnswer keyPhrases :
  keyPhrases <> [] ->
  let m := Z.of_nat (List.length (matched userAnswer keyPhrases)) in
  let M := Z.min 5 (Z.of_nat (List.length keyPhrases)) in
  newRelevanceScore userAnswer keyPhrases
  = Some (Z.min ((200 * m + M) / (2 * M)) 100).
Proof.
  intros Hk m M. unfold newRelevanceScore, JS.div, Math_min.
  rewrite matchedPhrases_count. fold m. fold M.
  assert (HM : 0 < M).
  { unfold M. destruct keyPhrases; [congruence | simpl List.length; lia]. }
  destruct (Z.eqb_spec M 0) as [E|_]; [lia|].
  f_equal. f_equal.
  replace (200 * m) with (2 * (100 * m)) by lia.
  rewrite <- Math_round_div by exact HM. unfold Math_round.
  apply Qfloor_comp. rewrite inject_Z_mult. field.
  intros E. unfold Qeq in E. simpl in E. lia.
Qed.

(** X17.  Against a question with five key phrases or more, every key
    phrase found in the answer is worth 20 points and five of them give the
    full score: the relevance is [min(100, 20 * matched)]. *)
Theorem relevance_twenty_per_phrase (userAnswer : string)
    (keyPhrases : list string) :
  (5 <= List.length keyPhrases)%nat ->
  newRelevanceScore userAnswer keyPhrases
  = Some (Z.min 100
            (20 * Z.of_nat (List.length (matched userAnswer keyPhrases)))).
Proof.
  intros H.
  rewrite newRelevanceScore_closed by (destruct keyPhrases; [simpl in H; lia | discriminate]).
  cbv zeta. rewrite (Z.min_l 5 (Z.of_nat (List.length keyPhrases))) by lia.
  set (m := Z.of_nat (List.length (matched userAnswer keyPhrases))).
  replace (200 * m + 5) with (5 + (20 * m) * 10) by lia.
  change (2 * 5) with 10. rewrite Z.div_add by lia.
  change (5 / 10) with 0. rewrite Z.add_0_l. f_equal. lia.
Qed.

Lemma relevance_twenty_per_phrase_witness :
  newRelevanceScore "we diff the dom and batch every update"
    (keyPhrases Examples.virtual_dom_question) = Some 80.
Proof.
  rewrite relevance_twenty_per_phrase by (simpl; lia).
  reflexivity.
Defined.

Lemma toLowerCase_app a b :
  Str.toLowerCase (a ++ b) = Str.toLowerCase a ++ Str.toLowerCase b.
Proof. induction a as [|c a IH]; simpl; [reflexivity | now rewrite IH]. Qed.

Lemma string_app_assoc (a b c : string) : (a ++ b) ++ c = a ++ (b ++ c).
Proof. induction a as [|x a IH]; simpl; [reflexivity | now rewrite IH]. Qed.

Lemma includes_app before s after t :
  Str.includes s t = true -> Str.includes (before ++ s ++ after) t = true.
Proof.
  rewrite !includes_occurs. intros (a & b & ->).
  exists (before ++ a), (b ++ after).
  now rewrite !string_app_assoc.
Qed.

Lemma filter_length_mono {A : Type} (f g : A -> bool) (l : list A) :
  (forall x, f x = true -> g x = true) ->
  (List.length (filter f l) <= List.length (filter g l))%nat.
Proof.
  intros H. induction l as [|x l IH]; simpl; [lia|].
  destruct (f x) eqn:F.
  - rewrite (H x F). simpl. lia.
  - destruct (g x); simpl; lia.
Qed.

(** X18.  Adding text before or after an answer never lowers its relevance
    against the same key phrases. *)
Theorem relevance_monotone (before userAnswer after : string)
    (keyPhrases : list string) (r r' : Z) :
  newRelevanceScore userAnswer keyPhrases = Some r ->
  newRelevanceScore (before ++ userAnswer ++ after) keyPhrases = Some r' ->
  r <= r'.
Proof.
  intros H H'.
  assert (Hk : keyPhrases <> []) by (intros ->; discriminate).
  pose proof (newRelevanceScore_closed userAnswer keyPhrases Hk) as C.
  pose proof (newRelevanceScore_closed (before ++ userAnswer ++ after)
                keyPhrases Hk) as C'.
  cbv zeta in C, C'.
  set (M := Z.min 5 (Z.of_nat (List.length keyPhrases))) in *.
  set (m := Z.of_nat (List.length (matched userAnswer keyPhrases))) in *.
  set (m' := Z.of_nat (List.length
                         (matched (before ++ userAnswer ++ after) keyPhrases)))
    in *.
  assert (HM : 0 < M).
  { unfold M. destruct keyPhrases as [|p ps]; [congruence|].
    change (List.length (p :: ps)) with (S (List.length ps)). lia. }
  assert (Hm : m <= m').
  { unfold m, m', matched. apply inj_le. apply filter_length_mono.
    intros x Hx. rewrite !toLowerCase_app. now apply includes_app. }
  assert (Er : r = Z.min ((200 * m + M) / (2 * M)) 100) by congruence.
  assert (Er' : r' = Z.min ((200 * m' + M) / (2 * M)) 100) by congruence.
  rewrite Er, Er'.
  apply Z.min_le_compat_r. apply Z.div_le_mono; lia.
Qed.

Lemma relevance_monotone_witness : 40 <= 80.
Proof.
  apply (relevance_monotone "we " "diff the dom" " and batch every update"
           (keyPhrases Examples.virtual_dom_question) 40 80);
    vm_compute; reflexivity.
Defined.

End ScoringFacts.

(** ** The clock *)

Module DisplayFacts.

Import Display.

Local Open Scope string_scope.

Lemma toString_read n : 0 <= n -> readDecimal (toString n) = Some n.
Proof.
  intros Hn. destruct n as [|p|p]; [reflexivity | | lia].
  unfold toString, readDecimal. cbn [Z.to_int NilZero.string_of_int].
  pose proof (Unsigned.to_uint_nonnil p) as Hnil.
  pose proof (Unsigned.of_to p) as Hp.
  assert (E : NilZero.string_of_uint (Pos.to_uint p)
              = NilEmpty.string_of_uint (Pos.to_uint p)).
  { destruct (Pos.to_uint p); [congruence | reflexivity ..]. }
  rewrite E, NilEmpty.usu. cbn [option_map]. unfold Z.of_uint.
  now rewrite Hp.
Qed.

Lemma toString_nonempty n : (1 <= String.length (toString n))%nat.
Proof.
  unfold toString. destruct n as [|p|p]; cbn [Z.to_int NilZero.string_of_int].
  - simpl. lia.
  - pose proof (Unsigned.to_uint_nonnil p).
    destruct (Pos.to_uint p); [congruence | simpl; lia ..].
  - simpl. lia.
Qed.

Lemma read_zero s : readDecimal (String "0" s) = readDecimal s.
Proof.
  unfold readDecimal. cbn [NilEmpty.uint_of_string].
  destruct (NilEmpty.uint_of_string s); reflexivity.
Qed.

Lemma filler_length n padString rest :
  padString <> "" -> String.length (filler n padString rest) = n.
Proof.
  intros Hp. revert rest. induction n as [|n IH]; intros rest; [reflexivity|].
  cbn [filler]. destruct rest as [|c rest].
  - destruct padString as [|c p]; [congruence|]. cbn. now rewrite IH.
  - cbn. now rewrite IH.
Qed.

Lemma filler_zeros n rest s :
  rest = "0" \/ rest = "" ->
  readDecimal (filler n "0" rest ++ s) = readDecimal s.
Proof.
  revert rest. induction n as [|n IH]; intros rest Hr; [reflexivity|].
  cbn [filler]. destruct Hr as [-> | ->].
  - cbn [append]. rewrite read_zero. apply IH. now right.
  - cbn [append]. rewrite read_zero. apply IH. now right.
Qed.

Lemma string_length_app (a b : string) :
  String.length (a ++ b) = (String.length a + String.length b)%nat.
Proof. induction a as [|c a IH]; simpl; [reflexivity | now rewrite IH]. Qed.

Lemma padStart_length s targetLength padString :
  padString <> "" ->
  String.length (padStart s targetLength padString)
  = Nat.max targetLength (String.length s).
Proof.
  intros Hp. unfold padStart.
  destruct (Nat.leb_spec targetLength (String.length s)); [lia|].
  rewrite string_length_app, filler_length by exact Hp. lia.
Qed.

Lemma padStart_read n :
  0 <= n -> readDecimal (padStart (toString n) 2 "0") = Some n.
Proof.
  intros Hn. unfold padStart.
  destruct (2 <=? String.length (toString n))%nat.
  - now apply toString_read.
  - rewrite filler_zeros by now left. now apply toString_read.
Qed.

Lemma two_digits n :
  0 <= n < 100 -> (String.length (toString n) <= 2)%nat.
Proof.
  intros Hn.
  assert (H : forallb (fun k => (String.length (toString (Z.of_nat k)) <=? 2)%nat)
                (seq 0 100) = true) by (vm_compute; reflexivity).
  rewrite forallb_forall in H.
  specialize (H (Z.to_nat n)). rewrite Z2Nat.id in H by lia.
  apply Nat.leb_le, H, in_seq. lia.
Qed.

Lemma string_app_inj (a1 a2 b1 b2 : string) :
  String.length a1 = String.length a2 ->
  a1 ++ b1 = a2 ++ b2 -> a1 = a2 /\ b1 = b2.
Proof.
  revert a2. induction a1 as [|c a1 IH]; intros [|c2 a2] Hl H;
    simpl in Hl; try discriminate.
  - now split.
  - simpl in H. injection H as -> H.
    destruct (IH a2) as [-> ->]; [lia | exact H | now split].
Qed.

Lemma formatTime_parts seconds :
  0 <= seconds ->
  let mm := padStart (toString (seconds / 60)) 2 "0" in
  let ss := padStart (toString (seconds mod 60)) 2 "0" in
  formatTime seconds = mm ++ ":" ++ ss /\
  (2 <= String.length mm)%nat /\ String.length ss = 2%nat.
Proof.
  intros Hs mm ss. split; [|split].
  - unfold formatTime, mm, ss. cbv zeta.
    now rewrite Z.rem_mod_nonneg by lia.
  - unfold mm. rewrite padStart_length by discriminate. lia.
  - unfold ss. rewrite padStart_length by discriminate.
    assert (0 <= seconds mod 60 < 60) by (apply Z.mod_pos_bound; lia).
    pose proof (two_digits (seconds mod 60)). lia.
Qed.

(** X19.  The clock of a time that is not negative reads [mm:ss]: two
    digits of seconds after the colon, the minutes before it on two digits
    or more (exactly two below 100 minutes), and the two numerals denote
    [seconds / 60] and [seconds mod 60]. *)
Theorem formatTime_layout (seconds : Z) :
  0 <= seconds ->
  exists mm ss,
    formatTime seconds = mm ++ ":" ++ ss /\
    (2 <= String.length mm)%nat /\
    (seconds < 6000 -> String.length mm = 2%nat) /\
    String.length ss = 2%nat /\
    readDecimal mm = Some (seconds / 60) /\
    readDecimal ss = Some (seconds mod 60).
Proof.
  intros Hs. destruct (formatTime_parts seconds Hs) as (E & Lm & Ls).
  exists (padStart (toString (seconds / 60)) 2 "0"),
         (padStart (toString (seconds mod 60)) 2 "0").
  split; [exact E|]. split; [exact Lm|]. split; [|split; [exact Ls|split]].
  - intros Hlt. rewrite padStart_length by discriminate.
    assert (0 <= seconds / 60 < 100).
    { split; [apply Z.div_pos; lia | apply Z.div_lt_upper_bound; lia]. }
    pose proof (two_digits (seconds / 60)). lia.
  - apply padStart_read. apply Z.div_pos; lia.
  - apply padStart_read. apply Z.mod_pos_bound. lia.
Qed.

Lemma formatTime_layout_witness :
  exists mm ss,
    formatTime 754 = mm ++ ":" ++ ss /\
    (2 <= String.length mm)%nat /\
    (754 < 6000 -> String.length mm = 2%nat) /\
    String.length ss = 2%nat /\
    readDecimal mm = Some (754 / 60) /\
    readDecimal ss = Some (754 mod 60).
Proof. apply (formatTime_layout 754). lia. Defined.

(** X20.  Two times that are not negative and show the same clock are the
    same time. *)
Theorem formatTime_injective (s1 s2 : Z) :
  0 <= s1 -> 0 <= s2 -> formatTime s1 = formatTime s2 -> s1 = s2.
Proof.
  intros H1 H2 E.
  destruct (formatTime_parts s1 H1) as (E1 & Lm1 & Ls1).
  destruct (formatTime_parts s2 H2) as (E2 & Lm2 & Ls2).
  rewrite E1, E2 in E.
  assert (Hl : String.length (padStart (toString (s1 / 60)) 2 "0")
               = String.length (padStart (toString (s2 / 60)) 2 "0")).
  { apply (f_equal String.length) in E.
    rewrite !string_length_app in E. rewrite Ls1, Ls2 in E. lia. }
  destruct (string_app_inj _ _ _ _ Hl E) as [Em Es].
  injection Es as Es.
  apply (f_equal readDecimal) in Em, Es.
  rewrite !padStart_read in Em, Es
    by (try (apply Z.div_pos; lia); apply Z.mod_pos_bound; lia).
  injection Em as Em. injection Es as Es.
  rewrite (Z.div_mod s1 60), (Z.div_mod s2 60) by lia. lia.
Qed.

Lemma formatTime_injective_witness : 754 = 754.
Proof.
  apply (formatTime_injective 754 754); [lia | lia | reflexivity].
Defined.

End DisplayFacts.

(** ** The questions of an interview *)

Module QuestionFacts.

Import Questions.

Lemma randomBelow_range (r : Q) (n : Z) :
  (0 <= r)%Q -> (r < 1)%Q -> 0 < n -> 0 <= randomBelow r n < n.
Proof.
  intros H0 H1 Hn. unfold randomBelow.
  assert (Hq : (0 < inject_Z n)%Q).
  { change 0%Q with (inject_Z 0). rewrite <- Zlt_Qlt. exact Hn. }
  split.
  - change 0 with (Qfloor (inject_Z 0)). apply Qfloor_resp_le.
    change (inject_Z 0) with 0%Q. apply Qmult_le_0_compat; [exact H0|].
    now apply Qlt_le_weak.
  - rewrite Zlt_Qlt. apply Qle_lt_trans with (r * inject_Z n)%Q.
    + apply Qfloor_le.
    + setoid_replace (inject_Z n) with (1 * inject_Z n)%Q at 2 by ring.
      apply Qmult_lt_compat_r; assumption.
Qed.

Lemma element_Some {A : Type} (arr : list A) (i : Z) :
  0 <= i < Z.of_nat (List.length arr) ->
  exists x, element arr i = Some x /\ In x arr.
Proof.
  intros Hi. unfold element.
  destruct (Z.ltb_spec i 0) as [|_]; [lia|].
  destruct (nth_error arr (Z.to_nat i)) as [x|] eqn:E.
  - exists x. split; [reflexivity|]. eapply nth_error_In, E.
  - apply nth_error_None in E. lia.
Qed.

Lemma assign_length {A : Type} (arr : list A) (i : nat) (v : A) :
  List.length (assign arr i v) = List.length arr.
Proof.
  revert i. induction arr as [|x arr IH]; intros [|i]; simpl; auto.
Qed.

Lemma assign_same {A : Type} (arr : list A) (i : nat) (v : A) :
  (i < List.length arr)%nat -> nth_error (assign arr i v) i = Some v.
Proof.
  revert i. induction arr as [|x arr IH]; intros [|i] Hi; simpl in *;
    try lia; [reflexivity | apply IH; lia].
Qed.

Lemma assign_other {A : Type} (arr : list A) (i j : nat) (v : A) :
  i <> j -> nth_error (assign arr i v) j = nth_error arr j.
Proof.
  revert i j. induction arr as [|x arr IH]; intros [|i] [|j] H; simpl;
    try reflexivity; try congruence.
  apply IH. congruence.
Qed.

(** Replacing one element by another, up to the order. *)
Lemma assign_Permutation {A : Type} (arr : list A) (i : nat) (x v : A) :
  nth_error arr i = Some x ->
  Permutation (v :: arr) (x :: assign arr i v).
Proof.
  revert i. induction arr as [|y arr IH]; intros [|i] H; simpl in *;
    try discriminate.
  - injection H as ->. apply perm_swap.
  - apply Permutation_trans with (y :: v :: arr); [apply perm_swap|].
    apply Permutation_trans with (y :: x :: assign arr i v);
      [|apply perm_swap].
    apply perm_skip. now apply IH.
Qed.

Lemma swap_Permutation {A : Type} (arr swapped : list A) (i : nat) (j : Z) :
  swap arr i j = Some swapped ->
  Permutation arr swapped /\ List.length swapped = List.length arr.
Proof.
  unfold swap, element.
  destruct (nth_error arr i) as [x|] eqn:Ei; [|discriminate].
  destruct (j <? 0); [discriminate|].
  destruct (nth_error arr (Z.to_nat j)) as [y|] eqn:Ej; [|discriminate].
  intros H. injection H as <-. split; [|now rewrite !assign_length].
  apply Permutation_cons_inv with (a := y).
  apply Permutation_trans with (x :: assign arr i y).
  - now apply assign_Permutation.
  - apply assign_Permutation.
    destruct (Nat.eq_dec i (Z.to_nat j)) as [<- | Hne].
    + apply assign_same. apply nth_error_Some. congruence.
    + now rewrite assign_other.
Qed.

Lemma swap_Some {A : Type} (arr : list A) (i : nat) (j : Z) :
  (i < List.length arr)%nat -> 0 <= j < Z.of_nat (List.length arr) ->
  exists swapped, swap arr i j = Some swapped.
Proof.
  intros Hi Hj. unfold swap.
  destruct (nth_error arr i) as [x|] eqn:Ei.
  - destruct (element_Some arr j Hj) as (y & -> & _). eauto.
  - apply nth_error_None in Ei. lia.
Qed.

Lemma shuffleLoop_Permutation {A : Type} (random : Random) :
  unit_interval random ->
  forall (i : nat) (newArray : list A) (k : nat),
    (i < List.length newArray)%nat \/ i = O ->
    exists shuffled,
      shuffleLoop random i newArray k = Some (shuffled, (k + i)%nat) /\
      Permutation newArray shuffled.
Proof.
  intros Hr. induction i as [|i IH]; intros newArray k Hi.
  - exists newArray. simpl. rewrite Nat.add_0_r. split; [reflexivity|].
    apply Permutation_refl.
  - destruct Hi as [Hi|]; [|discriminate].
    cbn [shuffleLoop].
    destruct (Hr k) as [H0 H1].
    pose proof (randomBelow_range (random k) (Z.of_nat (S i) + 1) H0 H1
                  ltac:(lia)) as Hj.
    destruct (swap_Some newArray (S i)
                (randomBelow (random k) (Z.of_nat (S i) + 1)) Hi ltac:(lia))
      as (swapped & E).
    rewrite E. destruct (swap_Permutation _ _ _ _ E) as [P L].
    destruct (IH swapped (S k) ltac:(left; lia)) as (shuffled & E' & P').
    exists shuffled. replace (k + S i)%nat with (S k + i)%nat by lia.
    split; [exact E'|]. eapply Permutation_trans; eassumption.
Qed.

(** X21.  With draws in [0, 1), [shuffleArray] returns a rearrangement of
    its argument: the same elements, each as many times, and it makes one
    draw for each position but the first. *)
Theorem shuffleArray_Permutation {A : Type} (random : Random)
    (array : list A) (k : nat) :
  unit_interval random ->
  exists shuffled,
    shuffleArray random array k
    = Some (shuffled, (k + (List.length array - 1))%nat) /\
    Permutation array shuffled.
Proof.
  intros Hr. unfold shuffleArray.
  apply shuffleLoop_Permutation; [exact Hr|].
  destruct array; simpl; [now right | left; lia].
Qed.

Lemma sample_random_unit : unit_interval sample_random.
Proof.
  intros k. unfold sample_random.
  pose proof (Nat.mod_upper_bound (k * 5) 7 ltac:(lia)) as H.
  set (m := (k * 5 mod 7)%nat) in *.
  unfold Qle, Qlt, Qdiv, Qmult, Qinv, inject_Z. simpl. lia.
Qed.

Lemma shuffleArray_Permutation_witness :
  exists shuffled,
    shuffleArray sample_random [1; 2; 3; 4; 5; 6] 0
    = Some (shuffled, 5%nat) /\
    Permutation [1; 2; 3; 4; 5; 6] shuffled.
Proof.
  exact (shuffleArray_Permutation sample_random [1; 2; 3; 4; 5; 6] 0%nat
           sample_random_unit).
Defined.

(** *** The data of the bank *)

Lemma bank_rich skill skillQuestions :
  questionBank skill = Own skillQuestions -> Forall rich skillQuestions.
Proof.
  unfold questionBank.
  repeat match goal with
         | |- context [if ?b then _ else _] => destruct b
         end;
    intros H; try discriminate; injection H as <-;
    repeat constructor; unfold rich; simpl; lia.
Qed.

Lemma defaults_rich skills : Forall rich (defaultSkillQuestions skills).
Proof. repeat constructor; unfold rich; simpl; lia. Qed.

Lemma generic_rich skills n : rich (genericQuestion skills n).
Proof. unfold rich. simpl. lia. Qed.

(** *** The [forEach] over the skills *)

Lemma pick_id r index lookup : idOf (pick r index lookup) = Z.of_nat index + 1.
Proof.
  unfold pick. destruct lookup as [l| |]; try reflexivity.
  destruct (element l _); reflexivity.
Qed.

Lemma pick_rich r index skill :
  (0 <= r)%Q -> (r < 1)%Q ->
  plain_skill skill -> hasQuestions (questionBank skill) = true ->
  well_formed (pick r index (questionBank skill)).
Proof.
  intros H0 H1 Hp Hq. unfold plain_skill in Hp.
  destruct (questionBank skill) as [l|arity|] eqn:E; simpl in Hq.
  - apply Nat.ltb_lt in Hq. unfold pick.
    destruct (element_Some l (randomBelow r (Z.of_nat (List.length l))))
      as (e & -> & He).
    { apply randomBelow_range; [assumption .. | lia]. }
    simpl. pose proof (bank_rich _ _ E) as R.
    rewrite Forall_forall in R. now apply R.
  - apply Z.ltb_lt in Hq. lia.
  - discriminate.
Qed.

Lemma forEachSkill_spec (random : Random) (skills : list string) :
  forall (index : nat) (selectedQuestions : list Selected) (k : nat),
  exists picked,
    forEachSkill random skills index selectedQuestions k
    = (selectedQuestions ++ picked, (k + List.length picked)%nat) /\
    (List.length picked <= List.length skills)%nat /\
    (unit_interval random -> Forall plain_skill skills ->
     Forall well_formed picked) /\
    (Forall (fun skill => hasQuestions (questionBank skill) = true) skills ->
     map idOf picked
     = map Z.of_nat (seq (S index) (List.length skills))) /\
    (forall skill arity,
        In skill skills -> questionBank skill = Method arity -> 0 < arity ->
        exists n, In (IdOnly n) picked).
Proof.
  induction skills as [|skill rest IH]; intros index selectedQuestions k.
  - exists []. simpl. rewrite app_nil_r, Nat.add_0_r.
    split; [reflexivity|]. split; [lia|]. split; [constructor|].
    split; [reflexivity|]. intros ? ? [].
  - cbn [forEachSkill].
    destruct (hasQuestions (questionBank skill)) eqn:Hq.
    + destruct (IH (S index)
                  (selectedQuestions
                   ++ [pick (random k) index (questionBank skill)]) (S k))
        as (picked & E & L & W & I & B).
      exists (pick (random k) index (questionBank skill) :: picked).
      rewrite E, <- app_assoc. simpl.
      split; [f_equal; lia|]. split; [lia|]. split; [|split].
      * intros Hr Hs. inversion Hs as [|? ? Hp Hs']; subst.
        constructor; [|now apply W].
        destruct (Hr k). now apply pick_rich.
      * intros Hs. inversion Hs as [|? ? _ Hs']; subst.
        rewrite pick_id, (I Hs'). f_equal. lia.
      * intros s arity [<- | Hin] Hm Ha.
        -- exists (Z.of_nat index + 1). left. unfold pick. now rewrite Hm.
        -- destruct (B s arity Hin Hm Ha) as (n & Hn). exists n. now right.
    + destruct (IH (S index) selectedQuestions k)
        as (picked & E & L & W & I & B).
      exists picked. rewrite E. simpl.
      split; [reflexivity|]. split; [lia|]. split; [|split].
      * intros Hr Hs. inversion Hs; subst. now apply W.
      * intros Hs. inversion Hs; subst. congruence.
      * intros s arity [<- | Hin] Hm Ha.
        -- rewrite Hm in Hq. simpl in Hq. apply Z.ltb_ge in Hq. lia.
        -- now apply (B s arity).
Qed.

(** *** The [while] loop *)

Lemma padding_spec (skills : list string) (n : Z) :
  forall (fuel : nat) (defaults : list Entry)
         (selectedQuestions : list Selected),
    n <= Z.of_nat (List.length selectedQuestions) + Z.of_nat fuel ->
    exists added,
      padding fuel skills (Some n) defaults selectedQuestions
      = Some (selectedQuestions ++ added) /\
      Z.of_nat (List.length added)
      = Z.max 0 (n - Z.of_nat (List.length selectedQuestions)) /\
      map idOf added
      = map Z.of_nat
          (seq (S (List.length selectedQuestions)) (List.length added)) /\
      (Forall rich defaults -> Forall well_formed added).
Proof.
  assert (step : forall selectedQuestions e added,
             let len := List.length selectedQuestions in
             let q := Full (withId (Z.of_nat len + 1) e) in
             n > Z.of_nat len ->
             Z.of_nat (List.length added)
             = Z.max 0 (n - Z.of_nat (List.length (selectedQuestions ++ [q]))) ->
             map idOf added
             = map Z.of_nat
                 (seq (S (List.length (selectedQuestions ++ [q])))
                    (List.length added)) ->
             Z.of_nat (List.length (q :: added)) = Z.max 0 (n - Z.of_nat len) /\
             map idOf (q :: added)
             = map Z.of_nat (seq (S len) (List.length (q :: added)))).
  { intros sel e added len q Hlt L I.
    rewrite length_app in L, I. cbn [List.length] in L, I. fold len in L, I.
    change (List.length (q :: added)) with (S (List.length added)).
    split; [lia|].
    cbn [map seq idOf q]. cbn [withId id]. f_equal; [lia|].
    rewrite I. do 2 f_equal. lia. }
  induction fuel as [|fuel IH]; intros defaults selectedQuestions Hf.
  - exists []. cbn [padding lessThan].
    destruct (Z.ltb_spec (Z.of_nat (List.length selectedQuestions)) n);
      [lia|].
    rewrite app_nil_r. cbn [List.length map seq].
    split; [reflexivity|]. split; [lia|].
    split; [reflexivity | constructor].
  - cbn [padding lessThan].
    destruct (Z.ltb_spec (Z.of_nat (List.length selectedQuestions)) n).
    + destruct defaults as [|defaultQuestion rest].
      * destruct (IH [] (selectedQuestions
                         ++ [Full (withId
                                     (Z.of_nat (List.length selectedQuestions) + 1)
                                     (genericQuestion skills
                                        (List.length selectedQuestions)))]))
          as (added & E & L & I & W).
        { rewrite length_app. cbn [List.length]. lia. }
        assert (Hgt : n > Z.of_nat (List.length selectedQuestions)) by lia.
        destruct (step selectedQuestions _ added Hgt L I) as [L' I'].
        eexists (_ :: added). rewrite E, <- app_assoc.
        split; [reflexivity|]. split; [exact L'|]. split; [exact I'|].
        intros _. constructor; [apply generic_rich | apply W; constructor].
      * destruct (IH rest (selectedQuestions
                           ++ [Full (withId
                                       (Z.of_nat (List.length selectedQuestions) + 1)
                                       defaultQuestion)]))
          as (added & E & L & I & W).
        { rewrite length_app. cbn [List.length]. lia. }
        assert (Hgt : n > Z.of_nat (List.length selectedQuestions)) by lia.
        destruct (step selectedQuestions _ added Hgt L I) as [L' I'].
        eexists (_ :: added). rewrite E, <- app_assoc.
        split; [reflexivity|]. split; [exact L'|]. split; [exact I'|].
        intros Hd. inversion Hd; subst. constructor; [assumption|].
        now apply W.
    + exists []. rewrite app_nil_r. cbn [List.length map seq].
      split; [reflexivity|]. split; [lia|].
      split; [reflexivity | constructor].
Qed.

Lemma padding_Forall (P : Selected -> Prop) (skills : list string)
    (questionCount : option Z) :
  (forall n m, P (Full (withId n (genericQuestion skills m)))) ->
  forall (fuel : nat) (defaults : list Entry)
         (selectedQuestions padded : list Selected),
    Forall (fun e => forall n, P (Full (withId n e))) defaults ->
    Forall P selectedQuestions ->
    padding fuel skills questionCount defaults selectedQuestions
    = Some padded ->
    Forall P padded.
Proof.
  intros Hg. induction fuel as [|fuel IH];
    intros defaults selectedQuestions padded Hd Hs; cbn [padding];
    destruct (lessThan _ questionCount); try discriminate;
    try (intros H; injection H as <-; exact Hs).
  destruct defaults as [|defaultQuestion rest].
  - apply IH; [constructor|]. apply Forall_app. split; [exact Hs|].
    constructor; [apply Hg | constructor].
  - inversion Hd; subst. apply IH; [assumption|].
    apply Forall_app. split; [exact Hs|].
    constructor; [auto | constructor].
Qed.

(** *** The whole of [generateQuestionsForSkills] *)

Lemma shuffleLoop_sound {A : Type} (random : Random) :
  forall (i : nat) (newArray shuffled : list A) (k k' : nat),
    shuffleLoop random i newArray k = Some (shuffled, k') ->
    Permutation newArray shuffled.
Proof.
  induction i as [|i IH]; intros newArray shuffled k k'; cbn [shuffleLoop].
  - intros H. injection H as <- _. apply Permutation_refl.
  - destruct (swap newArray (S i) _) as [swapped|] eqn:E; [|discriminate].
    intros H. apply IH in H. destruct (swap_Permutation _ _ _ _ E) as [P _].
    eapply Permutation_trans; eassumption.
Qed.

Lemma shuffleArray_sound {A : Type} (random : Random)
    (array shuffled : list A) (k k' : nat) :
  shuffleArray random array k = Some (shuffled, k') ->
  Permutation array shuffled.
Proof. apply shuffleLoop_sound. Qed.

Lemma shuffleArray_total {A : Type} (random : Random) (array : list A)
    (k : nat) :
  unit_interval random ->
  exists shuffled k', shuffleArray random array k = Some (shuffled, k').
Proof.
  intros Hr.
  destruct (shuffleLoop_Permutation random Hr (List.length array - 1) array k)
    as (shuffled & E & _).
  { destruct array; simpl; [now right | left; lia]. }
  now exists shuffled, (k + (List.length array - 1))%nat.
Qed.

(** The three stages of a call that returned. *)
Lemma generate_stages random skills level questionCount k generated k' :
  generateQuestionsForSkills random skills level questionCount k
  = Some (generated, k') ->
  exists picked padded fuel,
    fst (forEachSkill random skills 0 [] k) = picked /\
    padding fuel skills questionCount (defaultSkillQuestions skills) picked
    = Some padded /\
    Permutation (slice0 padded questionCount) generated.
Proof.
  unfold generateQuestionsForSkills.
  destruct (forEachSkill random skills 0 [] k) as [picked k1].
  destruct (padding _ skills questionCount _ picked) as [padded|] eqn:E;
    [|discriminate].
  intros H. apply shuffleArray_sound in H.
  exists picked, padded. eexists. split; [reflexivity|]. split; eassumption.
Qed.

Lemma firstn_Forall {A : Type} (P : A -> Prop) (n : nat) (l : list A) :
  Forall P l -> Forall P (firstn n l).
Proof.
  intros H. revert n. induction H as [|x l Hx H IH]; intros [|n]; simpl;
    constructor; auto.
Qed.

Lemma firstn_seq (n start len : nat) :
  firstn n (seq start len) = seq start (Nat.min n len).
Proof.
  revert start len. induction n as [|n IH]; intros start [|len]; simpl;
    try reflexivity.
  now rewrite IH.
Qed.

Lemma slice0_Forall {A : Type} (P : A -> Prop) (arr : list A) end_ :
  Forall P arr -> Forall P (slice0 arr end_).
Proof.
  intros H. unfold slice0. destruct end_ as [e|]; [|constructor].
  destruct (e <? 0); now apply firstn_Forall.
Qed.

(** A call with a count that is not negative: the picks, padded, cut to
    the count and shuffled. *)
Lemma generate_run (random : Random) (skills : list string) (level : string)
    (n : Z) (k : nat) :
  unit_interval random -> 0 <= n ->
  exists picked added generated k',
    generateQuestionsForSkills random skills level (Some n) k
    = Some (generated, k') /\
    Permutation (firstn (Z.to_nat n) (picked ++ added)) generated /\
    n <= Z.of_nat (List.length (picked ++ added)).
Proof.
  intros Hr Hn. unfold generateQuestionsForSkills.
  destruct (forEachSkill_spec random skills 0 [] k) as (picked & E & _).
  rewrite E. cbn [app].
  destruct (padding_spec skills n (Z.to_nat n) (defaultSkillQuestions skills)
              picked ltac:(lia)) as (added & Ep & L & _).
  rewrite Ep.
  destruct (shuffleArray_total random
              (slice0 (picked ++ added) (Some n)) (k + List.length picked) Hr)
    as (generated & k' & Es).
  exists picked, added, generated, k'. split; [exact Es|].
  apply shuffleArray_sound in Es. unfold slice0 in Es.
  destruct (Z.ltb_spec n 0); [lia|].
  split; [exact Es|]. rewrite length_app. lia.
Qed.

(** X22.  With draws in [0, 1) and a count that is not negative,
    [generateQuestionsForSkills] returns exactly [questionCount] questions,
    whatever the skills: the bank's picks are cut to the count or padded up
    to it. *)
Theorem generateQuestions_count (random : Random) (skills : list string)
    (level : string) (n : Z) (k : nat) :
  unit_interval random -> 0 <= n ->
  exists generated k',
    generateQuestionsForSkills random skills level (Some n) k
    = Some (generated, k') /\
    Z.of_nat (List.length generated) = n.
Proof.
  intros Hr Hn.
  destruct (generate_run random skills level n k Hr Hn)
    as (picked & added & generated & k' & E & P & L).
  exists generated, k'. split; [exact E|].
  apply Permutation_length in P. rewrite <- P, length_firstn. lia.
Qed.

Lemma generateQuestions_count_witness :
  exists generated k',
    generateQuestionsForSkills sample_random ["React"; "Rust"]%string
      "mid"%string (Some 7) 0
    = Some (generated, k') /\
    Z.of_nat (List.length generated) = 7.
Proof.
  apply (generateQuestions_count sample_random); [apply sample_random_unit|lia].
Defined.

(** What holds of the picks and of every entry with five key phrases
    holds of the questions generated. *)
Lemma generate_Forall (P : Selected -> Prop) random skills level
    questionCount k generated k' :
  (forall n e, rich e -> P (Full (withId n e))) ->
  Forall P (fst (forEachSkill random skills 0 [] k)) ->
  generateQuestionsForSkills random skills level questionCount k
  = Some (generated, k') ->
  Forall P generated.
Proof.
  intros HP Hpicked H.
  destruct (generate_stages _ _ _ _ _ _ _ H)
    as (picked & padded & fuel & <- & Ep & Pm).
  eapply Permutation_Forall; [exact Pm|]. apply slice0_Forall.
  eapply (padding_Forall P); [| |exact Hpicked|exact Ep].
  - intros n m. apply HP, generic_rich.
  - eapply Forall_impl; [|apply defaults_rich]. intros e He n. now apply HP.
Qed.

Lemma picked_well_formed random skills k :
  unit_interval random -> Forall plain_skill skills ->
  Forall well_formed (fst (forEachSkill random skills 0 [] k)).
Proof.
  intros Hr Hs.
  destruct (forEachSkill_spec random skills 0 [] k) as (picked & E & _ & W & _).
  rewrite E. cbn [fst app]. now apply W.
Qed.

(** X23.  With draws in [0, 1) and no skill that names a method of
    [Object.prototype] taking a parameter, every question generated has
    its text and five key phrases or more, whatever the count. *)
Theorem generateQuestions_well_formed (random : Random)
    (skills : list string) (level : string) (questionCount : option Z)
    (k : nat) (generated : list Selected) (k' : nat) :
  unit_interval random -> Forall plain_skill skills ->
  generateQuestionsForSkills random skills level questionCount k
  = Some (generated, k') ->
  Forall well_formed generated.
Proof.
  intros Hr Hs H.
  apply (generate_Forall well_formed random skills level questionCount k
           generated k'); [|now apply picked_well_formed|exact H].
  intros n e He. exact He.
Qed.

Lemma generateQuestions_well_formed_witness :
  exists generated,
    generateQuestionsForSkills sample_random ["React"; "Rust"]%string
      "mid"%string (Some 4) 0 = Some (generated, 4%nat) /\
    Forall well_formed generated.
Proof.
  eexists. split; [vm_compute; reflexivity|].
  apply (generateQuestions_well_formed sample_random ["React"; "Rust"]%string
           "mid"%string (Some 4) 0%nat _ 4%nat sample_random_unit).
  - repeat constructor.
  - vm_compute. reflexivity.
Defined.

Lemma in_bank_hasQuestions skill :
  in_bank skill -> hasQuestions (questionBank skill) = true.
Proof.
  intros (l & E). rewrite E. revert E. unfold questionBank.
  repeat match goal with
         | |- context [if ?b then _ else _] => destruct b
         end;
    intros H; try discriminate; injection H as <-; reflexivity.
Qed.

(** X24.  When the bank has questions for every skill, the ids of the
    questions generated are the numbers from 1 to [questionCount], each
    once. *)
Theorem generateQuestions_ids (random : Random) (skills : list string)
    (level : string) (n : Z) (k : nat) (generated : list Selected)
    (k' : nat) :
  Forall in_bank skills -> 0 <= n ->
  generateQuestionsForSkills random skills level (Some n) k
  = Some (generated, k') ->
  Permutation (map idOf generated) (map Z.of_nat (seq 1 (Z.to_nat n))).
Proof.
  intros Hs Hn H.
  destruct (forEachSkill_spec random skills 0 [] k)
    as (picked & E & _ & _ & I & _).
  assert (Ip : map idOf picked = map Z.of_nat (seq 1 (List.length picked))).
  { rewrite I.
    - f_equal. f_equal. apply (f_equal (@List.length Z)) in I.
      + now rewrite !length_map, length_seq in I.
      + eapply Forall_impl; [|exact Hs]. apply in_bank_hasQuestions.
    - eapply Forall_impl; [|exact Hs]. apply in_bank_hasQuestions. }
  unfold generateQuestionsForSkills in H. rewrite E in H. cbn [app] in H.
  destruct (padding_spec skills n (Z.to_nat n) (defaultSkillQuestions skills)
              picked ltac:(lia)) as (added & Ep' & L & Ia & _).
  rewrite Ep' in H. apply shuffleArray_sound in H.
  apply Permutation_sym. eapply Permutation_trans;
    [|apply Permutation_map; exact H].
  unfold slice0. destruct (Z.ltb_spec n 0); [lia|].
  rewrite <- firstn_map, map_app, Ip, Ia, <- map_app, <- seq_app.
  rewrite firstn_map. rewrite firstn_seq.
  replace (Nat.min (Z.to_nat n) (List.length picked + List.length added))
    with (Z.to_nat n) by lia.
  apply Permutation_refl.
Qed.

Lemma generateQuestions_ids_witness :
  exists generated,
    generateQuestionsForSkills sample_random ["React"; "Node.js"]%string
      "mid"%string (Some 4) 0 = Some (generated, 5%nat) /\
    Permutation (map idOf generated) [1; 2; 3; 4].
Proof.
  eexists. split; [vm_compute; reflexivity|].
  apply (generateQuestions_ids sample_random ["React"; "Node.js"]%string
           "mid"%string 4 0%nat _ 5%nat).
  - repeat constructor; eexists; vm_compute; reflexivity.
  - lia.
  - vm_compute. reflexivity.
Defined.

(** X25.  A skill that names a method of [Object.prototype] taking a
    parameter ([constructor], [hasOwnProperty], ...) puts an object without
    text or key phrases among the questions, when the count does not cut
    the picks. *)
Theorem generateQuestions_bare (random : Random) (skills : list string)
    (level skill : string) (arity n : Z) (k : nat)
    (generated : list Selected) (k' : nat) :
  In skill skills -> questionBank skill = Method arity -> 0 < arity ->
  Z.of_nat (List.length skills) <= n ->
  generateQuestionsForSkills random skills level (Some n) k
  = Some (generated, k') ->
  exists m, In (IdOnly m) generated /\ questionsOf generated = None.
Proof.
  intros Hin Hm Ha Hn H.
  destruct (forEachSkill_spec random skills 0 [] k)
    as (picked & E & Lp & _ & _ & B).
  destruct (B skill arity Hin Hm Ha) as (m & Hb).
  unfold generateQuestionsForSkills in H. rewrite E in H. cbn [app] in H.
  destruct (padding_spec skills n (Z.to_nat n) (defaultSkillQuestions skills)
              picked ltac:(lia)) as (added & Ep & L & _).
  rewrite Ep in H. apply shuffleArray_sound in H.
  assert (Hg : In (IdOnly m) generated).
  { eapply Permutation_in; [exact H|].
    unfold slice0. destruct (Z.ltb_spec n 0); [lia|].
    rewrite firstn_app.
    apply in_or_app. left. rewrite firstn_all2 by lia. exact Hb. }
  exists m. split; [exact Hg|].
  clear - Hg. induction generated as [|s rest IH]; [destruct Hg|].
  destruct Hg as [-> | Hg]; [reflexivity|].
  cbn [questionsOf]. destruct s; [|reflexivity]. now rewrite IH.
Qed.

Lemma generateQuestions_bare_witness :
  exists generated k' m,
    generateQuestionsForSkills sample_random
      ["React"; "constructor"]%string "mid"%string (Some 4) 0
    = Some (generated, k') /\
    In (IdOnly m) generated /\ questionsOf generated = None.
Proof.
  destruct (generateQuestionsForSkills sample_random
              ["React"; "constructor"]%string "mid"%string (Some 4) 0)
    as [[generated k']|] eqn:E; [|vm_compute in E; discriminate].
  destruct (generateQuestions_bare sample_random
              ["React"; "constructor"]%string "mid"%string
              "constructor"%string 1 4 0%nat generated k') as (m & Hm).
  - right. left. reflexivity.
  - reflexivity.
  - lia.
  - simpl. lia.
  - exact E.
  - exists generated, k', m. split; [reflexivity | exact Hm].
Defined.

(** *** [fetchQuestions] *)

Lemma questionsOf_well_formed generated :
  Forall well_formed generated ->
  exists qs,
    questionsOf generated = Some qs /\
    List.length qs = List.length generated /\
    Forall (fun q => (5 <= List.length (keyPhrases q))%nat) qs.
Proof.
  induction 1 as [|s rest Hs _ (qs & E & L & R)].
  - exists []. repeat split. constructor.
  - destruct s as [q|n]; [|destruct Hs].
    exists (q :: qs). cbn [questionsOf]. rewrite E.
    split; [reflexivity|]. split; [simpl; now rewrite L|].
    constructor; assumption.
Qed.

Lemma fetchQuestions_sound parseInt random interviewSettings selectedSkills
    experienceLevel k st st' k' :
  unit_interval random -> Forall plain_skill selectedSkills ->
  fetchQuestions_settled parseInt random interviewSettings selectedSkills
    experienceLevel k st = Some (st', k') ->
  exists generated qs,
    generateQuestionsForSkills random selectedSkills experienceLevel
      (questionCountOf parseInt interviewSettings) k
    = Some (generated, k') /\
    questionsOf generated = Some qs /\
    List.length qs = List.length generated /\
    Forall (fun q => (5 <= List.length (keyPhrases q))%nat) qs /\
    st' = setQuestionsLoading false (setQuestions qs st).
Proof.
  intros Hr Hs. unfold fetchQuestions_settled.
  destruct (generateQuestionsForSkills _ _ _ _ _) as [[generated k1]|] eqn:E;
    [|discriminate].
  assert (W : Forall well_formed generated).
  { apply (generate_Forall well_formed random selectedSkills experienceLevel
             (questionCountOf parseInt interviewSettings) k generated k1);
      [|now apply picked_well_formed|exact E].
    intros n e He. exact He. }
  destruct (questionsOf_well_formed generated W) as (qs & Eq & L & R).
  rewrite Eq. intros H. injection H as <- <-.
  exists generated, qs. repeat split; assumption.
Qed.

(** X26.  [fetchQuestions], once its wait is over: with draws in [0, 1),
    plain skills and a count [n] that is not negative (4 when the render
    holds no settings or the settings no [questionCount]), the state holds
    [n] questions, each with five key phrases or more, and is no longer
    loading questions. *)
Theorem fetchQuestions_loaded (parseInt : string -> option Z)
    (random : Random) (interviewSettings : option Settings)
    (selectedSkills : list string) (experienceLevel : string) (k : nat)
    (st : State) (n : Z) :
  unit_interval random -> Forall plain_skill selectedSkills ->
  questionCountOf parseInt interviewSettings = Some n -> 0 <= n ->
  exists st' k',
    fetchQuestions_settled parseInt random interviewSettings selectedSkills
      experienceLevel k st = Some (st', k') /\
    questionsLoading st' = false /\
    Z.of_nat (List.length (questions st')) = n /\
    Forall (fun q => (5 <= List.length (keyPhrases q))%nat) (questions st').
Proof.
  intros Hr Hs Hc Hn.
  destruct (generate_run random selectedSkills experienceLevel n k Hr Hn)
    as (picked & added & generated & k' & E & P & L).
  assert (W : Forall well_formed generated).
  { apply (generate_Forall well_formed random selectedSkills experienceLevel
             (Some n) k generated k'); [|now apply picked_well_formed|exact E].
    intros m e He. exact He. }
  destruct (questionsOf_well_formed generated W) as (qs & Eq & Lq & R).
  exists (setQuestionsLoading false (setQuestions qs st)), k'.
  unfold fetchQuestions_settled. rewrite Hc, E, Eq.
  split; [reflexivity|]. split; [reflexivity|]. split; [|exact R].
  simpl. apply Permutation_length in P.
  rewrite Lq, <- P, length_firstn. lia.
Qed.

Lemma fetchQuestions_loaded_witness :
  exists st' k',
    fetchQuestions_settled (fun _ => Some 7) sample_random None
      ["React"; "Rust"]%string "mid"%string 0
      (Lifecycle.comp Examples.answering) = Some (st', k') /\
    questionsLoading st' = false /\
    Z.of_nat (List.length (questions st')) = 4 /\
    Forall (fun q => (5 <= List.length (keyPhrases q))%nat) (questions st').
Proof.
  apply (fetchQuestions_loaded (fun _ => Some 7) sample_random None).
  - apply sample_random_unit.
  - repeat constructor.
  - reflexivity.
  - lia.
Defined.

Lemma scoringEffect_total st :
  Forall (fun q => keyPhrases q <> []) (questions st) ->
  exists st', Scoring.scoringEffect st = Some st'.
Proof.
  intros H. unfold Scoring.scoringEffect.
  destruct (_ || _); [eauto|].
  destruct (nth_error (questions st) (currentQuestion st)) as [q|] eqn:E;
    [|eauto].
  rewrite Forall_forall in H. pose proof (H q (nth_error_In _ _ E)) as Hq.
  rewrite (ScoringFacts.newRelevanceScore_closed _ _ Hq). eauto.
Qed.

(** X27.  On the questions that [fetchQuestions] sets, the scoring effect
    always has a score to set: whatever the answer and the question
    shown, the relevance is a number. *)
Theorem generated_questions_score (parseInt : string -> option Z)
    (random : Random) (interviewSettings : option Settings)
    (selectedSkills : list string) (experienceLevel : string) (k : nat)
    (st st' : State) (k' : nat) :
  unit_interval random -> Forall plain_skill selectedSkills ->
  fetchQuestions_settled parseInt random interviewSettings selectedSkills
    experienceLevel k st = Some (st', k') ->
  forall (text : string) (shown : nat),
  exists scored,
    Scoring.scoringEffect (setUserAnswer text (setCurrentQuestion shown st'))
    = Some scored.
Proof.
  intros Hr Hs F text shown.
  destruct (fetchQuestions_sound _ _ _ _ _ _ _ _ _ Hr Hs F)
    as (_ & qs & _ & _ & _ & R & ->).
  apply scoringEffect_total. simpl.
  eapply Forall_impl; [|exact R].
  intros q Hq E. cbv beta in Hq. rewrite E in Hq. simpl in Hq. lia.
Qed.

Lemma generated_questions_score_witness :
  exists st' k' scored,
    fetchQuestions_settled (fun _ => Some 3) sample_random None
      ["React"]%string "mid"%string 0 (Lifecycle.comp Examples.answering)
    = Some (st', k') /\
    Scoring.scoringEffect
      (setUserAnswer "hooks keep state in functional components"%string
         (setCurrentQuestion 2 st'))
    = Some scored.
Proof.
  destruct (fetchQuestions_settled (fun _ => Some 3) sample_random None
              ["React"]%string "mid"%string 0
              (Lifecycle.comp Examples.answering))
    as [[st' k']|] eqn:F; [|vm_compute in F; discriminate].
  destruct (generated_questions_score (fun _ => Some 3) sample_random None
              ["React"]%string "mid"%string 0%nat
              (Lifecycle.comp Examples.answering) st' k'
              sample_random_unit ltac:(repeat constructor) F
              "hooks keep state in functional components"%string 2%nat)
    as (scored & S).
  exists st', k', scored. split; [reflexivity | exact S].
Defined.

End QuestionFacts.

(** ** The setup page *)

Module SetupFacts.

Import Questions Setup.

Local Open Scope string_scope.

Lemma includes_In skills skill : includes skills skill = true <-> In skill skills.
Proof.
  unfold includes. rewrite existsb_exists. split.
  - intros (x & Hx & E). apply String.eqb_eq in E. now subst.
  - intros H. exists skill. split; [exact H | apply String.eqb_refl].
Qed.

Lemma includes_false skills skill :
  includes skills skill = false <-> ~ In skill skills.
Proof.
  rewrite <- includes_In. destruct (includes skills skill); split; congruence.
Qed.

Lemma filter_absent skills skill :
  ~ In skill skills -> filter (fun s => negb (s =? skill)) skills = skills.
Proof.
  induction skills as [|x l IH]; intros H; [reflexivity|]. simpl.
  destruct (String.eqb_spec x skill) as [->|_]; simpl.
  - exfalso. apply H. now left.
  - rewrite IH; [reflexivity|]. intros Hin. apply H. now right.
Qed.

Lemma NoDup_snoc (l : list string) (s : string) :
  NoDup l -> ~ In s l -> NoDup (l ++ [s]).
Proof.
  intros Hl Hs. apply NoDup_app; [exact Hl | repeat constructor; intros [] |].
  intros x Hx [<- | []]. contradiction.
Qed.

Lemma toggle_NoDup skills skill :
  NoDup skills -> NoDup (handleSkillToggle skills skill).
Proof.
  intros H. unfold handleSkillToggle.
  destruct (includes skills skill) eqn:E.
  - now apply NoDup_filter.
  - apply NoDup_snoc; [exact H|]. now apply includes_false.
Qed.

Lemma toggle_In skills skill s :
  In s (handleSkillToggle skills skill) -> In s skills \/ s = skill.
Proof.
  unfold handleSkillToggle. destruct (includes skills skill).
  - rewrite filter_In. intros [H _]. now left.
  - rewrite in_app_iff. intros [H | [<- | []]]; auto.
Qed.

Lemma toggle_keeps skills skill s :
  s <> skill -> In s skills -> In s (handleSkillToggle skills skill).
Proof.
  intros Hne H. unfold handleSkillToggle. destruct (includes skills skill).
  - apply filter_In. split; [exact H|].
    destruct (String.eqb_spec s skill); [contradiction | reflexivity].
  - apply in_or_app. now left.
Qed.

(** The invariant of the page. *)
Lemma form_invariant (l : list Action) :
  forall f f',
    (NoDup (form_skills f) /\ ~ In "" (form_skills f) /\
     In (form_experience f) experienceOptions /\
     In (form_duration f) durationOptions /\
     In (form_questionCount f) questionCountOptions) ->
    acts l f = Some f' ->
    NoDup (form_skills f') /\ ~ In "" (form_skills f') /\
    In (form_experience f') experienceOptions /\
    In (form_duration f') durationOptions /\
    In (form_questionCount f') questionCountOptions.
Proof.
  induction l as [|a l IH]; intros f f' Inv; cbn [acts].
  - intros H. injection H as <-. exact Inv.
  - destruct (act a f) as [f1|] eqn:E; [|discriminate].
    apply IH. destruct Inv as (N & Z & He & Hd & Hq).
    destruct a; cbn [act] in E.
    + injection E as <-. simpl. auto.
    + destruct (includes experienceOptions value) eqn:I; [|discriminate].
      injection E as <-. simpl. apply includes_In in I. auto.
    + destruct (includes durationOptions value) eqn:I; [|discriminate].
      injection E as <-. simpl. apply includes_In in I. auto.
    + destruct (includes questionCountOptions value) eqn:I; [|discriminate].
      injection E as <-. simpl. apply includes_In in I. auto.
    + destruct (includes allSkills skill) eqn:I; [|discriminate].
      injection E as <-. simpl. split; [now apply toggle_NoDup|].
      split; [|auto]. intros H. apply toggle_In in H.
      destruct H as [H | <-]; [contradiction|]. discriminate.
    + injection E as <-. simpl. auto.
    + injection E as <-. unfold addCustomSkill.
      destruct (Str.truthy (customSkill f)) eqn:T; simpl; [|auto].
      destruct (includes (form_skills f) (customSkill f)) eqn:I; simpl;
        [auto|].
      split; [apply NoDup_snoc; [exact N | now apply includes_false]|].
      split; [|auto]. rewrite in_app_iff. intros [H | [H | []]];
        [contradiction|]. rewrite H in T. discriminate.
Qed.

(** X28.  Whatever is done on the setup page, the settings it passes on
    name a position, one skill or more, no skill twice and no empty
    skill, and hold one of the options for the experience, the duration
    and the number of questions. *)
Theorem setup_settings (l : list Action) (f : Form) (settings : Settings) :
  acts l initialForm = Some f ->
  startInterview f = Some settings ->
  position settings <> "" /\
  skills settings <> [] /\
  NoDup (skills settings) /\
  ~ In "" (skills settings) /\
  In (experience settings) experienceOptions /\
  In (duration settings) durationOptions /\
  exists count,
    questionCount settings = Some count /\ In count questionCountOptions.
Proof.
  intros Hl Hs.
  destruct (form_invariant l initialForm f) as (N & Z & He & Hd & Hq);
    [|exact Hl|].
  { simpl. repeat split; auto.
    - repeat constructor; simpl; intuition discriminate.
    - intuition discriminate. }
  unfold startInterview in Hs.
  destruct (Str.truthy (form_position f)) eqn:T; [|discriminate].
  destruct (Nat.eqb_spec (List.length (form_skills f)) 0) as [|Hlen];
    [discriminate|].
  simpl in Hs. injection Hs as <-. simpl.
  split; [intros E; rewrite E in T; discriminate|].
  split; [intros E; rewrite E in Hlen; now apply Hlen|].
  repeat split; auto. eauto.
Qed.

Lemma setup_settings_witness :
  exists settings,
    startInterview
      {| form_position := "Engineer"; form_experience := "mid";
         form_duration := "30"; form_questionCount := "7";
         form_skills := ["JavaScript"; "Rust"]; customSkill := "" |}
    = Some settings /\
    NoDup (skills settings).
Proof.
  eexists. split; [reflexivity|].
  refine (proj1 (proj2 (proj2
            (setup_settings
               [ChangePosition "Engineer"; ClickSkill "React";
                ChangeCustomSkill "Rust"; ClickAdd; ClickAdd;
                ChangeQuestionCount "7"]
               _ _ _ _)))); reflexivity.
Defined.

(** X29.  A skill that is not one of [allSkills] has no button: once in
    the list it stays there, whatever is done on the page. *)
Theorem custom_skill_stays (l : list Action) (f f' : Form) (skill : string) :
  In skill (form_skills f) -> ~ In skill allSkills ->
  acts l f = Some f' ->
  In skill (form_skills f').
Proof.
  intros Hin Hno. revert f Hin. induction l as [|a l IH]; intros f Hin;
    cbn [acts].
  - intros H. now injection H as <-.
  - destruct (act a f) as [f1|] eqn:E; [|discriminate].
    apply IH. destruct a; cbn [act] in E;
      try (injection E as <-; exact Hin).
    + destruct (includes experienceOptions value); [|discriminate].
      injection E as <-. exact Hin.
    + destruct (includes durationOptions value); [|discriminate].
      injection E as <-. exact Hin.
    + destruct (includes questionCountOptions value); [|discriminate].
      injection E as <-. exact Hin.
    + destruct (includes allSkills skill0) eqn:I; [|discriminate].
      injection E as <-. simpl. apply toggle_keeps; [|exact Hin].
      intros ->. apply includes_In in I. contradiction.
    + injection E as <-. unfold addCustomSkill.
      destruct (_ && _); [|exact Hin]. simpl. apply in_or_app. now left.
Qed.

Lemma custom_skill_stays_witness :
  In "Rust"
    (form_skills
       {| form_position := ""; form_experience := "mid";
          form_duration := "30"; form_questionCount := "4";
          form_skills := ["Rust"]; customSkill := "Rust" |}).
Proof.
  apply (custom_skill_stays
           [ClickSkill "React"; ChangeCustomSkill "Rust"; ClickAdd]
           {| form_position := ""; form_experience := "mid";
              form_duration := "30"; form_questionCount := "4";
              form_skills := ["React"; "Rust"]; customSkill := "" |}
           _ "Rust").
  - right. left. reflexivity.
  - simpl. intuition discriminate.
  - reflexivity.
Defined.

Lemma toggle_back skills skill :
  NoDup skills -> In skill skills ->
  Permutation (filter (fun s => negb (s =? skill)) skills ++ [skill]) skills.
Proof.
  induction 1 as [|x l Hx N IH]; intros Hin; [destruct Hin|]. simpl.
  destruct (String.eqb_spec x skill) as [->|Hne]; simpl.
  - rewrite filter_absent by exact Hx.
    apply Permutation_sym, Permutation_cons_append.
  - apply perm_skip. apply IH. destruct Hin as [E|H]; [congruence | exact H].
Qed.

(** X30.  Clicking a skill twice gives back the same skills: the very
    list when the skill was not selected, the list with that skill moved
    to the end when it was. *)
Theorem toggle_twice (skills : list string) (skill : string) :
  NoDup skills ->
  let twice := handleSkillToggle (handleSkillToggle skills skill) skill in
  Permutation twice skills /\
  (~ In skill skills -> twice = skills) /\
  (In skill skills ->
   twice = (filter (fun s => negb (s =? skill)) skills ++ [skill])%list).
Proof.
  intros N. cbv zeta.
  assert (Hin : In skill skills ->
                handleSkillToggle (handleSkillToggle skills skill) skill
                = (filter (fun s => negb (s =? skill)) skills
                   ++ [skill])%list).
  { intros H. unfold handleSkillToggle at 2.
    rewrite (proj2 (includes_In skills skill) H).
    unfold handleSkillToggle.
    replace (includes (filter (fun s => negb (s =? skill)) skills) skill)
      with false; [reflexivity|].
    symmetry. apply includes_false. rewrite filter_In.
    intros [_ E]. rewrite String.eqb_refl in E. discriminate. }
  assert (Hout : ~ In skill skills ->
                 handleSkillToggle (handleSkillToggle skills skill) skill
                 = skills).
  { intros H. unfold handleSkillToggle at 2.
    rewrite (proj2 (includes_false skills skill) H).
    unfold handleSkillToggle.
    rewrite (proj2 (includes_In (skills ++ [skill]) skill))
      by (apply in_or_app; right; now left).
    rewrite filter_app, filter_absent by exact H. simpl.
    rewrite String.eqb_refl. simpl. apply app_nil_r. }
  split; [|split; assumption].
  destruct (in_dec string_dec skill skills) as [H|H].
  - rewrite Hin by exact H. now apply toggle_back.
  - rewrite Hout by exact H. apply Permutation_refl.
Qed.

Lemma toggle_twice_witness :
  Permutation
    (handleSkillToggle (handleSkillToggle ["React"; "JavaScript"] "React")
       "React")
    ["React"; "JavaScript"].
Proof.
  refine (proj1 (toggle_twice ["React"; "JavaScript"] "React" _)).
  repeat constructor; simpl; intuition discriminate.
Defined.

End SetupFacts.
